(** * service-b-orchestration: the orchestration handler

    A shallow embedding of [src/service-b-orchestration/cmd/main.go]:
    the handler [(a *app) handler], together with the parts of the Go
    standard library it calls ([regexp], [encoding/json], [strconv],
    [net/url], [net/http], [unicode/utf8]) at the level of detail the
    handler observes.

    Data: Go [string] and [[]byte] are [string] (a sequence of bytes,
    [ascii]); [float64] is the primitive binary64 [float]; structs are
    records; outbound HTTP is a function from the request URL to the result
    of [http.DefaultClient.Do]; tracing, logging and deferred calls are
    events appended to a trace that is threaded through the handler. *)

From Stdlib Require Import ZArith List String Ascii Bool Floats Lia.
Import ListNotations.

Set Warnings "-register-all,-inexact-float".

Local Open Scope string_scope.
Local Open Scope list_scope.
Local Open Scope Z_scope.

(** String concatenation; [++] is kept for lists. *)
Infix "+++" := String.append (right associativity, at level 60).

(** ** Bytes *)

Definition code (c : ascii) : Z := Z.of_N (N_of_ascii c).
Definition chr (z : Z) : ascii := ascii_of_N (Z.to_N z).

Definition in_range (lo hi : Z) (c : ascii) : bool :=
  (lo <=? code c) && (code c <=? hi).

Definition is_digit (c : ascii) : bool := in_range 48 57 c.
Definition is_lower (c : ascii) : bool := in_range 97 122 c.
Definition is_upper (c : ascii) : bool := in_range 65 90 c.
Definition is_hex (c : ascii) : bool :=
  is_digit c || in_range 97 102 c || in_range 65 70 c.

(** The double quote, byte 34. *)
Definition dquote : ascii := chr 34.

(** [q s] is [s] with every apostrophe replaced by a double quote; it is
    only a way of writing JSON texts in this file. *)
Fixpoint q (s : string) : string :=
  match s with
  | EmptyString => EmptyString
  | String c r => String (if Ascii.eqb c "'"%char then dquote else c) (q r)
  end.

Definition str (l : list ascii) : string := string_of_list_ascii l.
Definition bytes (s : string) : list ascii := list_ascii_of_string s.

(** Go [s[n:]] on a string of at least [n] bytes. *)
Fixpoint drop (n : nat) (s : string) : string :=
  match n, s with
  | O, _ => s
  | S k, String _ r => drop k r
  | S _, EmptyString => EmptyString
  end.

Fixpoint take (n : nat) (s : string) : string :=
  match n, s with
  | S k, String c r => String c (take k r)
  | _, _ => EmptyString
  end.

(** [strings.HasPrefix]. *)
Definition HasPrefix (s p : string) : bool := String.prefix p s.

(** Decimal digits of a non-negative integer, most significant first, by
    repeated division; [fuel] bounds the number of digits. *)
Fixpoint digits_fuel (fuel : nat) (n : Z) (acc : list ascii) : list ascii :=
  match fuel with
  | O => acc
  | S k =>
      let acc' := chr (48 + n mod 10) :: acc in
      if n / 10 =? 0 then acc' else digits_fuel k (n / 10) acc'
  end.

Definition itoa (n : Z) : string :=
  str (digits_fuel (S (Z.to_nat (Z.log2 n))) n []).

Definition hex_lower (d : Z) : ascii :=
  if d <? 10 then chr (48 + d) else chr (87 + d).
Definition hex_upper (d : Z) : ascii :=
  if d <? 10 then chr (48 + d) else chr (55 + d).

(** Value of one hexadecimal digit. *)
Definition unhex (c : ascii) : Z :=
  if is_digit c then code c - 48
  else if in_range 97 102 c then code c - 87
  else code c - 55.

(** ** [unicode/utf8] *)
Module utf8.

Definition RuneError : Z := 65533.
Definition RuneSelf : Z := 128.

Definition cont (c : ascii) : bool := in_range 128 191 c.

(** [utf8.DecodeRune]: the first rune of [s] and its width in bytes;
    [(RuneError, 1)] on an invalid or truncated encoding and
    [(RuneError, 0)] on the empty string.  Overlong forms, surrogate
    halves and values above U+10FFFF are invalid. *)
Definition DecodeRune (s : string) : Z * nat :=
  match s with
  | EmptyString => (RuneError, 0%nat)
  | String b0 r =>
      let c0 := code b0 in
      if c0 <? 128 then (c0, 1%nat)
      else if in_range 194 223 b0 then
        match r with
        | String b1 _ =>
            if cont b1 then ((c0 - 192) * 64 + (code b1 - 128), 2%nat)
            else (RuneError, 1%nat)
        | _ => (RuneError, 1%nat)
        end
      else if in_range 224 239 b0 then
        match r with
        | String b1 (String b2 _) =>
            let lo := if c0 =? 224 then 160 else 128 in
            let hi := if c0 =? 237 then 159 else 191 in
            if in_range lo hi b1 && cont b2 then
              ((c0 - 224) * 4096 + (code b1 - 128) * 64 + (code b2 - 128),
               3%nat)
            else (RuneError, 1%nat)
        | _ => (RuneError, 1%nat)
        end
      else if in_range 240 244 b0 then
        match r with
        | String b1 (String b2 (String b3 _)) =>
            let lo := if c0 =? 240 then 144 else 128 in
            let hi := if c0 =? 244 then 143 else 191 in
            if in_range lo hi b1 && cont b2 && cont b3 then
              ((c0 - 240) * 262144 + (code b1 - 128) * 4096
               + (code b2 - 128) * 64 + (code b3 - 128), 4%nat)
            else (RuneError, 1%nat)
        | _ => (RuneError, 1%nat)
        end
      else (RuneError, 1%nat)
  end.

(** [utf8.EncodeRune] / [utf8.AppendRune]: surrogates and out-of-range
    values are written as U+FFFD. *)
Definition EncodeRune (r : Z) : list ascii :=
  let r := if (r <? 0) || (1114111 <? r)
              || ((55296 <=? r) && (r <=? 57343))
           then RuneError else r in
  if r <? 128 then [chr r]
  else if r <? 2048 then [chr (192 + r / 64); chr (128 + r mod 64)]
  else if r <? 65536 then
    [chr (224 + r / 4096); chr (128 + (r / 64) mod 64); chr (128 + r mod 64)]
  else
    [chr (240 + r / 262144); chr (128 + (r / 4096) mod 64);
     chr (128 + (r / 64) mod 64); chr (128 + r mod 64)].

End utf8.

(** ** [strconv]: decimal text and [float64] *)
Module strconv.

(** Reads a run of decimal digits: the value accumulated on [acc], the
    number of digits read, and the rest of the string. *)
Fixpoint read_digits (s : string) (acc n : Z) : Z * Z * string :=
  match s with
  | String c r =>
      if is_digit c then read_digits r (acc * 10 + (code c - 48)) (n + 1)
      else (acc, n, s)
  | EmptyString => (acc, n, s)
  end.

Definition read_sign (s : string) : bool * string :=
  match s with
  | String c r =>
      if code c =? 45 then (true, r)
      else if code c =? 43 then (false, r)
      else (false, s)
  | EmptyString => (false, s)
  end.

(** [readFloat] on a decimal literal: sign, decimal mantissa and decimal
    exponent, so that the literal denotes [mantissa * 10 ^ exponent];
    [None] on a syntax error. *)
Definition readFloat (s : string) : option (bool * Z * Z) :=
  let '(neg, s1) := read_sign s in
  let '(mi, ni, s2) := read_digits s1 0 0 in
  let '(m, nf, s3) :=
    match s2 with
    | String c r => if code c =? 46 then read_digits r mi 0 else (mi, 0, s2)
    | EmptyString => (mi, 0, s2)
    end in
  if ni + nf =? 0 then None
  else
    match s3 with
    | EmptyString => Some (neg, m, - nf)
    | String c r =>
        if (code c =? 101) || (code c =? 69) then
          let '(eneg, s4) := read_sign r in
          let '(e, ne, s5) := read_digits s4 0 0 in
          if ne =? 0 then None
          else
            match s5 with
            | EmptyString => Some (neg, m, (if eneg then - e else e) - nf)
            | _ => None
            end
        else None
    end.

(** The binary64 value nearest to [m * 10 ^ e10] (ties to even), with
    overflow to infinity: one correctly rounded binary64 operation of
    [SpecFloat] on the exact operands. *)
Definition round_decimal (neg : bool) (m e10 : Z) : spec_float :=
  match m with
  | Zpos p =>
      if 0 <=? e10 then
        binary_normalize 53 1024
          (if neg then - (m * 10 ^ e10) else m * 10 ^ e10) 0 false
      else
        SFdiv 53 1024 (S754_finite neg p 0)
          (S754_finite false (Z.to_pos (10 ^ (- e10))) 0)
  | _ => S754_zero neg
  end.

(** [strconv.ParseFloat(s, 64)] on decimal literals: [None] stands for a
    non-nil error, which is a syntax error or [ErrRange] (the value is
    more than half a unit in the last place beyond the largest
    [float64]).  Underflow is not an error. *)
Definition ParseFloat (s : string) : option float :=
  match readFloat s with
  | Some (neg, m, e10) =>
      match round_decimal neg m e10 with
      | S754_infinity _ | S754_nan => None
      | sf => Some (SF2Prim sf)
      end
  | None => None
  end.

(** *** Shortest formatting

    [FormatFloat(f, fmt, -1, 64)] writes the shortest decimal that reads
    back as [f], and among those the one nearest to [f].  [f] is
    [m * 2 ^ e]; the decimals that read back as [f] are those between the
    midpoints to its two neighbours, the midpoints included when [m] is
    even. *)

(** All quantities are integers after scaling by [10 ^ sh]. *)
Record interval : Type := {
  scale : Z;          (* sh *)
  mid : Z;            (* f * 10 ^ sh *)
  lower : Z; upper : Z;
  inclusive : bool }.

Definition interval_of (m e : Z) : interval :=
  let sh := Z.max 0 (2 - e) in
  let k := e + sh in
  let boundary := (m =? 2 ^ 52) && (-1074 <? e) in
  let f := m * 2 ^ k * 5 ^ sh in
  {| scale := sh;
     mid := f;
     lower := f - (if boundary then 2 ^ (k - 2) else 2 ^ (k - 1)) * 5 ^ sh;
     upper := f + 2 ^ (k - 1) * 5 ^ sh;
     inclusive := Z.even m |}.

(** [roundShortest]: at the unit [10 ^ j], the candidates are [mid]
    rounded down and up to a multiple of the unit; the first unit, from
    the largest, at which one of them lies in the interval is taken, and
    when both do, the nearer one (ties to the even digit). *)
Fixpoint roundShortest (i : interval) (j : nat) : Z * Z :=
  let p := 10 ^ Z.of_nat j in
  let d := (mid i / p) * p in
  let u := d + p in
  let okdown := (lower i <? d) || (inclusive i && (lower i =? d)) in
  let okup := (u <? upper i) || (inclusive i && (u =? upper i)) in
  let rem2 := 2 * (mid i - d) in
  let up := (p <? rem2) || ((p =? rem2) && Z.odd (mid i / p)) in
  if okdown && okup then ((if up then u else d) / p, Z.of_nat j)
  else if okdown then (d / p, Z.of_nat j)
  else if okup then (u / p, Z.of_nat j)
  else
    match j with
    | S k => roundShortest i k
    | O => (mid i, 0)
    end.

(** The shortest digits of [m * 2 ^ e] and the position [dp] of the
    decimal point: the value is [0.d1d2...dn * 10 ^ dp]. *)
Definition shortest (m e : Z) : string * Z :=
  let i := interval_of m e in
  let jtop := S (Z.to_nat (Z.log2 (upper i) / 3)) in
  let '(n, j) := roundShortest i jtop in
  let ds := itoa n in
  (ds, Z.of_nat (String.length ds) + j - scale i).

Fixpoint zeros (n : nat) : string :=
  match n with O => EmptyString | S k => String (chr 48) (zeros k) end.

(** [%f] with the shortest digits ([fmtF] with [prec = max(nd - dp, 0)]). *)
Definition fmtF (ds : string) (dp : Z) : string :=
  let nd := Z.of_nat (String.length ds) in
  if dp <=? 0 then "0." +++ zeros (Z.to_nat (- dp)) +++ ds
  else if nd <=? dp then ds +++ zeros (Z.to_nat (dp - nd))
  else take (Z.to_nat dp) ds +++ "." +++ drop (Z.to_nat dp) ds.

(** [%e] with the shortest digits ([fmtE]): at least two exponent
    digits. *)
Definition fmtE (ds : string) (dp : Z) : string :=
  let exp := dp - 1 in
  let frac := drop 1 ds in
  take 1 ds
  +++ (match frac with EmptyString => "" | _ => "." +++ frac end)
  +++ "e" +++ (if exp <? 0 then "-" else "+")
  +++ (if Z.abs exp <? 10 then "0" else "") +++ itoa (Z.abs exp).

(** [strconv.FormatFloat(f, fmt, -1, 64)] for [fmt] one of [f] ([efmt]
    false) and [e] ([efmt] true). *)
Definition FormatFloat (f : float) (efmt : bool) : string :=
  match Prim2SF f with
  | S754_nan => "NaN"
  | S754_infinity s => if s then "-Inf" else "+Inf"
  | S754_zero s =>
      (if s then "-" else "") +++ (if efmt then "0e+00" else "0")
  | S754_finite s m e =>
      let '(ds, dp) := shortest (Zpos m) e in
      (if s then "-" else "") +++ (if efmt then fmtE ds dp else fmtF ds dp)
  end.

End strconv.

(** ** [encoding/json]: reading *)
Module json.

(** *** Lexical level

    The byte-at-a-time scanner of [encoding/json] ([scanner.go]), as a
    state machine that emits tokens.  String tokens keep the bytes between
    the quotes as they are in the input (still escaped); number tokens
    keep the literal. *)
Inductive token : Type :=
| TLBrace | TRBrace | TLBrack | TRBrack | TColon | TComma
| TString (raw : string)
| TNumber (lit : string)
| TTrue | TFalse | TNull.

Inductive numstate : Type :=
| NNeg | NZero | NInt | NDot | NFrac | NE | NESign | NExp.

Inductive lexstate : Type :=
| LStart
| LStr (acc : list ascii)
| LEsc (acc : list ascii)
| LHex (n : nat) (acc : list ascii)
| LNum (st : numstate) (acc : list ascii)
| LLit (rest : list ascii) (t : token).

(** [isSpace] of the scanner: space, tab, carriage return, line feed. *)
Definition isSpace (c : ascii) : bool :=
  let n := code c in (n =? 32) || (n =? 9) || (n =? 13) || (n =? 10).

Definition is_e (c : ascii) : bool := (code c =? 101) || (code c =? 69).

(** The number automaton: [state1], [state0], [stateDot], [stateDot0],
    [stateE], [stateESign], [stateE0] of the scanner. *)
Definition num_next (st : numstate) (c : ascii) : option numstate :=
  match st with
  | NNeg => if code c =? 48 then Some NZero
            else if in_range 49 57 c then Some NInt else None
  | NZero => if code c =? 46 then Some NDot
             else if is_e c then Some NE else None
  | NInt => if is_digit c then Some NInt
            else if code c =? 46 then Some NDot
            else if is_e c then Some NE else None
  | NDot => if is_digit c then Some NFrac else None
  | NFrac => if is_digit c then Some NFrac
             else if is_e c then Some NE else None
  | NE => if (code c =? 43) || (code c =? 45) then Some NESign
          else if is_digit c then Some NExp else None
  | NESign => if is_digit c then Some NExp else None
  | NExp => if is_digit c then Some NExp else None
  end.

Definition num_final (st : numstate) : bool :=
  match st with
  | NZero | NInt | NFrac | NExp => true
  | _ => false
  end.

(** A byte read between tokens ([stateBeginValue] and the punctuation). *)
Definition lex_start (c : ascii) : option (lexstate * list token) :=
  let n := code c in
  if isSpace c then Some (LStart, [])
  else if n =? 123 then Some (LStart, [TLBrace])
  else if n =? 125 then Some (LStart, [TRBrace])
  else if n =? 91 then Some (LStart, [TLBrack])
  else if n =? 93 then Some (LStart, [TRBrack])
  else if n =? 58 then Some (LStart, [TColon])
  else if n =? 44 then Some (LStart, [TComma])
  else if n =? 34 then Some (LStr [], [])
  else if n =? 45 then Some (LNum NNeg [c], [])
  else if n =? 48 then Some (LNum NZero [c], [])
  else if in_range 49 57 c then Some (LNum NInt [c], [])
  else if n =? 116 then Some (LLit (bytes "rue") TTrue, [])
  else if n =? 102 then Some (LLit (bytes "alse") TFalse, [])
  else if n =? 110 then Some (LLit (bytes "ull") TNull, [])
  else None.

Definition lex_step (st : lexstate) (c : ascii)
  : option (lexstate * list token) :=
  match st with
  | LStart => lex_start c
  | LStr acc =>
      if code c =? 34 then Some (LStart, [TString (str (rev acc))])
      else if code c =? 92 then Some (LEsc (c :: acc), [])
      else if code c <? 32 then None
      else Some (LStr (c :: acc), [])
  | LEsc acc =>
      let n := code c in
      if (n =? 98) || (n =? 102) || (n =? 110) || (n =? 114) || (n =? 116)
         || (n =? 92) || (n =? 47) || (n =? 34)
      then Some (LStr (c :: acc), [])
      else if n =? 117 then Some (LHex 4 (c :: acc), [])
      else None
  | LHex n acc =>
      if is_hex c then
        match n with
        | S (S k) => Some (LHex (S k) (c :: acc), [])
        | _ => Some (LStr (c :: acc), [])
        end
      else None
  | LNum ns acc =>
      match num_next ns c with
      | Some ns' => Some (LNum ns' (c :: acc), [])
      | None =>
          if num_final ns then
            match lex_start c with
            | Some (st', toks) => Some (st', TNumber (str (rev acc)) :: toks)
            | None => None
            end
          else None
      end
  | LLit rest t =>
      match rest with
      | x :: rest' =>
          if Ascii.eqb c x then
            match rest' with
            | [] => Some (LStart, [t])
            | _ => Some (LLit rest' t, [])
            end
          else None
      | [] => None
      end
  end.

Definition lex_end (st : lexstate) : option (list token) :=
  match st with
  | LStart => Some []
  | LNum ns acc => if num_final ns then Some [TNumber (str (rev acc))] else None
  | _ => None
  end.

Fixpoint lex_from (st : lexstate) (s : string) : option (list token) :=
  match s with
  | EmptyString => lex_end st
  | String c r =>
      match lex_step st c with
      | Some (st', toks) =>
          match lex_from st' r with
          | Some more => Some (toks ++ more)
          | None => None
          end
      | None => None
      end
  end.

Definition lex (s : string) : option (list token) := lex_from LStart s.

(** *** Syntax

    A JSON text as a tree.  Strings and object keys are kept raw, numbers
    as literals, object members in source order with duplicates. *)
Inductive value : Type :=
| Null
| Bool (b : bool)
| Number (lit : string)
| String_ (raw : string)
| Array (elems : list value)
| Object (members : list (string * value)).

Inductive frame : Type :=
| FArr (done : list value)
| FObj (done : list (string * value)) (key : option string).

Inductive mode : Type :=
| MValue            (* a value must follow *)
| MArrFirst         (* just after an opening bracket *)
| MObjFirst         (* just after an opening brace *)
| MKey              (* after a comma inside an object *)
| MColon            (* after a key *)
| MAfter            (* after a value inside a container *)
| MDone (v : value). (* the top-level value is complete *)

(** [maxNestingDepth] of the scanner. *)
Definition maxNestingDepth : Z := 10000.

Definition complete (v : value) (stack : list frame)
  : option (mode * list frame) :=
  match stack with
  | [] => Some (MDone v, [])
  | FArr done :: st => Some (MAfter, FArr (v :: done) :: st)
  | FObj done (Some k) :: st => Some (MAfter, FObj ((k, v) :: done) None :: st)
  | FObj _ None :: _ => None
  end.

Definition push (f : frame) (m : mode) (stack : list frame)
  : option (mode * list frame) :=
  if Z.of_nat (List.length (f :: stack)) <=? maxNestingDepth
  then Some (m, f :: stack) else None.

Definition begin_value (t : token) (stack : list frame)
  : option (mode * list frame) :=
  match t with
  | TNull => complete Null stack
  | TTrue => complete (Bool true) stack
  | TFalse => complete (Bool false) stack
  | TNumber lit => complete (Number lit) stack
  | TString raw => complete (String_ raw) stack
  | TLBrack => push (FArr []) MArrFirst stack
  | TLBrace => push (FObj [] None) MObjFirst stack
  | _ => None
  end.

Definition set_key (k : string) (stack : list frame)
  : option (mode * list frame) :=
  match stack with
  | FObj done None :: st => Some (MColon, FObj done (Some k) :: st)
  | _ => None
  end.

Definition parse_step (m : mode) (stack : list frame) (t : token)
  : option (mode * list frame) :=
  match m with
  | MValue => begin_value t stack
  | MArrFirst =>
      match t, stack with
      | TRBrack, FArr _ :: st => complete (Array []) st
      | TRBrack, _ => None
      | _, _ => begin_value t stack
      end
  | MObjFirst =>
      match t, stack with
      | TRBrace, FObj _ _ :: st => complete (Object []) st
      | TString k, _ => set_key k stack
      | _, _ => None
      end
  | MKey => match t with TString k => set_key k stack | _ => None end
  | MColon => match t with TColon => Some (MValue, stack) | _ => None end
  | MAfter =>
      match t, stack with
      | TComma, FArr _ :: _ => Some (MValue, stack)
      | TRBrack, FArr done :: st => complete (Array (rev done)) st
      | TComma, FObj _ None :: _ => Some (MKey, stack)
      | TRBrace, FObj done None :: st => complete (Object (rev done)) st
      | _, _ => None
      end
  | MDone _ => None
  end.

Fixpoint parse_from (m : mode) (stack : list frame) (ts : list token)
  : option value :=
  match ts with
  | [] => match m with MDone v => Some v | _ => None end
  | t :: r =>
      match parse_step m stack t with
      | Some (m', stack') => parse_from m' stack' r
      | None => None
      end
  end.

(** [parse s] is the tree of [s] when [s] is a valid JSON text for the
    scanner ([checkValid] returns nil), and [None] otherwise. *)
Definition parse (s : string) : option value :=
  match lex s with
  | Some ts => parse_from MValue [] ts
  | None => None
  end.

(** [json.Valid]. *)
Definition Valid (s : string) : bool :=
  match parse s with Some _ => true | None => false end.

(** *** String literals *)

(** [getu4]: the code unit of a [\uXXXX] escape at the head of [s]. *)
Definition getu4 (s : string) : option Z :=
  match s with
  | String b (String u (String h1 (String h2 (String h3 (String h4 _))))) =>
      if (code b =? 92) && (code u =? 117)
         && is_hex h1 && is_hex h2 && is_hex h3 && is_hex h4
      then Some (((unhex h1 * 16 + unhex h2) * 16 + unhex h3) * 16 + unhex h4)
      else None
  | _ => None
  end.

(** [utf16.IsSurrogate] and [utf16.DecodeRune]. *)
Definition IsSurrogate (r : Z) : bool := (55296 <=? r) && (r <? 57344).

Definition utf16_DecodeRune (r1 r2 : Z) : Z :=
  if (55296 <=? r1) && (r1 <? 56320) && (56320 <=? r2) && (r2 <? 57344)
  then (r1 - 55296) * 1024 + (r2 - 56320) + 65536
  else utf8.RuneError.

(** A simple escape character and the byte it stands for. *)
Definition simple_escape (e : ascii) : option ascii :=
  let n := code e in
  if (n =? 34) || (n =? 92) || (n =? 47) then Some e
  else if n =? 98 then Some (chr 8)
  else if n =? 102 then Some (chr 12)
  else if n =? 110 then Some (chr 10)
  else if n =? 114 then Some (chr 13)
  else if n =? 116 then Some (chr 9)
  else None.

(** [unquoteBytes] on the bytes between the quotes.  One step reads the
    head of the string, writes its bytes and says how many further input
    bytes belong to it; [skip] counts those down.  Escapes are resolved,
    a surrogate pair of [\u] escapes is one rune, an unpaired surrogate
    and every byte that is not valid UTF-8 become U+FFFD. *)
Definition unquote_step (s : string) : option (list ascii * nat) :=
  match s with
  | EmptyString => Some ([], 0%nat)
  | String c r =>
      let n := code c in
      if n =? 92 then
        match r with
        | String e _ =>
            match simple_escape e with
            | Some x => Some ([x], 1%nat)
            | None =>
                if code e =? 117 then
                  match getu4 s with
                  | None => None
                  | Some rr =>
                      if IsSurrogate rr then
                        let dec :=
                          match getu4 (drop 6 s) with
                          | Some rr1 => utf16_DecodeRune rr rr1
                          | None => utf8.RuneError
                          end in
                        if dec =? utf8.RuneError
                        then Some (utf8.EncodeRune utf8.RuneError, 5%nat)
                        else Some (utf8.EncodeRune dec, 11%nat)
                      else Some (utf8.EncodeRune rr, 5%nat)
                  end
                else None
            end
        | EmptyString => None
        end
      else if (n =? 34) || (n <? 32) then None
      else if n <? utf8.RuneSelf then Some ([c], 0%nat)
      else
        let '(rr, size) := utf8.DecodeRune s in
        Some (utf8.EncodeRune rr, pred size)
  end.

Fixpoint unquote_from (skip : nat) (s : string) : option (list ascii) :=
  match s with
  | EmptyString => Some []
  | String _ r =>
      match skip with
      | S k => unquote_from k r
      | O =>
          match unquote_step s with
          | Some (out, k) =>
              match unquote_from k r with
              | Some more => Some (out ++ more)
              | None => None
              end
          | None => None
          end
      end
  end.

Definition unquote (raw : string) : option string :=
  option_map str (unquote_from 0 raw).

(** *** Decoding into Go values

    [decode v old] stores the JSON value [v] into a Go value that
    currently holds [old], as [decodeState.value] does; [None] stands
    for a non-nil error of [Unmarshal] (an [UnmarshalTypeError]).  The
    JSON [null] leaves the Go value as it is. *)
Class Unmarshaler (T : Type) : Type := decode : value -> T -> option T.

#[global] Instance Unmarshaler_string : Unmarshaler string :=
  fun v old =>
    match v with
    | String_ raw => unquote raw
    | Null => Some old
    | _ => None
    end.

#[global] Instance Unmarshaler_bool : Unmarshaler bool :=
  fun v old =>
    match v with
    | Bool b => Some b
    | Null => Some old
    | _ => None
    end.

#[global] Instance Unmarshaler_float64 : Unmarshaler float :=
  fun v old =>
    match v with
    | Number lit => strconv.ParseFloat lit
    | Null => Some old
    | _ => None
    end.

(** Field names are matched exactly, and failing that without regard to
    the case of ASCII letters.  (The names used here have no letter with
    a non-ASCII case variant.) *)
Definition fold_byte (c : ascii) : ascii :=
  if is_lower c then chr (code c - 32) else c.

Fixpoint equalFold (a b : string) : bool :=
  match a, b with
  | EmptyString, EmptyString => true
  | String x a', String y b' =>
      Ascii.eqb (fold_byte x) (fold_byte y) && equalFold a' b'
  | _, _ => false
  end.

Fixpoint index_of (p : string -> bool) (names : list string) (i : nat)
  : option nat :=
  match names with
  | [] => None
  | n :: r => if p n then Some i else index_of p r (S i)
  end.

Definition field_index (names : list string) (key : string) : option nat :=
  match index_of (String.eqb key) names 0 with
  | Some i => Some i
  | None => index_of (equalFold key) names 0
  end.

(** A struct is described by the JSON names of its fields and by
    [set i v old], which decodes [v] into field number [i].  Members of
    the object are stored in source order; unknown keys are skipped. *)
Fixpoint decode_members {T : Type} (names : list string)
    (set : nat -> value -> T -> option T)
    (ms : list (string * value)) (old : T) : option T :=
  match ms with
  | [] => Some old
  | (rawk, v) :: r =>
      match unquote rawk with
      | None => None
      | Some k =>
          match field_index names k with
          | Some i =>
              match set i v old with
              | Some new => decode_members names set r new
              | None => None
              end
          | None => decode_members names set r old
          end
      end
  end.

Definition decode_struct {T : Type} (names : list string)
    (set : nat -> value -> T -> option T) (v : value) (old : T) : option T :=
  match v with
  | Object ms => decode_members names set ms old
  | Null => Some old
  | _ => None
  end.

(** [json.Unmarshal(data, &v)] with [v] holding [old]: the new contents
    of [v], or [None] when the returned error is not nil (a syntax error
    of the whole text, found before anything is stored, or a value of
    the wrong JSON type). *)
Definition Unmarshal {T : Type} `{Unmarshaler T} (data : string) (old : T)
  : option T :=
  match parse data with
  | Some j => decode j old
  | None => None
  end.

(** *** Writing *)

(** [appendString] with [escapeHTML] set, as [Encoder.Encode] has it by
    default: the quote, the backslash and control bytes are escaped; the
    characters [<], [>] and [&] are written as a [u00] escape of their
    byte; the line and paragraph separators (runes 8232 and 8233) as the
    escapes [u2028] and [u2029]; and a byte that is not valid UTF-8 as
    the escape [ufffd] of the replacement rune. *)
Definition u00 (n : Z) : list ascii :=
  bytes "\u00" ++ [hex_lower (n / 16); hex_lower (n mod 16)].

Definition quote_step (s : string) : list ascii * nat :=
  match s with
  | EmptyString => ([], 0%nat)
  | String c _ =>
      let n := code c in
      if n <? utf8.RuneSelf then
        if (n =? 92) || (n =? 34) then ([chr 92; c], 0%nat)
        else if n =? 8 then (bytes "\b", 0%nat)
        else if n =? 12 then (bytes "\f", 0%nat)
        else if n =? 10 then (bytes "\n", 0%nat)
        else if n =? 13 then (bytes "\r", 0%nat)
        else if n =? 9 then (bytes "\t", 0%nat)
        else if (n <? 32) || (n =? 60) || (n =? 62) || (n =? 38) then (u00 n, 0%nat)
        else ([c], 0%nat)
      else
        let '(rr, size) := utf8.DecodeRune s in
        if (rr =? utf8.RuneError) && (size =? 1)%nat then (chr 92 :: bytes "ufffd", 0%nat)
        else if (rr =? 8232) || (rr =? 8233)
        then (bytes "\u202" ++ [hex_lower (rr mod 16)], pred size)
        else (bytes (take size s), pred size)
  end.

Fixpoint quote_from (skip : nat) (s : string) : list ascii :=
  match s with
  | EmptyString => []
  | String _ r =>
      match skip with
      | S k => quote_from k r
      | O => let '(out, k) := quote_step s in out ++ quote_from k r
      end
  end.

Definition appendString (s : string) : string :=
  String dquote (str (quote_from 0 s)) +++ String dquote EmptyString.

(** [Marshaler]: the JSON text of a Go value, [None] when encoding fails
    with an [UnsupportedValueError]. *)
Class Marshaler (T : Type) : Type := encode : T -> option string.

#[global] Instance Marshaler_string : Marshaler string :=
  fun s => Some (appendString s).

(** [floatEncoder]: NaN and the infinities are refused; the [e] format is
    used below [1e-6] and from [1e21], with [e-0X] shortened to [e-X]. *)
Definition clean_exponent (b : string) : string :=
  let n := String.length b in
  match drop (n - 4) b with
  | String e (String m (String z (String d EmptyString))) =>
      if (4 <=? n)%nat && (code e =? 101) && (code m =? 45) && (code z =? 48)
      then take (n - 2) b +++ String d EmptyString
      else b
  | _ => b
  end.

#[global] Instance Marshaler_float64 : Marshaler float :=
  fun f =>
    if PrimFloat.is_nan f || PrimFloat.is_infinity f then None
    else
      let a := PrimFloat.abs f in
      let efmt :=
        negb (PrimFloat.eqb a 0)
        && (PrimFloat.ltb a 1e-6 || PrimFloat.leb 1e21 a) in
      let b := strconv.FormatFloat f efmt in
      Some (if efmt then clean_exponent b else b).

End json.

(** ** [net/url] *)
Module url.

(** [shouldEscape(c, encodeQueryComponent)]: everything but letters,
    digits and [-], [_], [.], [~] is escaped. *)
Definition shouldEscape (c : ascii) : bool :=
  negb (is_lower c || is_upper c || is_digit c
        || (code c =? 45) || (code c =? 95) || (code c =? 46)
        || (code c =? 126)).

(** [url.QueryEscape]: a space becomes [+], an escaped byte becomes [%XX]
    with upper-case hexadecimal digits. *)
Fixpoint QueryEscape (s : string) : string :=
  match s with
  | EmptyString => EmptyString
  | String c r =>
      if code c =? 32 then String (chr 43) (QueryEscape r)
      else if shouldEscape c then
        String (chr 37)
          (String (hex_upper (code c / 16))
             (String (hex_upper (code c mod 16)) (QueryEscape r)))
      else String c (QueryEscape r)
  end.

(** [stringContainsCTLByte]. *)
Fixpoint stringContainsCTLByte (s : string) : bool :=
  match s with
  | EmptyString => false
  | String c r => (code c <? 32) || (code c =? 127) || stringContainsCTLByte r
  end.

(** [strings.Cut(s, "#")]: the text before the first [#], and the text
    after it when there is one. *)
Fixpoint cut_fragment (s : string) : string * option string :=
  match s with
  | EmptyString => (EmptyString, None)
  | String c r =>
      if code c =? 35 then (EmptyString, Some r)
      else let '(u, f) := cut_fragment r in (String c u, f)
  end.

(** Every [%] is followed by two hexadecimal digits ([unescape] returns
    no [EscapeError]). *)
Fixpoint valid_escapes (s : string) : bool :=
  match s with
  | EmptyString => true
  | String c r =>
      if code c =? 37 then
        match r with
        | String h1 (String h2 _) => is_hex h1 && is_hex h2 && valid_escapes r
        | _ => false
        end
      else valid_escapes r
  end.

(** Whether [url.Parse] returns a nil error, for a raw URL that begins
    with a scheme, a plain host name and a path, as both URLs of the
    handler do up to their first [?]: such a URL is refused only for a
    control byte before the fragment or a malformed escape inside the
    fragment. *)
Definition Parse_ok (rawURL : string) : bool :=
  let '(u, frag) := cut_fragment rawURL in
  negb (stringContainsCTLByte u)
  && match frag with Some f => valid_escapes f | None => true end.

End url.

(** ** [regexp] *)
Module regexp.

(** [n] repetitions of the class [[0-9]] at the head of [s]; the rest of
    [s] after them. *)
Fixpoint digits (n : nat) (s : string) : option string :=
  match n with
  | O => Some s
  | S k =>
      match s with
      | String c r => if is_digit c then digits k r else None
      | EmptyString => None
      end
  end.

(** [regexp.MustCompile("^[0-9]{8}$").MatchString]: the pattern is
    anchored at both ends of the text ([$] without the [m] flag matches
    at the end of the text only), so a match is the whole string. *)
Definition MatchString (s : string) : bool :=
  match digits 8 s with
  | Some EmptyString => true
  | _ => false
  end.

End regexp.

(** ** Data of [main.go] *)

Record ViaCEPResponse : Type := {
  Localidade : string;
  Erro : bool }.

Record Current_ : Type := { TempC_ : float }.

Record WeatherAPIResponse : Type := { Current : Current_ }.

Record TempResponse : Type := {
  City : string;
  TempC : float;
  TempF : float;
  TempK : float }.

(** [config.Config] and [app]. *)
Record Config : Type := {
  WeatherAPIKey : string;
  ServerPort : string }.

(** An [app] with its configuration, as [main] builds it (line 209).  The
    field [cfg] of the source is a pointer; the handler takes it as an
    [option Config], in which [None] is the nil pointer of [&app{}]. *)
Record app : Type := { cfg : Config }.

(** The zero values [var viaCepData ViaCEPResponse] and
    [var weatherData WeatherAPIResponse]. *)
Definition zero_ViaCEPResponse : ViaCEPResponse :=
  {| Localidade := ""; Erro := false |}.
Definition zero_WeatherAPIResponse : WeatherAPIResponse :=
  {| Current := {| TempC_ := 0%float |} |}.

(** The struct tags: [json:"localidade"], [json:"erro"]; [json:"current"];
    [json:"temp_c"]. *)
#[global] Instance Unmarshaler_ViaCEPResponse : json.Unmarshaler ViaCEPResponse :=
  json.decode_struct ["localidade"; "erro"]
    (fun i v old =>
       match i with
       | O => option_map (fun s => {| Localidade := s; Erro := Erro old |})
                (json.decode v (Localidade old))
       | _ => option_map (fun b => {| Localidade := Localidade old; Erro := b |})
                (json.decode v (Erro old))
       end).

#[global] Instance Unmarshaler_Current : json.Unmarshaler Current_ :=
  json.decode_struct ["temp_c"]
    (fun _ v old =>
       option_map (fun f => {| TempC_ := f |}) (json.decode v (TempC_ old))).

#[global] Instance Unmarshaler_WeatherAPIResponse
  : json.Unmarshaler WeatherAPIResponse :=
  json.decode_struct ["current"]
    (fun _ v old =>
       option_map (fun c => {| Current := c |}) (json.decode v (Current old))).

(** [TempResponse] is written with the keys [city], [temp_C], [temp_F],
    [temp_K], in the order of the fields. *)
Definition obind {A B : Type} (o : option A) (f : A -> option B) : option B :=
  match o with Some a => f a | None => None end.

#[global] Instance Marshaler_TempResponse : json.Marshaler TempResponse :=
  fun r =>
    obind (json.encode (City r)) (fun c =>
    obind (json.encode (TempC r)) (fun tc =>
    obind (json.encode (TempF r)) (fun tf =>
    obind (json.encode (TempK r)) (fun tk =>
      Some (q "{'city':" +++ c +++ q ",'temp_C':" +++ tc
            +++ q ",'temp_F':" +++ tf +++ q ",'temp_K':" +++ tk +++ "}"))))).

(** ** [net/http]: the response writer and the outbound client *)
Module http.

Definition StatusOK : Z := 200.
Definition StatusNotFound : Z := 404.
Definition StatusUnprocessableEntity : Z := 422.
Definition StatusInternalServerError : Z := 500.

(** What a [ResponseWriter] has been given: the header map, the status
    code once it is written, and the body bytes. *)
Record ResponseWriter : Type := {
  Header : list (string * string);
  Code : option Z;
  Body : string }.

Definition NewRecorder : ResponseWriter :=
  {| Header := []; Code := None; Body := "" |}.

Definition Header_Del (k : string) (w : ResponseWriter) : ResponseWriter :=
  {| Header := filter (fun kv => negb (String.eqb (fst kv) k)) (Header w);
     Code := Code w; Body := Body w |}.

Definition Header_Set (k v : string) (w : ResponseWriter) : ResponseWriter :=
  {| Header := filter (fun kv => negb (String.eqb (fst kv) k)) (Header w)
               ++ [(k, v)];
     Code := Code w; Body := Body w |}.

(** [WriteHeader]: only the first call sets the status. *)
Definition WriteHeader (c : Z) (w : ResponseWriter) : ResponseWriter :=
  {| Header := Header w;
     Code := match Code w with Some c0 => Some c0 | None => Some c end;
     Body := Body w |}.

(** [Write]: writes the status 200 first when none was written. *)
Definition Write (s : string) (w : ResponseWriter) : ResponseWriter :=
  {| Header := Header w;
     Code := match Code w with Some c0 => Some c0 | None => Some StatusOK end;
     Body := Body w +++ s |}.

(** The line feed that [fmt.Fprintln] appends. *)
Definition newline : string := String (chr 10) EmptyString.

(** [http.Error(w, error, code)]. *)
Definition Error (error : string) (c : Z) (w : ResponseWriter)
  : ResponseWriter :=
  Write (error +++ newline)
    (WriteHeader c
       (Header_Set "X-Content-Type-Options" "nosniff"
          (Header_Set "Content-Type" "text/plain; charset=utf-8"
             (Header_Del "Content-Length" w)))).

(** A response of [http.DefaultClient.Do].  [RespBody] is what
    [io.ReadAll(resp.Body)] yields; the handler drops the error of
    [io.ReadAll], so a body cut short is just a shorter [RespBody]. *)
Record Response : Type := {
  StatusCode : Z;
  RespBody : string }.

(** The two results of [Do]: an error and no response, or a response. *)
Inductive DoResult : Type :=
| DoErr (err : string)
| DoOk (resp : Response).

(** The network as one request sees it: the result of a round trip to
    each URL.  (The handler makes at most one call to each of two
    different hosts.) *)
Definition Transport : Type := string -> DoResult.

End http.

(** ** Tracing, logging and the handler's control flow *)

(** A [context.Context] as far as tracing goes: the names of the spans
    around it, innermost first. *)
Definition Context : Type := list string.

Record Span : Type := { span_name : string; span_parent : Context }.

(** The incoming request: [r.URL.Path] and [r.Context()]. *)
Record Request : Type := {
  URL_Path : string;
  Request_Context : Context }.

(** An outbound request built by [http.NewRequestWithContext]. *)
Record OutRequest : Type := {
  out_ctx : Context;
  out_method : string;
  out_url : string }.

Inductive arg : Type :=
| AStr (s : string)
| AErr (err : string)          (* the error of a round trip *)
| AJSONErr                     (* the error of encoding/json *)
| AResp (r : TempResponse).

(** What the handler does to the outside, in order. *)
Inductive event : Type :=
| SpanStart (name : string) (parent : Context)   (* tracer.Start *)
| SpanEnd (name : string)                        (* span.End *)
| Log (format : string) (args : list arg)        (* log.Printf *)
| Do (req : OutRequest)                          (* http.DefaultClient.Do *)
| BodyClose (url : string).                      (* resp.Body.Close *)

Inductive deferred : Type :=
| DSpanEnd (s : Span)
| DBodyClose (url : string).

Record world : Type := {
  trace : list event;
  w : http.ResponseWriter;
  defers : list deferred }.

(** How a piece of the handler ends: it falls through with a value, it
    executes [return], or it panics. *)
Inductive result (A : Type) : Type :=
| Next (a : A)
| Returned
| Panicked.
Arguments Next {A} a.
Arguments Returned {A}.
Arguments Panicked {A}.

Definition M (A : Type) : Type := world -> result A * world.

Definition ret {A : Type} (a : A) : M A := fun s => (Next a, s).

Definition bind {A B : Type} (m : M A) (k : A -> M B) : M B :=
  fun s =>
    match m s with
    | (Next a, s') => k a s'
    | (Returned, s') => (Returned, s')
    | (Panicked, s') => (Panicked, s')
    end.

Notation "x <- m ;; k" := (bind m (fun x => k))
  (at level 61, m at next level, right associativity).
Notation "' p <- m ;; k" := (bind m (fun x => let p := x in k))
  (at level 61, p pattern, m at next level, right associativity).
Notation "m ;; k" := (bind m (fun _ => k))
  (at level 61, right associativity).

Definition return_ {A : Type} : M A := fun s => (Returned, s).
Definition panic {A : Type} : M A := fun s => (Panicked, s).

Definition emit (e : event) : M unit :=
  fun s => (Next tt, {| trace := trace s ++ [e]; w := w s; defers := defers s |}).

Definition defer (d : deferred) : M unit :=
  fun s => (Next tt, {| trace := trace s; w := w s; defers := d :: defers s |}).

Definition respond (f : http.ResponseWriter -> http.ResponseWriter) : M unit :=
  fun s => (Next tt, {| trace := trace s; w := f (w s); defers := defers s |}).

(** [tracer.Start(ctx, name)]: a new span whose parent is the span of
    [ctx], and the context that carries the new span. *)
Definition tracer_Start (ctx : Context) (name : string) : M (Context * Span) :=
  emit (SpanStart name ctx) ;;
  ret (name :: ctx, {| span_name := name; span_parent := ctx |}).

Definition span_End (s : Span) : M unit := emit (SpanEnd (span_name s)).

Definition log_Printf (format : string) (args : list arg) : M unit :=
  emit (Log format args).

(** [http.NewRequestWithContext(ctx, "GET", url, nil)]: nil when the URL
    does not parse. *)
Definition NewRequestWithContext (ctx : Context) (method url : string)
  : option OutRequest :=
  if url.Parse_ok url
  then Some {| out_ctx := ctx; out_method := method; out_url := url |}
  else None.

(** [http.DefaultClient.Do(req)]: one round trip; a nil request panics
    (nil pointer dereference) before anything is sent. *)
Definition DefaultClient_Do (net : http.Transport) (req : option OutRequest)
  : M http.DoResult :=
  match req with
  | Some rq => emit (Do rq) ;; ret (net (out_url rq))
  | None => panic
  end.

(** [json.NewEncoder(w).Encode(v)]: the JSON text and a line feed are
    written in one [Write]; on an encoding error nothing is written and
    the error is returned ([false]). *)
Definition Encoder_Encode {T : Type} `{json.Marshaler T} (v : T) : M bool :=
  match json.encode v with
  | Some text => respond (http.Write (text +++ http.newline)) ;; ret true
  | None => ret false
  end.

(** [p.f] for a pointer [p]: a nil pointer dereference panics. *)
Definition deref {A : Type} (p : option A) : M A :=
  match p with
  | Some x => ret x
  | None => panic
  end.

(** [s[1:]]: panics on the empty string. *)
Definition slice_from_1 (s : string) : M string :=
  match s with
  | String _ r => ret r
  | EmptyString => panic
  end.

(** ** The handler *)

(** [fmt.Sprintf("https://viacep.com.br/ws/%s/json/", cep)]. *)
Definition viaCepURL (cep : string) : string :=
  "https://viacep.com.br/ws/" +++ cep +++ "/json/".

(** [fmt.Sprintf("http://api.weatherapi.com/v1/current.json?key=%s&q=%s",
    weatherAPIKey, escapedCity)]. *)
Definition weatherURL (weatherAPIKey escapedCity : string) : string :=
  "http://api.weatherapi.com/v1/current.json?key=" +++ weatherAPIKey
  +++ "&q=" +++ escapedCity.

(** The three assignments [tempC := weatherData.Current.TempC],
    [tempF := tempC*1.8 + 32], [tempK := tempC + 273] and the composite
    literal that follows them.  The product and the sum are each rounded to
    [float64] (no fused multiply-add, as on amd64). *)
Definition convert (city : string) (tempC : float) : TempResponse :=
  let tempF := (tempC * 1.8 + 32)%float in
  let tempK := (tempC + 273)%float in
  {| City := city; TempC := tempC; TempF := tempF; TempK := tempK |}.

(** [func (a *app) handler(w http.ResponseWriter, r *http.Request)], line
    by line.  The response writer is part of the state; [a_cfg] is the
    pointer [a.cfg], which the handler reads on line 141 only. *)
Definition handler_body (net : http.Transport) (a_cfg : option Config)
    (r : Request) : M unit :=
  let ctx := Request_Context r in
  ' (ctx, span) <- tracer_Start ctx "orchestration-handler" ;;
  defer (DSpanEnd span) ;;
  cep <- slice_from_1 (URL_Path r) ;;
  log_Printf "Received request for CEP: %s" [AStr cep] ;;
  if negb (regexp.MatchString cep) then
    log_Printf "Invalid zipcode format: %s" [AStr cep] ;;
    respond (http.Error "invalid zipcode" http.StatusUnprocessableEntity) ;;
    return_
  else
  let viaCepURL := viaCepURL cep in
  ' (ctx, viaCepSpan) <- tracer_Start ctx "call-viacep-api" ;;
  let req := NewRequestWithContext ctx "GET" viaCepURL in
  res <- DefaultClient_Do net req ;;
  span_End viaCepSpan ;;
  match res with
  | http.DoErr err =>
      log_Printf "Error fetching from ViaCEP: %v" [AErr err] ;;
      respond (http.Error "error fetching from ViaCEP"
                 http.StatusInternalServerError) ;;
      return_
  | http.DoOk resp =>
  defer (DBodyClose viaCepURL) ;;
  let body := http.RespBody resp in
  match json.Unmarshal body zero_ViaCEPResponse with
  | None =>
      log_Printf "Error unmarshalling ViaCEP response: %v" [AJSONErr] ;;
      respond (http.Error "error unmarshalling ViaCEP response"
                 http.StatusInternalServerError) ;;
      return_
  | Some viaCepData =>
  if Erro viaCepData || String.eqb (Localidade viaCepData) "" then
    log_Printf "CEP not found or missing localidade: %s" [AStr cep] ;;
    respond (http.Error "can not find zipcode" http.StatusNotFound) ;;
    return_
  else
  let escapedCity := url.QueryEscape (Localidade viaCepData) in
  a_cfg <- deref a_cfg ;;
  let weatherAPIKey := WeatherAPIKey a_cfg in
  let weatherURL := weatherURL weatherAPIKey escapedCity in
  ' (ctx, weatherSpan) <- tracer_Start ctx "call-weather-api" ;;
  let req := NewRequestWithContext ctx "GET" weatherURL in
  res <- DefaultClient_Do net req ;;
  span_End weatherSpan ;;
  match res with
  | http.DoErr err =>
      log_Printf "Error fetching from WeatherAPI: %v" [AErr err] ;;
      respond (http.Error "error fetching from WeatherAPI"
                 http.StatusInternalServerError) ;;
      return_
  | http.DoOk resp =>
  defer (DBodyClose weatherURL) ;;
  let body := http.RespBody resp in
  match json.Unmarshal body zero_WeatherAPIResponse with
  | None =>
      log_Printf "Error unmarshalling WeatherAPI response: %v" [AJSONErr] ;;
      respond (http.Error "error unmarshalling WeatherAPI response"
                 http.StatusInternalServerError) ;;
      return_
  | Some weatherData =>
  let response := convert (Localidade viaCepData) (TempC_ (Current weatherData)) in
  log_Printf "Response for CEP %s: %+v" [AStr cep; AResp response] ;;
  respond (http.Header_Set "Content-Type" "application/json") ;;
  respond (http.WriteHeader http.StatusOK) ;;
  ok <- Encoder_Encode response ;;
  if ok then ret tt
  else log_Printf "Error encoding response: %v" [AJSONErr]
  end end end end.

(** Deferred calls run last in, first out, when the function ends, also
    when it ends by a panic. *)
Definition run_deferred (d : deferred) : event :=
  match d with
  | DSpanEnd s => SpanEnd (span_name s)
  | DBodyClose u => BodyClose u
  end.

(** One request from start to end. *)
Record served : Type := {
  panicked : bool;
  events : list event;
  response : http.ResponseWriter }.

Definition handler_of (net : http.Transport) (a_cfg : option Config)
    (r : Request) : served :=
  let '(res, s) :=
    handler_body net a_cfg r
      {| trace := []; w := http.NewRecorder; defers := [] |} in
  {| panicked := match res with Panicked => true | _ => false end;
     events := trace s ++ map run_deferred (defers s);
     response := w s |}.

(** The handler of an [app] that has its configuration. *)
Definition handler (net : http.Transport) (a : app) (r : Request) : served :=
  handler_of net (Some (cfg a)) r.

(** ** Observations on a served request *)

Definition status (s : served) : option Z := http.Code (response s).
Definition body (s : served) : string := http.Body (response s).

(** The outbound calls of a trace, in order. *)
Definition calls (evs : list event) : list OutRequest :=
  flat_map (fun e => match e with Do rq => [rq] | _ => [] end) evs.

Definition urls_called (s : served) : list string :=
  map out_url (calls (events s)).

(** How often a span of a given name is started and ended in a trace. *)
Definition started (name : string) (evs : list event) : nat :=
  List.length
    (filter (fun e => match e with
                      | SpanStart n _ => String.eqb n name
                      | _ => false
                      end) evs).

Definition ended (name : string) (evs : list event) : nat :=
  List.length
    (filter (fun e => match e with
                      | SpanEnd n => String.eqb n name
                      | _ => false
                      end) evs).

(** The postal code of a request: [r.URL.Path[1:]], when the path is not
    empty. *)
Definition cep_of (r : Request) : option string :=
  match URL_Path r with
  | String _ cep => Some cep
  | EmptyString => None
  end.

(** The validity rule in the words of the specification: exactly eight
    characters, all of them ASCII digits. *)
Definition eight_ascii_digits (s : string) : bool :=
  (String.length s =? 8)%nat && forallb is_digit (bytes s).

(** The request passed validation with the postal code [cep]. *)
Definition validated (r : Request) (cep : string) : Prop :=
  cep_of r = Some cep /\ regexp.MatchString cep = true.

(** The geocode call for [cep] returned a response whose body decodes to
    [d]. *)
Definition geocoded (net : http.Transport) (cep : string) (d : ViaCEPResponse)
  : Prop :=
  exists resp,
    net (viaCepURL cep) = http.DoOk resp
    /\ json.Unmarshal (http.RespBody resp) zero_ViaCEPResponse = Some d.

(** The test of line 132 fails: the postal code was found. *)
Definition located (d : ViaCEPResponse) : Prop :=
  Erro d = false /\ Localidade d <> "".

(** The URL of the weather call for a decoded geocode answer. *)
Definition weather_url (a : app) (d : ViaCEPResponse) : string :=
  weatherURL (WeatherAPIKey (cfg a)) (url.QueryEscape (Localidade d)).

(** The weather call for [d] was made and returned a response with the
    body [wb]. *)
Definition weather_answered (net : http.Transport) (a : app)
    (d : ViaCEPResponse) (wb : string) : Prop :=
  url.Parse_ok (weather_url a d) = true
  /\ exists resp, net (weather_url a d) = http.DoOk resp
                  /\ http.RespBody resp = wb.

(** A text is one line: it ends with its only line feed. *)
Fixpoint one_line (s : string) : bool :=
  match s with
  | EmptyString => false
  | String c r =>
      if code c =? 10 then match r with EmptyString => true | _ => false end
      else one_line r
  end.

(** A string free of control bytes and of the fragment sign. *)
Definition plain (s : string) : bool :=
  forallb (fun c => negb ((code c <? 32) || (code c =? 127) || (code c =? 35)))
    (bytes s).

(** ** Scenarios

    Vocabulary for the statements below: the failures of the two stages,
    the shapes of a weather body, and a few concrete networks and
    requests. *)

Inductive stage : Type := Geocode | Weather.
Inductive failure_kind : Type := Transport | Decode.

(** The four messages of lines 120, 129, 152 and 161. *)
Definition failure_line (st : stage) (k : failure_kind) : string :=
  match st, k with
  | Geocode, Transport => "error fetching from ViaCEP"
  | Geocode, Decode => "error unmarshalling ViaCEP response"
  | Weather, Transport => "error fetching from WeatherAPI"
  | Weather, Decode => "error unmarshalling WeatherAPI response"
  end.

(** The formats of the log lines of lines 119, 128, 151 and 160. *)
Definition failure_log (st : stage) (k : failure_kind) : string :=
  match st, k with
  | Geocode, Transport => "Error fetching from ViaCEP: %v"
  | Geocode, Decode => "Error unmarshalling ViaCEP response: %v"
  | Weather, Transport => "Error fetching from WeatherAPI: %v"
  | Weather, Decode => "Error unmarshalling WeatherAPI response: %v"
  end.

(** A transport error or a body that does not decode, at either stage. *)
Inductive fails (net : http.Transport) (a : app) (r : Request)
  : stage -> failure_kind -> Prop :=
| geocode_transport (cep err : string) :
    validated r cep ->
    net (viaCepURL cep) = http.DoErr err ->
    fails net a r Geocode Transport
| geocode_decode (cep : string) (resp : http.Response) :
    validated r cep ->
    net (viaCepURL cep) = http.DoOk resp ->
    json.Unmarshal (http.RespBody resp) zero_ViaCEPResponse = None ->
    fails net a r Geocode Decode
| weather_transport (cep err : string) (d : ViaCEPResponse) :
    validated r cep -> geocoded net cep d -> located d ->
    url.Parse_ok (weather_url a d) = true ->
    net (weather_url a d) = http.DoErr err ->
    fails net a r Weather Transport
| weather_decode (cep wb : string) (d : ViaCEPResponse) :
    validated r cep -> geocoded net cep d -> located d ->
    weather_answered net a d wb ->
    json.Unmarshal wb zero_WeatherAPIResponse = None ->
    fails net a r Weather Decode.

(** A network whose geocode provider answers and whose weather provider
    cannot be reached. *)
Definition net_weather_down (vbody : string) : http.Transport :=
  fun u =>
    if HasPrefix u "https://viacep.com.br/"
    then http.DoOk {| http.StatusCode := 200; http.RespBody := vbody |}
    else http.DoErr "connection refused".

(** The key [raw] of a member names the field [name]: unquoted, it is
    [name] exactly or up to the case of ASCII letters. *)
Definition names_field (name raw : string) : bool :=
  match json.unquote raw with
  | Some k =>
      match json.field_index [name] k with
      | Some _ => true
      | None => false
      end
  | None => false
  end.

Definition is_null (j : json.value) : bool :=
  match j with json.Null => true | _ => false end.

(** A JSON value with no temperature in it: [null], or an object in which
    every member named [temp_c] is [null]. *)
Definition lacks_temp_c (j : json.value) : bool :=
  match j with
  | json.Null => true
  | json.Object ms =>
      forallb (fun kv => negb (names_field "temp_c" (fst kv))
                         || is_null (snd kv)) ms
  | _ => false
  end.

(** A well-formed body that lacks the expected shape: [null], or an object
    in which every member named [current] is a value with no temperature
    in it.  The empty object is the simplest case. *)
Definition lacks_reading (j : json.value) : bool :=
  match j with
  | json.Null => true
  | json.Object ms =>
      forallb (fun kv => negb (names_field "current" (fst kv))
                         || lacks_temp_c (snd kv)) ms
  | _ => false
  end.

(** A member [temp_c] of the wrong type: neither [null] nor a number that
    [strconv.ParseFloat] accepts (a number beyond the range of [float64]
    is refused). *)
Definition mistyped_temp_c (j : json.value) : bool :=
  match j with
  | json.Null => false
  | json.Number lit =>
      match strconv.ParseFloat lit with Some _ => false | None => true end
  | _ => true
  end.

(** A member [current] of the wrong type: neither [null] nor an object, or
    an object with a member [temp_c] of the wrong type. *)
Definition mistyped_current (j : json.value) : bool :=
  match j with
  | json.Null => false
  | json.Object ms =>
      existsb (fun kv => names_field "temp_c" (fst kv)
                         && mistyped_temp_c (snd kv)) ms
  | _ => true
  end.

(** A weather body of the wrong type: neither [null] nor an object, or an
    object with a member [current] of the wrong type. *)
Definition mistyped_reading (j : json.value) : bool :=
  match j with
  | json.Null => false
  | json.Object ms =>
      existsb (fun kv => names_field "current" (fst kv)
                         && mistyped_current (snd kv)) ms
  | _ => true
  end.


Definition net_down : http.Transport := fun _ => http.DoErr "connection refused".

Definition app_test : app :=
  {| cfg := {| WeatherAPIKey := "test-key"; ServerPort := ":8081" |} |}.

Definition request (path : string) : Request :=
  {| URL_Path := path; Request_Context := [] |}.

(** A network whose geocode provider answers with [vbody] and whose
    weather provider answers with [wbody], both with status 200. *)
Definition net_of (vbody wbody : string) : http.Transport :=
  fun u =>
    http.DoOk {| http.StatusCode := 200;
                 http.RespBody := if HasPrefix u "https://viacep.com.br/"
                                  then vbody else wbody |}.

Definition body_sao_paulo : string := q "{'localidade': 'São Paulo'}".
Definition body_25 : string := q "{'current': {'temp_c': 25.0}}".

(** A network that answers the URLs of [urls] as [net] does, and cannot be
    reached at any other URL. *)
Definition only_at (urls : list string) (net : http.Transport)
  : http.Transport :=
  fun u =>
    if existsb (String.eqb u) urls then net u
    else http.DoErr "no route to host".

(** A second issue of the request for [path]: it comes with a trace
    context of its own. *)
Definition request_again (path : string) : Request :=
  {| URL_Path := path; Request_Context := ["service-b-orchestration"] |}.

(** The application of the tests on another port. *)
Definition app_test_9090 : app :=
  {| cfg := {| WeatherAPIKey := "test-key"; ServerPort := ":9090" |} |}.

(** A network that differs from [net] only in the status codes of its
    responses. *)
Definition with_status (f : string -> Z) (net : http.Transport)
  : http.Transport :=
  fun u =>
    match net u with
    | http.DoOk resp =>
        http.DoOk {| http.StatusCode := f u;
                     http.RespBody := http.RespBody resp |}
    | http.DoErr e => http.DoErr e
    end.



Definition body_1e308 : string := q "{'current': {'temp_c': 1e308}}".


(** ** String literals of a parsed text *)

(** The scanner inside a string literal, without the bytes it has read:
    in the literal, after a backslash, or with [n] hexadecimal digits of a
    [u] escape still to come. *)
Inductive sstate : Type := SStr | SEsc | SHex (n : nat).

Definition sstep (st : sstate) (c : ascii) : option sstate :=
  match st with
  | SStr =>
      if code c =? 34 then None
      else if code c =? 92 then Some SEsc
      else if code c <? 32 then None
      else Some SStr
  | SEsc =>
      match json.simple_escape c with
      | Some _ => Some SStr
      | None => if code c =? 117 then Some (SHex 4) else None
      end
  | SHex n =>
      if is_hex c then
        match n with
        | S (S k) => Some (SHex (S k))
        | _ => Some SStr
        end
      else None
  end.

Fixpoint srun (st : sstate) (s : list ascii) : option sstate :=
  match s with
  | [] => Some st
  | c :: r =>
      match sstep st c with
      | Some st' => srun st' r
      | None => None
      end
  end.

(** [raw] can stand between the quotes of a string literal. *)
Definition literal_ok (raw : string) : bool :=
  match srun SStr (bytes raw) with
  | Some SStr => true
  | _ => false
  end.

(** Every string and every key of a JSON tree can stand between quotes. *)
Fixpoint well_lexed (j : json.value) : bool :=
  match j with
  | json.String_ raw => literal_ok raw
  | json.Array l => forallb well_lexed l
  | json.Object ms =>
      forallb (fun kv => literal_ok (fst kv) && well_lexed (snd kv)) ms
  | _ => true
  end.

Definition token_ok (t : json.token) : bool :=
  match t with
  | json.TString raw => literal_ok raw
  | _ => true
  end.

(** The bytes a lexer state has read of a string literal lead the string
    automaton to the state of the same name. *)
Definition lex_inv (st : json.lexstate) : Prop :=
  match st with
  | json.LStr acc => srun SStr (rev acc) = Some SStr
  | json.LEsc acc => srun SStr (rev acc) = Some SEsc
  | json.LHex n acc => srun SStr (rev acc) = Some (SHex n)
  | json.LLit _ t => token_ok t = true
  | _ => True
  end.

Definition member_ok (kv : string * json.value) : bool :=
  literal_ok (fst kv) && well_lexed (snd kv).

Definition frame_ok (f : json.frame) : bool :=
  match f with
  | json.FArr done => forallb well_lexed done
  | json.FObj done key =>
      forallb member_ok done
      && match key with Some k => literal_ok k | None => true end
  end.

Definition mode_ok (m : json.mode) : bool :=
  match m with
  | json.MDone v => well_lexed v
  | _ => true
  end.


(** ** Names written the same in JSON and in Go *)

(** The head of [s] is a character that a JSON string literal holds as it
    is, and that the encoder writes as it is: a printable ASCII byte other
    than the quote, the backslash, [<], [>] and [&], or a valid UTF-8
    encoding of a rune other than U+2028 and U+2029.  The result is the
    number of further bytes of the character. *)
Definition verbatim_step (s : string) : option nat :=
  match s with
  | EmptyString => Some 0%nat
  | String c _ =>
      let n := code c in
      if n <? utf8.RuneSelf then
        if (n <? 32) || (n =? 34) || (n =? 92)
           || (n =? 60) || (n =? 62) || (n =? 38)
        then None else Some 0%nat
      else
        let '(rr, size) := utf8.DecodeRune s in
        if (rr =? utf8.RuneError) && (size =? 1)%nat then None
        else if (rr =? 8232) || (rr =? 8233) then None
        else Some (pred size)
  end.

Fixpoint verbatim_from (skip : nat) (s : string) : bool :=
  match s with
  | EmptyString => true
  | String _ r =>
      match skip with
      | S k => verbatim_from k r
      | O =>
          match verbatim_step s with
          | Some k => verbatim_from k r
          | None => false
          end
      end
  end.

(** A name in any case and with any diacritics, in UTF-8, with none of the
    few characters that JSON escapes. *)
Definition verbatim (s : string) : bool := verbatim_from 0 s.

(** The body of a geocode answer that names a locality. *)
Definition locality_body (name : string) : string :=
  q "{'localidade': '" +++ name +++ q "'}".

(** [s] between double quotes. *)
Definition quoted (s : string) : string :=
  String dquote (s +++ String dquote EmptyString).

(** A byte that the scanner accepts inside a string literal as part of
    the literal. *)
Definition literal_byte (c : ascii) : bool :=
  negb ((code c =? 34) || (code c =? 92) || (code c <? 32)).

(** The lexer run over a prefix of the input: the state it is left in and
    the tokens it has emitted. *)
Fixpoint lex_run (st : json.lexstate) (s : string)
  : option (json.lexstate * list json.token) :=
  match s with
  | EmptyString => Some (st, [])
  | String c r =>
      match json.lex_step st c with
      | Some (st', toks) =>
          match lex_run st' r with
          | Some (st'', more) => Some (st'', toks ++ more)
          | None => None
          end
      | None => None
      end
  end.

(** ** Valid UTF-8 *)

(** The head of [s] is a well-formed UTF-8 encoding; the result is the
    number of further bytes it takes. *)
Definition valid_step (s : string) : option nat :=
  match s with
  | EmptyString => Some 0%nat
  | String c _ =>
      if code c <? utf8.RuneSelf then Some 0%nat
      else
        let '(rr, size) := utf8.DecodeRune s in
        if (rr =? utf8.RuneError) && (size =? 1)%nat then None
        else Some (pred size)
  end.

Fixpoint valid_from (skip : nat) (s : string) : bool :=
  match s with
  | EmptyString => true
  | String _ r =>
      match skip with
      | S k => valid_from k r
      | O =>
          match valid_step s with
          | Some k => valid_from k r
          | None => false
          end
      end
  end.

(** [utf8.ValidString]. *)
Definition ValidString (s : string) : bool := valid_from 0 s.

(** The lexer state that has read [acc] of a string literal and is in the
    state [st] of the string automaton. *)
Definition lex_state_of (st : sstate) (acc : list ascii) : json.lexstate :=
  match st with
  | SStr => json.LStr acc
  | SEsc => json.LEsc acc
  | SHex n => json.LHex n acc
  end.

(** A name with characters that the encoder escapes: quotes, angle
    brackets, an ampersand, a backslash, a tab and the line separator
    U+2028, beside a letter with a diacritic. *)
Definition escaped_name : string :=
  q "'São' <Paulo> & \" +++ str [chr 9; chr 226; chr 128; chr 168].


(** ** The API key and the query component of the weather URL *)

(** A key with which the weather URL can be built: no control byte before
    its first [#], and after that [#] every [%] followed by two
    hexadecimal digits. *)
Definition usable_key (k : string) : bool :=
  let '(before, after) := url.cut_fragment k in
  negb (url.stringContainsCTLByte before)
  && match after with Some f => url.valid_escapes f | None => true end.

(** The bytes that [url.QueryEscape] writes: letters, digits, the four
    marks [-], [_], [.], [~], the plus sign and the percent sign. *)
Definition query_byte (c : ascii) : bool :=
  is_lower c || is_upper c || is_digit c
  || (code c =? 45) || (code c =? 95) || (code c =? 46) || (code c =? 126)
  || (code c =? 43) || (code c =? 37).

(** ** [encoding/json]: the stream decoder *)
Module Decoder.

(** The tokens of one lexer step given to the parser. *)
Fixpoint feed (m : json.mode) (stack : list json.frame)
    (ts : list json.token) : option (json.mode * list json.frame) :=
  match ts with
  | [] => Some (m, stack)
  | t :: r =>
      match json.parse_step m stack t with
      | Some (m', stack') => feed m' stack' r
      | None => None
      end
  end.

(** The scanner is inside a number that is complete as it stands and that
    is the whole top-level value: the next byte that is not part of the
    number, or the end of the input, ends the value. *)
Definition top_number (st : json.lexstate) (m : json.mode)
    (stack : list json.frame) : bool :=
  match st with
  | json.LNum ns acc =>
      json.num_final ns
      && match json.parse_step m stack (json.TNumber (str (rev acc))) with
         | Some (json.MDone _, _) => true
         | _ => false
         end
  | _ => false
  end.

Definition continues (st : json.lexstate) (c : ascii) : bool :=
  match st with
  | json.LNum ns _ =>
      match json.num_next ns c with Some _ => true | None => false end
  | _ => false
  end.

(** [Decoder.readValue]: the number of bytes of the first JSON value of
    the stream, leading white space included.  The scan stops at the byte
    that closes the top-level value; what follows is not looked at.
    [None] stands for an error: a syntax error inside the value, or the end
    of the stream before the value is complete ([io.EOF] when nothing but
    white space was read, [io.ErrUnexpectedEOF] otherwise). *)
Fixpoint readValue_from (st : json.lexstate) (m : json.mode)
    (stack : list json.frame) (s : string) (n : nat) : option nat :=
  match s with
  | EmptyString => if top_number st m stack then Some n else None
  | String c r =>
      if top_number st m stack && negb (continues st c) then Some n
      else
        match json.lex_step st c with
        | None => None
        | Some (st', toks) =>
            match feed m stack toks with
            | None => None
            | Some (json.MDone _, _) => Some (S n)
            | Some (m', stack') => readValue_from st' m' stack' r (S n)
            end
        end
  end.

Definition readValue (s : string) : option nat :=
  readValue_from json.LStart json.MValue [] s 0.

(** [json.NewDecoder(r).Decode(&v)] on a stream that holds [s], with [v]
    holding [old]: the first value of the stream is decoded as by
    [Unmarshal]. *)
Definition Decode {T : Type} `{json.Unmarshaler T} (s : string) (old : T)
  : option T :=
  match readValue s with
  | Some n => json.Unmarshal (take n s) old
  | None => None
  end.

End Decoder.

(** ** [service-a]: the entry point that calls the orchestration service *)
Module service_a.

(** [type ZipCode struct] with the tag [json:"cep"]. *)
Record ZipCode : Type := { CEP : string }.

Definition zero_ZipCode : ZipCode := {| CEP := "" |}.

#[global] Instance Unmarshaler_ZipCode : json.Unmarshaler ZipCode :=
  json.decode_struct ["cep"]
    (fun _ v old =>
       option_map (fun s => {| CEP := s |}) (json.decode v (CEP old))).

(** [isValidZipCode]. *)
Definition isValidZipCode (cep : string) : bool := regexp.MatchString cep.

Definition StatusBadRequest : Z := 400.
Definition StatusMethodNotAllowed : Z := 405.

(** *** The response writer of the server

    What the handler has set in the map of [w.Header()], the
    informational responses sent, the status written together with the
    header as it was at that moment, and the body bytes accepted by
    [Write]. *)
Definition header : Type := list (string * string).

Record ResponseWriter : Type := {
  Header : header;
  informational : list (Z * header);
  committed : option (Z * header);
  written : string }.

Definition NewResponse : ResponseWriter :=
  {| Header := []; informational := []; committed := None; written := "" |}.

Definition Header_Del (k : string) (w : ResponseWriter) : ResponseWriter :=
  {| Header := filter (fun kv => negb (String.eqb (fst kv) k)) (Header w);
     informational := informational w;
     committed := committed w;
     written := written w |}.

Definition Header_Set (k v : string) (w : ResponseWriter) : ResponseWriter :=
  {| Header := filter (fun kv => negb (String.eqb (fst kv) k)) (Header w)
               ++ [(k, v)];
     informational := informational w;
     committed := committed w;
     written := written w |}.

(** [bodyAllowedForStatus]. *)
Definition bodyAllowedForStatus (status : Z) : bool :=
  if (100 <=? status) && (status <=? 199) then false
  else if status =? 204 then false
  else if status =? 304 then false
  else true.

(** *** The incoming request, the answer of the orchestration service *)

(** [r.Method], the bytes of [r.Body], [r.Context()]. *)
Record Request : Type := {
  Method : string;
  Body : string;
  Request_Context : Context }.

(** The result of [io.ReadAll(resp.Body)]. *)
Inductive ReadResult : Type :=
| ReadOk (body : string)
| ReadErr (err : string).

Record Response : Type := {
  StatusCode : Z;
  ReadAll : ReadResult }.

Inductive DoResult : Type :=
| DoErr (err : string)
| DoOk (resp : Response).

(** What the handler reads from outside: the environment ([os.Getenv]
    gives the empty string for a variable that is not set), whether
    [url.Parse] accepts a URL, and the result of a round trip to a URL. *)
Record Outside : Type := {
  Getenv : string -> string;
  url_Parse : string -> bool;
  RoundTrip : string -> DoResult }.

(** *** Events and control flow *)

Inductive error : Type :=
| EDecode                      (* the error of [Decode] *)
| ENewRequest                  (* the error of [NewRequestWithContext] *)
| ERoundTrip (err : string)    (* the error of [client.Do] *)
| ERead (err : string)         (* the error of [io.ReadAll] *)
| ErrBodyNotAllowed.           (* [http.ErrBodyNotAllowed] *)

Inductive event : Type :=
| SpanStart (name : string) (parent : Context)
| SpanEnd (name : string)
| RecordError (span : string) (err : error)
| SetAttributes (span key value : string)
| Do (req : OutRequest)
| RequestBodyClose
| ResponseBodyClose
| Log (format : string) (err : error).

Inductive deferred : Type :=
| DSpanEnd (s : Span)
| DRequestBodyClose
| DResponseBodyClose.

Record world : Type := {
  trace : list event;
  w : ResponseWriter;
  defers : list deferred }.

Definition M (A : Type) : Type := world -> result A * world.

Definition ret {A : Type} (a : A) : M A := fun s => (Next a, s).

Definition bind {A B : Type} (m : M A) (k : A -> M B) : M B :=
  fun s =>
    match m s with
    | (Next a, s') => k a s'
    | (Returned, s') => (Returned, s')
    | (Panicked, s') => (Panicked, s')
    end.

Set Warnings "-notation-overridden".

#[local] Notation "x <- m ;; k" := (bind m (fun x => k))
  (at level 61, m at next level, right associativity).
#[local] Notation "' p <- m ;; k" := (bind m (fun x => let p := x in k))
  (at level 61, p pattern, m at next level, right associativity).
#[local] Notation "m ;; k" := (bind m (fun _ => k))
  (at level 61, right associativity).

Definition return_ {A : Type} : M A := fun s => (Returned, s).
Definition panic {A : Type} : M A := fun s => (Panicked, s).

Definition emit (e : event) : M unit :=
  fun s => (Next tt, {| trace := trace s ++ [e]; w := w s; defers := defers s |}).

Definition defer (d : deferred) : M unit :=
  fun s => (Next tt, {| trace := trace s; w := w s; defers := d :: defers s |}).

Definition respond (f : ResponseWriter -> ResponseWriter) : M unit :=
  fun s => (Next tt, {| trace := trace s; w := f (w s); defers := defers s |}).

Definition tracer_Start (ctx : Context) (name : string) : M (Context * Span) :=
  emit (SpanStart name ctx) ;;
  ret (name :: ctx, {| span_name := name; span_parent := ctx |}).

Definition span_End (s : Span) : M unit := emit (SpanEnd (span_name s)).

Definition span_RecordError (s : Span) (err : error) : M unit :=
  emit (RecordError (span_name s) err).

Definition span_SetAttributes (s : Span) (key value : string) : M unit :=
  emit (SetAttributes (span_name s) key value).

(** [w.WriteHeader(code)].  A second call changes nothing; a code that
    has not three digits panics; a code from 100 to 199 other than 101
    sends an informational response and leaves the status to be written;
    any other code is written with the header as it is now, and later
    changes of the header map do not reach the response. *)
Definition WriteHeader (code : Z) : M unit :=
  fun s =>
    match committed (w s) with
    | Some _ => (Next tt, s)
    | None =>
        if (code <? 100) || (999 <? code) then (Panicked, s)
        else if (100 <=? code) && (code <=? 199) && negb (code =? 101) then
          respond (fun x =>
                     {| Header := Header x;
                        informational := informational x
                                         ++ [(code, Header x)];
                        committed := None;
                        written := written x |}) s
        else
          respond (fun x =>
                     {| Header := Header x;
                        informational := informational x;
                        committed := Some (code, Header x);
                        written := written x |}) s
    end.

Definition append_body (data : string) (x : ResponseWriter) : ResponseWriter :=
  {| Header := Header x;
     informational := informational x;
     committed := committed x;
     written := written x +++ data |}.

(** [w.Write(data)]: the status 200 is written first when none was; the
    error is [http.ErrBodyNotAllowed] when the status written does not
    allow a body. *)
Definition Write (data : string) : M (option error) :=
  WriteHeader http.StatusOK ;;
  match data with
  | EmptyString => ret None
  | _ =>
      fun s =>
        match committed (w s) with
        | Some (status, _) =>
            if bodyAllowedForStatus status
            then (respond (append_body data) ;; ret None) s
            else ret (Some ErrBodyNotAllowed) s
        | None => panic s
        end
  end.

(** [http.Error(w, error, code)]. *)
Definition Error (error : string) (code : Z) : M unit :=
  respond (Header_Del "Content-Length") ;;
  respond (Header_Set "Content-Type" "text/plain; charset=utf-8") ;;
  respond (Header_Set "X-Content-Type-Options" "nosniff") ;;
  WriteHeader code ;;
  Write (error +++ http.newline) ;;
  ret tt.

(** [http.NewRequestWithContext(ctx, "GET", url, nil)]: an error when the
    URL does not parse. *)
Definition NewRequestWithContext (o : Outside) (ctx : Context)
    (method url : string) : option OutRequest :=
  if url_Parse o url
  then Some {| out_ctx := ctx; out_method := method; out_url := url |}
  else None.

(** [client.Do(req)]. *)
Definition client_Do (o : Outside) (req : OutRequest) : M DoResult :=
  emit (Do req) ;; ret (RoundTrip o (out_url req)).

Definition log_Printf (format : string) (err : error) : M unit :=
  emit (Log format err).

(** *** The handler *)

(** [func handler(w http.ResponseWriter, r *http.Request)], line by
    line. *)
Definition handler_body (o : Outside) (r : Request) : M unit :=
  ' (ctx, span) <- tracer_Start (Request_Context r) "service-a-handler" ;;
  defer (DSpanEnd span) ;;
  if negb (String.eqb (Method r) "POST") then
    Error "apenas POST é permitido" StatusMethodNotAllowed ;;
    return_
  else
  match Decoder.Decode (Body r) zero_ZipCode with
  | None =>
      span_RecordError span EDecode ;;
      span_SetAttributes span "error.message"
        "falha ao decodificar o body da requisição" ;;
      Error "falha ao decodificar o body da requisição" StatusBadRequest ;;
      return_
  | Some zipCode =>
  defer DRequestBodyClose ;;
  if negb (isValidZipCode (CEP zipCode)) then
    span_SetAttributes span "validation.status" "failed" ;;
    Error "invalid zipcode" http.StatusUnprocessableEntity ;;
    return_
  else
  span_SetAttributes span "validation.status" "success" ;;
  let serviceBURL := Getenv o "SERVICE_B_URL" in
  let serviceBURL :=
    if String.eqb serviceBURL "" then "http://localhost:8081"
    else serviceBURL in
  ' (_, callSpan) <- tracer_Start ctx "call-service-b" ;;
  match NewRequestWithContext o ctx "GET"
          (serviceBURL +++ "/" +++ CEP zipCode) with
  | None =>
      span_RecordError callSpan ENewRequest ;;
      span_End callSpan ;;
      Error "falha ao criar a requisição para o Serviço B"
        http.StatusInternalServerError ;;
      return_
  | Some req =>
  res <- client_Do o req ;;
  match res with
  | DoErr err =>
      span_RecordError callSpan (ERoundTrip err) ;;
      span_End callSpan ;;
      Error "falha ao chamar o Serviço B" http.StatusInternalServerError ;;
      return_
  | DoOk resp =>
  defer DResponseBodyClose ;;
  span_End callSpan ;;
  match ReadAll resp with
  | ReadErr err =>
      span_RecordError span (ERead err) ;;
      Error "falha ao ler a resposta do Serviço B"
        http.StatusInternalServerError ;;
      return_
  | ReadOk body =>
  WriteHeader (StatusCode resp) ;;
  respond (Header_Set "Content-Type" "application/json") ;;
  err <- Write body ;;
  match err with
  | Some e => log_Printf "falha ao escrever a resposta: %v" e
  | None => ret tt
  end
  end end end end.

Definition run_deferred (d : deferred) : event :=
  match d with
  | DSpanEnd s => SpanEnd (span_name s)
  | DRequestBodyClose => RequestBodyClose
  | DResponseBodyClose => ResponseBodyClose
  end.

(** One request from start to end. *)
Record served : Type := {
  panicked : bool;
  events : list event;
  response : ResponseWriter }.

Definition handler (o : Outside) (r : Request) : served :=
  let '(res, s) :=
    handler_body o r {| trace := []; w := NewResponse; defers := [] |} in
  {| panicked := match res with Panicked => true | _ => false end;
     events := trace s ++ map run_deferred (defers s);
     response := w s |}.

(** *** Observations *)

Definition status (s : served) : option Z :=
  option_map fst (committed (response s)).

(** The header sent with the status. *)
Definition sent_header (s : served) : header :=
  match committed (response s) with
  | Some (_, h) => h
  | None => []
  end.

Definition body (s : served) : string := written (response s).

Definition calls (s : served) : list OutRequest :=
  flat_map (fun e => match e with Do rq => [rq] | _ => [] end) (events s).

Definition started (name : string) (s : served) : nat :=
  List.length
    (filter (fun e => match e with
                      | SpanStart n _ => String.eqb n name
                      | _ => false
                      end) (events s)).

Definition ended (name : string) (s : served) : nat :=
  List.length
    (filter (fun e => match e with
                      | SpanEnd n => String.eqb n name
                      | _ => false
                      end) (events s)).

(** The base URL of the orchestration service: [SERVICE_B_URL], or the
    default of line 419. *)
Definition serviceBURL (o : Outside) : string :=
  if String.eqb (Getenv o "SERVICE_B_URL") "" then "http://localhost:8081"
  else Getenv o "SERVICE_B_URL".

(** The request passed the three checks of the handler with the postal
    code [cep]. *)
Definition accepted (r : Request) (cep : string) : Prop :=
  Method r = "POST"
  /\ Decoder.Decode (Body r) zero_ZipCode = Some {| CEP := cep |}
  /\ isValidZipCode cep = true.

End service_a.

(** ** [config]: the configuration of the orchestration service *)
Module config.

(** [LoadConfig].  [getenv] is [os.Getenv], which gives the empty string
    for a variable that is not set.  The result is the configuration, or
    the message of the error. *)
Definition LoadConfig (getenv : string -> string) : Config + string :=
  let key := getenv "WEATHER_API_KEY" in
  let port := getenv "SERVER_PORT" in
  if String.eqb key "" then
    inr "WEATHER_API_KEY is not set; please provide it via environment variable"
  else
    inl {| WeatherAPIKey := key;
           ServerPort :=
             match port with
             | EmptyString => ":8081"
             | String c _ =>
                 if negb (Ascii.eqb c ":"%char) then ":" +++ port else port
             end |}.

End config.

(** ** [main] of the orchestration service *)

(** [initTracerProvider]: its error, if any.  [exporter] and [resource]
    are the errors of [otlptracehttp.New] and of [resource.New]; the
    resource is created only when the exporter was. *)
Definition initTracerProvider (exporter resource : option string)
  : option string :=
  match exporter with
  | Some err => Some ("falha ao criar o exporter OTLP: " +++ err)
  | None =>
      match resource with
      | Some err => Some ("falha ao criar o recurso: " +++ err)
      | None => None
      end
  end.

(** How [main] gets to serve, or does not: [log.Fatalf] ends the process
    at once; a panic ends it after the deferred calls (the shutdown of the
    tracer provider among them); otherwise a server is created with an
    address and the handler of an [app], and started. *)
Inductive startup : Type :=
| Fatal (msg : string)
| Panics (msg : string)
| Serves (Addr : string) (application : app).

(** [main], lines 187 to 236: up to the start of the server. *)
Definition main (getenv : string -> string) (exporter resource : option string)
  : startup :=
  match initTracerProvider exporter resource with
  | Some err => Fatal ("failed to initialize tracer provider: " +++ err)
  | None =>
      match config.LoadConfig getenv with
      | inr err => Panics ("failed to load config: " +++ err)
      | inl c =>
          let application := {| cfg := c |} in
          let port := getenv "SERVER_PORT" in
          let port := if String.eqb port "" then "8081" else port in
          let port := if negb (HasPrefix port ":") then ":" +++ port
                      else port in
          Serves port application
      end
  end.

(** The environment [getenv] with the variable [k] set to [v]. *)
Definition setenv (k v : string) (getenv : string -> string)
  : string -> string :=
  fun x => if String.eqb x k then v else getenv x.

(** ** Scenarios for the entry point *)

(** A POST request with the body [body]. *)
Definition post (body : string) : service_a.Request :=
  {| service_a.Method := "POST"; service_a.Body := body;
     service_a.Request_Context := [] |}.

(** An outside with an empty environment, in which every round trip has
    the result [answer]. *)
Definition outside_of (answer : service_a.DoResult) : service_a.Outside :=
  {| service_a.Getenv := fun _ => "";
     service_a.url_Parse := url.Parse_ok;
     service_a.RoundTrip := fun _ => answer |}.

Definition body_cep : string := q "{'cep':'01001000'}".

(** A configuration whose key holds a line feed. *)
Definition app_bad_key : app :=
  {| cfg := {| WeatherAPIKey := "test" +++ http.newline;
               ServerPort := ":8081" |} |}.

(** * Properties *)

(** ** Strings and the validity rule *)

Lemma bytes_app (a b : string) : bytes (a +++ b) = bytes a ++ bytes b.
Proof.
  induction a as [|c a IH]; simpl; [reflexivity | now rewrite IH].
Qed.

Lemma plain_app (a b : string) : plain (a +++ b) = plain a && plain b.
Proof.
  unfold plain. rewrite bytes_app. apply forallb_app.
Qed.

Lemma plain_cut (s : string) :
  plain s = true -> url.cut_fragment s = (s, None).
Proof.
  induction s as [|c s IH]; simpl; intros H; [reflexivity|].
  apply andb_true_iff in H as [Hc Hs].
  apply negb_true_iff, orb_false_iff in Hc as [_ Hh].
  rewrite Hh, (IH Hs). reflexivity.
Qed.

Lemma plain_no_CTL (s : string) :
  plain s = true -> url.stringContainsCTLByte s = false.
Proof.
  induction s as [|c s IH]; simpl; intros H; [reflexivity|].
  apply andb_true_iff in H as [Hc Hs].
  apply negb_true_iff, orb_false_iff in Hc as [Hc _].
  rewrite Hc. exact (IH Hs).
Qed.

(** A URL free of control bytes and of [#] is accepted by [url.Parse]. *)
Lemma Parse_ok_plain (s : string) : plain s = true -> url.Parse_ok s = true.
Proof.
  intros H. unfold url.Parse_ok.
  rewrite (plain_cut s H), (plain_no_CTL s H). reflexivity.
Qed.

Lemma digit_plain (c : ascii) :
  is_digit c = true ->
  negb ((code c <? 32) || (code c =? 127) || (code c =? 35)) = true.
Proof.
  unfold is_digit, in_range. intros H.
  apply andb_true_iff in H as [H1 H2].
  apply Z.leb_le in H1. apply Z.leb_le in H2.
  apply negb_true_iff.
  repeat (apply orb_false_iff; split);
    [apply Z.ltb_ge | apply Z.eqb_neq | apply Z.eqb_neq]; lia.
Qed.

Lemma digits_plain (n : nat) :
  forall s rest, regexp.digits n s = Some rest ->
                 plain rest = true -> plain s = true.
Proof.
  induction n as [|n IH]; simpl; intros s rest H Hr.
  - now inversion H; subst.
  - destruct s as [|c s]; [discriminate|].
    destruct (is_digit c) eqn:Hc; [|discriminate].
    unfold plain in *. simpl. rewrite (digit_plain c Hc). simpl.
    exact (IH s rest H Hr).
Qed.

(** The URL of the geocode call of a validated request always parses: the
    request is built and the call is made. *)
Lemma Parse_ok_viaCepURL (cep : string) :
  regexp.MatchString cep = true -> url.Parse_ok (viaCepURL cep) = true.
Proof.
  unfold regexp.MatchString. intros H.
  destruct (regexp.digits 8 cep) as [rest|] eqn:Hd; [|discriminate].
  destruct rest; [|discriminate].
  apply Parse_ok_plain. unfold viaCepURL.
  rewrite !plain_app, (digits_plain 8 cep "" Hd eq_refl). reflexivity.
Qed.

Lemma digits_spec (n : nat) :
  forall s, (match regexp.digits n s with
             | Some EmptyString => true
             | _ => false
             end)
            = (String.length s =? n)%nat && forallb is_digit (bytes s).
Proof.
  induction n as [|n IH]; intros s; simpl.
  - destruct s; reflexivity.
  - destruct s as [|c s]; simpl; [reflexivity|].
    destruct (is_digit c); simpl.
    + apply IH.
    + now rewrite andb_false_r.
Qed.

(** The compiled pattern accepts exactly the strings of eight ASCII
    digits. *)
Lemma MatchString_spec (s : string) :
  regexp.MatchString s = eight_ascii_digits s.
Proof. apply (digits_spec 8). Qed.

(** ** Running the handler symbolically *)

Lemma cep_of_path (r : Request) (cep : string) :
  cep_of r = Some cep -> exists c, URL_Path r = String c cep.
Proof.
  unfold cep_of. destruct (URL_Path r) as [|c s]; [discriminate|].
  intros H. inversion H; subst. now exists c.
Qed.

(** [run] unfolds the handler and the operations of its monad, and nothing
    of the libraries; [follow] then takes the branch that a hypothesis
    decides. *)
Ltac run :=
  cbv beta iota zeta delta
    [handler handler_of handler_body bind ret emit defer respond tracer_Start
     span_End log_Printf DefaultClient_Do NewRequestWithContext
     Encoder_Encode deref slice_from_1 return_ panic trace w defers
     span_name span_parent
     out_url out_ctx List.app map flat_map run_deferred negb
     status body urls_called calls events panicked response weather_url].

Ltac follow_step :=
  match goal with
  | H : URL_Path ?r = _ |- context [URL_Path ?r] => rewrite H
  | H : regexp.MatchString ?c = true
    |- context [url.Parse_ok (viaCepURL ?c)] =>
      rewrite (Parse_ok_viaCepURL c H)
  | H : regexp.MatchString ?c = _ |- context [regexp.MatchString ?c] =>
      rewrite H
  | H : url.Parse_ok ?u = _ |- context [url.Parse_ok ?u] => rewrite H
  | H : ?net ?u = _ |- context [match ?net ?u with _ => _ end] => rewrite H
  | H : json.Unmarshal ?b ?z = _ |- context [json.Unmarshal ?b ?z] =>
      rewrite H
  | H : json.encode ?v = _ |- context [json.encode ?v] => rewrite H
  | H : (Erro ?d || String.eqb (Localidade ?d) "") = _
    |- context [Erro ?d || String.eqb (Localidade ?d) ""] => rewrite H
  end.

Ltac follow := unfold weather_url in *; run; repeat (follow_step; run).

(** [validated] as the two facts the handler tests. *)
Ltac use_validated H :=
  let Hc := fresh "Hcep" in
  let Hm := fresh "Hmatch" in
  let c := fresh "c0" in
  destruct H as [Hc Hm]; apply cep_of_path in Hc as [c Hc].

(** [split_paths] follows every branch of the handler, recording in the
    context the test that selects it. *)
Ltac split_step :=
  match goal with
  | |- context [match URL_Path ?r with _ => _ end] =>
      destruct (URL_Path r) eqn:?
  | H : regexp.MatchString ?c = true
    |- context [url.Parse_ok (viaCepURL ?c)] =>
      rewrite (Parse_ok_viaCepURL c H)
  | |- context [regexp.MatchString ?c] =>
      destruct (regexp.MatchString c) eqn:?
  | |- context [if url.Parse_ok ?u then _ else _] =>
      destruct (url.Parse_ok u) eqn:?
  | |- context [match ?net ?u with http.DoErr _ => _ | http.DoOk _ => _ end] =>
      destruct (net u) eqn:?
  | |- context [match json.Unmarshal ?b ?z with _ => _ end] =>
      destruct (json.Unmarshal b z) eqn:?
  | |- context [if Erro ?d || _ then _ else _] =>
      destruct (Erro d || String.eqb (Localidade d) "") eqn:?
  | |- context [match json.encode ?v with _ => _ end] =>
      destruct (json.encode v) eqn:?
  end.

Ltac split_paths := run; repeat (split_step; run).

Lemma located_test (d : ViaCEPResponse) :
  located d -> Erro d || String.eqb (Localidade d) "" = false.
Proof.
  intros [He Hl]. rewrite He. simpl. now apply String.eqb_neq.
Qed.

Lemma not_located_test (d : ViaCEPResponse) :
  Erro d = true \/ Localidade d = "" ->
  Erro d || String.eqb (Localidade d) "" = true.
Proof.
  intros [He | Hl].
  - now rewrite He.
  - rewrite Hl. apply orb_true_r.
Qed.

Lemma path_validated (r : Request) (c : ascii) (cep : string) :
  URL_Path r = String c cep -> regexp.MatchString cep = true ->
  validated r cep.
Proof.
  intros Hp Hm. split; [|exact Hm]. unfold cep_of. now rewrite Hp.
Qed.

Lemma test_located (d : ViaCEPResponse) :
  Erro d || String.eqb (Localidade d) "" = false -> located d.
Proof.
  intros H. apply orb_false_iff in H as [He Hl].
  split; [exact He | now apply String.eqb_neq].
Qed.

(** The two providers are reached at different URLs. *)
Lemma urls_differ (cep key city : string) :
  viaCepURL cep <> weatherURL key city.
Proof. unfold viaCepURL, weatherURL. simpl. discriminate. Qed.

Lemma NoDup_two (x y : string) : x <> y -> NoDup [x; y].
Proof.
  intros H. constructor.
  - simpl. intros [E | []]. now apply H.
  - constructor; [simpl; tauto | constructor].
Qed.

(** The calls of one request: none, the geocode call alone, or the geocode
    call followed by the weather call, the latter only when the geocode
    answer decoded to a located postal code. *)
Lemma calls_shape (net : http.Transport) (a : app) (r : Request) :
  urls_called (handler net a r) = []
  \/ (exists cep, validated r cep
                  /\ urls_called (handler net a r) = [viaCepURL cep])
  \/ (exists cep d, validated r cep /\ geocoded net cep d /\ located d
                    /\ urls_called (handler net a r)
                       = [viaCepURL cep; weather_url a d]).
Proof.
  split_paths;
    try (left; reflexivity);
    try (right; left; eexists; split;
         [eapply path_validated; eassumption | reflexivity]);
    right; right; eexists; eexists;
    (split; [eapply path_validated; eassumption|]);
    (split; [eexists; split; eassumption|]);
    (split; [apply test_located; assumption | reflexivity]).
Qed.

(** Two [float64] values with different sign, mantissa or exponent are
    different. *)
Lemma float_neq (x y : float) : Prim2SF x <> Prim2SF y -> x <> y.
Proof. intros H E. apply H. now rewrite E. Qed.

(** ** Parsed texts hold well-formed string literals *)

Lemma srun_app (s1 s2 : list ascii) (st : sstate) :
  srun st (s1 ++ s2)
  = match srun st s1 with Some st' => srun st' s2 | None => None end.
Proof.
  revert st. induction s1 as [|c s1 IH]; intros st; simpl; [reflexivity|].
  destruct (sstep st c); [apply IH | reflexivity].
Qed.

Lemma srun_snoc (s : list ascii) (c : ascii) (st st' : sstate) :
  srun st s = Some st' -> srun st (s ++ [c]) = sstep st' c.
Proof.
  intros H. rewrite srun_app, H. simpl. now destruct (sstep st' c).
Qed.

Lemma bytes_str (l : list ascii) : bytes (str l) = l.
Proof. apply list_ascii_of_string_of_list_ascii. Qed.

Lemma simple_escape_set (c : ascii) :
  let n := code c in
  (n =? 98) || (n =? 102) || (n =? 110) || (n =? 114) || (n =? 116)
  || (n =? 92) || (n =? 47) || (n =? 34)
  = match json.simple_escape c with Some _ => true | None => false end.
Proof.
  unfold json.simple_escape. cbv zeta.
  destruct (code c =? 34) eqn:E1, (code c =? 92) eqn:E2,
    (code c =? 47) eqn:E3, (code c =? 98) eqn:E4, (code c =? 102) eqn:E5,
    (code c =? 110) eqn:E6, (code c =? 114) eqn:E7, (code c =? 116) eqn:E8;
    reflexivity.
Qed.

Lemma lex_start_ok (c : ascii) (st : json.lexstate) (toks : list json.token) :
  json.lex_start c = Some (st, toks) ->
  lex_inv st /\ forallb token_ok toks = true.
Proof.
  unfold json.lex_start. cbv zeta.
  repeat match goal with
         | |- context [if ?b then _ else _] => destruct b
         end;
    intros H; inversion H; subst; split; reflexivity.
Qed.

Lemma lex_step_ok (st st' : json.lexstate) (c : ascii)
    (toks : list json.token) :
  lex_inv st -> json.lex_step st c = Some (st', toks) ->
  lex_inv st' /\ forallb token_ok toks = true.
Proof.
  intros Hinv Hstep. destruct st as [|acc|acc|n acc|ns acc|rest t]; simpl in *.
  - now apply lex_start_ok with c.
  - destruct (code c =? 34) eqn:Eq.
    + inversion Hstep; subst. split; [exact I|]. simpl.
      unfold literal_ok. now rewrite bytes_str, Hinv.
    + destruct (code c =? 92) eqn:Eb.
      * inversion Hstep; subst. split; [|reflexivity]. simpl.
        rewrite (srun_snoc _ _ _ _ Hinv). simpl. now rewrite Eq, Eb.
      * destruct (code c <? 32) eqn:Ec; [discriminate|].
        inversion Hstep; subst. split; [|reflexivity]. simpl.
        rewrite (srun_snoc _ _ _ _ Hinv). simpl. now rewrite Eq, Eb, Ec.
  - pose proof (simple_escape_set c) as Hs. cbv zeta in Hs.
    rewrite Hs in Hstep.
    destruct (json.simple_escape c) as [x|] eqn:Ex.
    + inversion Hstep; subst. split; [|reflexivity]. simpl.
      rewrite (srun_snoc _ _ _ _ Hinv). simpl. now rewrite Ex.
    + destruct (code c =? 117) eqn:Eu; [|discriminate].
      inversion Hstep; subst. split; [|reflexivity]. simpl.
      rewrite (srun_snoc _ _ _ _ Hinv). simpl. now rewrite Ex, Eu.
  - destruct (is_hex c) eqn:Eh; [|discriminate].
    destruct n as [|[|k]]; inversion Hstep; subst;
      (split; [|reflexivity]); simpl;
      rewrite (srun_snoc _ _ _ _ Hinv); simpl; now rewrite Eh.
  - destruct (json.num_next ns c).
    + inversion Hstep; subst. split; [exact I | reflexivity].
    + destruct (json.num_final ns); [|discriminate].
      destruct (json.lex_start c) as [[st0 toks0]|] eqn:Es; [|discriminate].
      inversion Hstep; subst. apply lex_start_ok in Es as [H1 H2].
      split; [exact H1 | exact H2].
  - destruct rest as [|x rest']; [discriminate|].
    destruct (Ascii.eqb c x); [|discriminate].
    destruct rest'; inversion Hstep; subst; simpl.
    + split; [exact I | now rewrite Hinv].
    + split; [exact Hinv | reflexivity].
Qed.

Lemma lex_from_ok (s : string) :
  forall st toks, lex_inv st -> json.lex_from st s = Some toks ->
                  forallb token_ok toks = true.
Proof.
  induction s as [|c s IH]; intros st toks Hinv H; simpl in H.
  - destruct st; simpl in H; try discriminate.
    + now inversion H.
    + destruct (json.num_final st); [|discriminate]. now inversion H.
  - destruct (json.lex_step st c) as [[st' toks1]|] eqn:Es; [|discriminate].
    destruct (json.lex_from st' s) as [more|] eqn:Em; [|discriminate].
    inversion H; subst.
    destruct (lex_step_ok _ _ _ _ Hinv Es) as [Hinv' Hok].
    rewrite forallb_app, Hok. simpl. exact (IH _ _ Hinv' Em).
Qed.

Lemma forallb_rev {A : Type} (f : A -> bool) (l : list A) :
  forallb f (rev l) = forallb f l.
Proof.
  induction l as [|x l IH]; simpl; [reflexivity|].
  rewrite forallb_app, IH. simpl. rewrite andb_true_r. apply andb_comm.
Qed.

Lemma complete_ok (v : json.value) (stack stack' : list json.frame)
    (m' : json.mode) :
  well_lexed v = true -> forallb frame_ok stack = true ->
  json.complete v stack = Some (m', stack') ->
  mode_ok m' = true /\ forallb frame_ok stack' = true.
Proof.
  intros Hv Hs H. destruct stack as [|[done|done [k|]] st]; simpl in *;
    try discriminate; inversion H; subst; simpl.
  - now split.
  - apply andb_true_iff in Hs as [Hd Hst]. now rewrite Hv, Hd, Hst.
  - apply andb_true_iff in Hs as [Hd Hst].
    apply andb_true_iff in Hd as [Hd Hk].
    unfold member_ok at 1. simpl. now rewrite Hk, Hv, Hd, Hst.
Qed.

Lemma push_ok (f : json.frame) (m m' : json.mode)
    (stack stack' : list json.frame) :
  frame_ok f = true -> mode_ok m = true -> forallb frame_ok stack = true ->
  json.push f m stack = Some (m', stack') ->
  mode_ok m' = true /\ forallb frame_ok stack' = true.
Proof.
  unfold json.push. intros Hf Hm Hs H.
  destruct (_ <=? _); [|discriminate]. inversion H; subst. simpl.
  now rewrite Hf, Hs.
Qed.

Lemma begin_value_ok (t : json.token) (stack stack' : list json.frame)
    (m' : json.mode) :
  token_ok t = true -> forallb frame_ok stack = true ->
  json.begin_value t stack = Some (m', stack') ->
  mode_ok m' = true /\ forallb frame_ok stack' = true.
Proof.
  intros Ht Hs H. destruct t; simpl in H; try discriminate;
    first [ eapply complete_ok; [| exact Hs | exact H]; assumption || reflexivity
          | eapply push_ok; [| | exact Hs | exact H]; reflexivity ].
Qed.

Lemma set_key_ok (k : string) (stack stack' : list json.frame)
    (m' : json.mode) :
  literal_ok k = true -> forallb frame_ok stack = true ->
  json.set_key k stack = Some (m', stack') ->
  mode_ok m' = true /\ forallb frame_ok stack' = true.
Proof.
  intros Hk Hs H. destruct stack as [|[done|done [k0|]] st]; simpl in *;
    try discriminate; inversion H; subst; simpl.
  apply andb_true_iff in Hs as [Hd Hst]. rewrite andb_true_r in Hd.
  now rewrite Hd, Hk, Hst.
Qed.

Lemma parse_step_ok (m m' : json.mode) (stack stack' : list json.frame)
    (t : json.token) :
  token_ok t = true -> forallb frame_ok stack = true ->
  json.parse_step m stack t = Some (m', stack') ->
  mode_ok m' = true /\ forallb frame_ok stack' = true.
Proof.
  intros Ht Hs H. destruct m; simpl in H.
  - now apply begin_value_ok with t stack.
  - destruct t; try (now apply begin_value_ok with (2 := Hs) in H).
    destruct stack as [|[done|done key] st]; try discriminate.
    simpl in Hs. apply andb_true_iff in Hs as [_ Hst].
    now apply complete_ok with (3 := H).
  - destruct t; try discriminate;
      try (destruct stack as [|[?|? ?] ?]; discriminate).
    + destruct stack as [|[done|done key] st]; try discriminate.
      simpl in Hs. apply andb_true_iff in Hs as [_ Hst].
      now apply complete_ok with (3 := H).
    + destruct stack as [|[done|done key] st];
        now apply set_key_ok with (3 := H).
  - destruct t; try discriminate. now apply set_key_ok with (3 := H).
  - destruct t; try discriminate. inversion H; subst. now split.
  - destruct t; try discriminate;
      destruct stack as [|[done|done [k|]] st]; try discriminate;
      simpl in Hs; apply andb_true_iff in Hs as [Hd Hst].
    + apply complete_ok with (3 := H); [|exact Hst].
      simpl. fold well_lexed.
      change (forallb (fun kv => literal_ok (fst kv) && well_lexed (snd kv))
                (rev done))
        with (forallb member_ok (rev done)).
      rewrite forallb_rev. now rewrite andb_true_r in Hd.
    + apply complete_ok with (3 := H); [|exact Hst].
      simpl. now rewrite forallb_rev.
    + inversion H; subst. simpl. now rewrite Hd, Hst.
    + inversion H; subst. simpl. now rewrite Hd, Hst.
  - discriminate.
Qed.

Lemma parse_from_ok (ts : list json.token) :
  forall m stack j,
    forallb token_ok ts = true -> mode_ok m = true ->
    forallb frame_ok stack = true ->
    json.parse_from m stack ts = Some j -> well_lexed j = true.
Proof.
  induction ts as [|t ts IH]; intros m stack j Ht Hm Hs H; simpl in H.
  - destruct m; try discriminate. now inversion H; subst.
  - simpl in Ht. apply andb_true_iff in Ht as [Ht Hts].
    destruct (json.parse_step m stack t) as [[m' stack']|] eqn:Es;
      [|discriminate].
    destruct (parse_step_ok _ _ _ _ _ Ht Hs Es) as [Hm' Hs'].
    exact (IH _ _ _ Hts Hm' Hs' H).
Qed.

(** Every string and every key of a parsed text is a well-formed
    literal. *)
Lemma parse_well_lexed (s : string) (j : json.value) :
  json.parse s = Some j -> well_lexed j = true.
Proof.
  unfold json.parse, json.lex. intros H.
  destruct (json.lex_from json.LStart s) as [ts|] eqn:El; [|discriminate].
  apply parse_from_ok with (4 := H); try reflexivity.
  now apply lex_from_ok with (2 := El).
Qed.

(** ** A well-formed literal always unquotes *)

Lemma unquote_from_skip (k : nat) :
  forall s, json.unquote_from k s = json.unquote_from 0 (drop k s).
Proof.
  induction k as [|k IH]; intros s; [reflexivity|].
  destruct s as [|c r]; [reflexivity|]. simpl drop. rewrite <- IH.
  reflexivity.
Qed.

Lemma drop_length (k : nat) :
  forall s, (String.length (drop k s) <= String.length s)%nat.
Proof.
  induction k as [|k IH]; intros s; simpl; [lia|].
  destruct s as [|c r]; simpl; [lia|]. specialize (IH r). lia.
Qed.

Lemma sstep_high (b : ascii) : 128 <= code b -> sstep SStr b = Some SStr.
Proof.
  intros H. simpl.
  destruct (code b =? 34) eqn:E1; [apply Z.eqb_eq in E1; lia|].
  destruct (code b =? 92) eqn:E2; [apply Z.eqb_eq in E2; lia|].
  destruct (code b <? 32) eqn:E3; [apply Z.ltb_lt in E3; lia|].
  reflexivity.
Qed.

Lemma in_range_high (lo hi : Z) (b : ascii) :
  128 <= lo -> in_range lo hi b = true -> 128 <= code b.
Proof.
  unfold in_range. intros Hlo H. apply andb_true_iff in H as [H _].
  apply Z.leb_le in H. lia.
Qed.

Lemma srun_high (b : ascii) (l : list ascii) (lo hi : Z) :
  128 <= lo -> in_range lo hi b = true ->
  srun SStr (b :: l) = srun SStr l.
Proof.
  intros Hlo Hb.
  change (srun SStr (b :: l))
    with (match sstep SStr b with Some st' => srun st' l | None => None end).
  now rewrite (sstep_high b (in_range_high lo hi b Hlo Hb)).
Qed.

(** The bytes that [utf8.DecodeRune] takes as one rune are skipped by the
    scanner without leaving the literal. *)
Lemma skip_rune (c : ascii) (r : string) (rr : Z) (size : nat) :
  utf8.DecodeRune (String c r) = (rr, size) ->
  srun SStr (bytes r) = Some SStr ->
  srun SStr (bytes (drop (pred size) r)) = Some SStr.
Proof.
  unfold utf8.DecodeRune, utf8.cont. cbv zeta. intros H Hr.
  repeat match type of H with
         | (if ?b then _ else _) = _ => destruct b eqn:?
         | (match ?s with EmptyString => _ | String _ _ => _ end) = _ =>
             destruct s
         end;
    inversion H; subst; simpl pred; simpl drop; try exact Hr;
    repeat match goal with
           | E : _ && _ = true |- _ => apply andb_true_iff in E as [? ?]
           end;
    simpl bytes in Hr;
    repeat match goal with
           | E : in_range ?lo ?hi ?b = true, Hs : srun SStr (?b :: _) = _ |- _ =>
               rewrite (srun_high b _ lo hi) in Hs;
               [| destruct (code c =? 224), (code c =? 240); lia | exact E]
           end;
    exact Hr.
Qed.

Lemma getu4_shape (s : string) (v : Z) :
  json.getu4 s = Some v ->
  exists b u h1 h2 h3 h4 r,
    s = String b (String u (String h1 (String h2 (String h3 (String h4 r)))))
    /\ code b = 92 /\ code u = 117
    /\ is_hex h1 = true /\ is_hex h2 = true
    /\ is_hex h3 = true /\ is_hex h4 = true.
Proof.
  unfold json.getu4. intros H.
  destruct s as [|b [|u [|h1 [|h2 [|h3 [|h4 r]]]]]]; try discriminate.
  destruct ((code b =? 92) && (code u =? 117) && is_hex h1 && is_hex h2
            && is_hex h3 && is_hex h4) eqn:E; [|discriminate].
  apply andb_true_iff in E as [E H4]. apply andb_true_iff in E as [E H3].
  apply andb_true_iff in E as [E H2]. apply andb_true_iff in E as [E H1].
  apply andb_true_iff in E as [Eb Eu].
  apply Z.eqb_eq in Eb. apply Z.eqb_eq in Eu.
  now exists b, u, h1, h2, h3, h4, r.
Qed.

Lemma simple_escape_u (c : ascii) :
  code c = 117 -> json.simple_escape c = None.
Proof. unfold json.simple_escape. cbv zeta. intros ->. reflexivity. Qed.

Lemma srun_cons (st : sstate) (c : ascii) (l : list ascii) :
  srun st (c :: l)
  = match sstep st c with Some st' => srun st' l | None => None end.
Proof. reflexivity. Qed.

(** The scanner runs over a [u] escape and is back in the literal. *)
Lemma srun_u_escape (b u h1 h2 h3 h4 : ascii) (l : list ascii) :
  code b = 92 -> code u = 117 ->
  is_hex h1 = true -> is_hex h2 = true -> is_hex h3 = true ->
  is_hex h4 = true ->
  srun SStr (b :: u :: h1 :: h2 :: h3 :: h4 :: l) = srun SStr l.
Proof.
  intros Hb Hu H1 H2 H3 H4.
  assert (Eb : sstep SStr b = Some SEsc)
    by (unfold sstep; rewrite Hb; reflexivity).
  assert (Eu : sstep SEsc u = Some (SHex 4))
    by (unfold sstep; rewrite (simple_escape_u u Hu), Hu; reflexivity).
  rewrite !srun_cons, Eb, !srun_cons, Eu.
  rewrite !srun_cons. unfold sstep. rewrite H1.
  rewrite !srun_cons. unfold sstep. rewrite H2.
  rewrite !srun_cons. unfold sstep. rewrite H3.
  rewrite !srun_cons. unfold sstep. rewrite H4. reflexivity.
Qed.

Lemma srun_hex4 (h1 h2 h3 h4 : ascii) (l : list ascii) :
  is_hex h1 = true -> is_hex h2 = true -> is_hex h3 = true ->
  is_hex h4 = true ->
  srun (SHex 4) (h1 :: h2 :: h3 :: h4 :: l) = srun SStr l.
Proof.
  intros H1 H2 H3 H4.
  rewrite !srun_cons. unfold sstep. rewrite H1.
  rewrite !srun_cons. unfold sstep. rewrite H2.
  rewrite !srun_cons. unfold sstep. rewrite H3.
  rewrite !srun_cons. unfold sstep. rewrite H4. reflexivity.
Qed.

(** Four hexadecimal digits follow the [u] of an escape. *)
Lemma srun_hex4_inv (r : string) :
  srun (SHex 4) (bytes r) = Some SStr ->
  exists h1 h2 h3 h4 r5,
    r = String h1 (String h2 (String h3 (String h4 r5)))
    /\ is_hex h1 = true /\ is_hex h2 = true
    /\ is_hex h3 = true /\ is_hex h4 = true.
Proof.
  intros H.
  destruct r as [|h1 r]; [discriminate|].
  change (bytes (String h1 r)) with (h1 :: bytes r) in H.
  rewrite srun_cons in H. unfold sstep in H.
  destruct (is_hex h1) eqn:H1; [|discriminate].
  destruct r as [|h2 r]; [discriminate|].
  change (bytes (String h2 r)) with (h2 :: bytes r) in H.
  rewrite srun_cons in H. unfold sstep in H.
  destruct (is_hex h2) eqn:H2; [|discriminate].
  destruct r as [|h3 r]; [discriminate|].
  change (bytes (String h3 r)) with (h3 :: bytes r) in H.
  rewrite srun_cons in H. unfold sstep in H.
  destruct (is_hex h3) eqn:H3; [|discriminate].
  destruct r as [|h4 r]; [discriminate|].
  change (bytes (String h4 r)) with (h4 :: bytes r) in H.
  rewrite srun_cons in H. unfold sstep in H.
  destruct (is_hex h4) eqn:H4; [|discriminate].
  now exists h1, h2, h3, h4, r.
Qed.

Lemma unquote_from_ok (n : nat) :
  forall s, (String.length s <= n)%nat ->
            srun SStr (bytes s) = Some SStr ->
            exists out, json.unquote_from 0 s = Some out.
Proof.
  induction n as [|n IH]; intros s Hlen Hrun.
  - destruct s; [now exists [] | simpl in Hlen; lia].
  - destruct s as [|c r]; [now exists []|].
    simpl in Hlen. assert (Hr : (String.length r <= n)%nat) by lia.
    assert (Hdrop : forall k out,
               srun SStr (bytes (drop k r)) = Some SStr ->
               exists out', match json.unquote_from k r with
                            | Some more => Some (out ++ more)
                            | None => None
                            end = Some out').
    { intros k out Hk. rewrite unquote_from_skip.
      destruct (IH (drop k r)) as [more Hm];
        [pose proof (drop_length k r); lia | exact Hk |].
      rewrite Hm. now eexists. }
    change (json.unquote_from 0 (String c r))
      with (match json.unquote_step (String c r) with
            | Some (out, k) =>
                match json.unquote_from k r with
                | Some more => Some (out ++ more)
                | None => None
                end
            | None => None
            end).
    unfold json.unquote_step.
    change (bytes (String c r)) with (c :: bytes r) in Hrun.
    rewrite srun_cons in Hrun. unfold sstep in Hrun.
    destruct (code c =? 34) eqn:Eq; [discriminate|].
    destruct (code c =? 92) eqn:Eb.
    + (* an escape *)
      destruct r as [|e r1]; [discriminate|].
      change (bytes (String e r1)) with (e :: bytes r1) in Hrun.
      rewrite srun_cons in Hrun. unfold sstep in Hrun.
      destruct (json.simple_escape e) as [x|] eqn:Ex.
      * apply (Hdrop 1%nat). exact Hrun.
      * destruct (code e =? 117) eqn:Eu; [|discriminate].
        destruct (srun_hex4_inv r1 Hrun)
          as (h1 & h2 & h3 & h4 & r5 & -> & H1 & H2 & H3 & H4).
        change (bytes (String h1 (String h2 (String h3 (String h4 r5)))))
          with (h1 :: h2 :: h3 :: h4 :: bytes r5) in Hrun.
        rewrite (srun_hex4 h1 h2 h3 h4 _ H1 H2 H3 H4) in Hrun.
        unfold json.getu4 at 1. rewrite Eb, Eu, H1, H2, H3, H4.
        cbn [andb].
        destruct (json.IsSurrogate _).
        -- change (drop 6 (String c (String e (String h1 (String h2
                     (String h3 (String h4 r5)))))))
             with r5.
           destruct (json.getu4 r5) as [rr1|] eqn:Eg2.
           ++ destruct (json.utf16_DecodeRune _ rr1 =? utf8.RuneError).
              ** apply (Hdrop 5%nat). exact Hrun.
              ** apply getu4_shape in Eg2
                   as (b' & u' & g1 & g2 & g3 & g4 & r11 & Es & Hb' & Hu'
                       & G1 & G2 & G3 & G4).
                 subst r5. apply (Hdrop 11%nat).
                 change (bytes (String b' (String u' (String g1 (String g2
                           (String g3 (String g4 r11)))))))
                   with (b' :: u' :: g1 :: g2 :: g3 :: g4 :: bytes r11)
                   in Hrun.
                 now rewrite srun_u_escape in Hrun.
           ++ change (utf8.RuneError =? utf8.RuneError) with true.
              apply (Hdrop 5%nat). exact Hrun.
        -- apply (Hdrop 5%nat). exact Hrun.
    + destruct (code c <? 32) eqn:Ec; [discriminate|].
      cbn [orb].
      destruct (code c <? utf8.RuneSelf) eqn:Ea.
      * apply (Hdrop 0%nat). exact Hrun.
      * destruct (utf8.DecodeRune (String c r)) as [rr size] eqn:Ed.
        apply (Hdrop (pred size)).
        exact (skip_rune c r rr size Ed Hrun).
Qed.

(** Decoding never stops at a key or a string of a parsed text. *)
Lemma literal_unquotes (raw : string) :
  literal_ok raw = true -> exists k, json.unquote raw = Some k.
Proof.
  unfold literal_ok, json.unquote. intros H.
  destruct (srun SStr (bytes raw)) as [[| |]|] eqn:Hr; try discriminate.
  destruct (unquote_from_ok (String.length raw) raw (le_n _) Hr) as [out Ho].
  rewrite Ho. now eexists.
Qed.

(** ** Weather bodies that do not decode *)

(** Decoding the members of an object fails exactly when a member that
    names a field has a value that the field refuses, provided that
    refusal does not depend on what the field holds. *)
Lemma decode_members_none {T : Type} (name : string)
    (set : nat -> json.value -> T -> option T) (bad : json.value -> bool)
    (ms : list (string * json.value)) :
  (forall i v old, set i v old = None <-> bad v = true) ->
  forallb (fun kv => literal_ok (fst kv) && well_lexed (snd kv)) ms = true ->
  forall old,
    json.decode_members [name] set ms old = None
    <-> existsb (fun kv => names_field name (fst kv) && bad (snd kv)) ms
        = true.
Proof.
  intros Hset. induction ms as [|[raw v] ms IH]; simpl; intros Hwf old.
  - split; discriminate.
  - apply andb_true_iff in Hwf as [Hraw Hwf].
    apply andb_true_iff in Hraw as [Hraw _].
    destruct (literal_unquotes raw Hraw) as [k Hu].
    unfold names_field at 1. simpl fst. simpl snd. rewrite Hu.
    destruct (json.field_index [name] k) as [i|]; simpl.
    + destruct (set i v old) as [new|] eqn:Es.
      * assert (Hb : bad v = false).
        { destruct (bad v) eqn:Eb; [|reflexivity].
          apply Hset with (i := i) (old := old) in Eb. congruence. }
        rewrite Hb. simpl. apply IH, Hwf.
      * apply Hset in Es. rewrite Es. simpl. tauto.
    + apply IH, Hwf.
Qed.

Lemma decode_temp_c_none (v : json.value) (old : float) :
  json.decode v old = None <-> mistyped_temp_c v = true.
Proof.
  destruct v; try (split; intros _; reflexivity).
  - split; intros H; [cbv in H|]; discriminate H.
  - simpl mistyped_temp_c. unfold json.decode, json.Unmarshaler_float64.
    destruct (strconv.ParseFloat lit); split; congruence.
Qed.

Lemma decode_current_none (j : json.value) (old : Current_) :
  well_lexed j = true ->
  (json.decode j old = None <-> mistyped_current j = true).
Proof.
  destruct j as [| | | | |ms]; intros Hwf;
    try (split; intros _; reflexivity).
  - split; intros H; [cbv in H|]; discriminate H.
  - simpl in Hwf. simpl mistyped_current.
    unfold json.decode, Unmarshaler_Current, json.decode_struct.
    apply decode_members_none; [|exact Hwf].
    intros i v o. rewrite <- (decode_temp_c_none v (TempC_ o)).
    destruct (json.decode v (TempC_ o)); simpl; split; congruence.
Qed.

Lemma decode_reading_none (j : json.value) (old : WeatherAPIResponse) :
  well_lexed j = true ->
  (json.decode j old = None <-> mistyped_reading j = true).
Proof.
  destruct j as [| | | | |ms]; intros Hwf;
    try (split; intros _; reflexivity).
  - split; intros H; [cbv in H|]; discriminate H.
  - simpl in Hwf. simpl mistyped_reading.
    unfold json.decode at 1, Unmarshaler_WeatherAPIResponse,
      json.decode_struct.
    revert old. induction ms as [|[raw v] ms IH]; simpl; intros old.
    + split; discriminate.
    + simpl in Hwf. apply andb_true_iff in Hwf as [Hraw Hwf].
      apply andb_true_iff in Hraw as [Hraw Hv].
      destruct (literal_unquotes raw Hraw) as [k Hu].
      unfold names_field at 1. simpl fst. simpl snd. rewrite Hu.
      destruct (json.field_index ["current"] k) as [i|]; simpl.
      * pose proof (decode_current_none v (Current old) Hv) as Hc.
        destruct (json.decode v (Current old)) as [c|]; simpl.
        -- destruct (mistyped_current v);
             [destruct Hc as [_ Hc]; discriminate (Hc eq_refl)|].
           simpl. apply IH, Hwf.
        -- destruct Hc as [Hc _]. rewrite (Hc eq_refl). simpl. tauto.
      * apply IH, Hwf.
Qed.

(** [json.Unmarshal] into [WeatherAPIResponse] fails exactly on a text
    that is not valid JSON and on a valid text of the wrong type. *)
Lemma Unmarshal_weather_none (wb : string) :
  json.Unmarshal wb zero_WeatherAPIResponse = None
  <-> json.Valid wb = false
      \/ exists j, json.parse wb = Some j /\ mistyped_reading j = true.
Proof.
  unfold json.Unmarshal, json.Valid.
  destruct (json.parse wb) as [j|] eqn:Hj.
  - rewrite (decode_reading_none j _ (parse_well_lexed _ _ Hj)).
    split.
    + intros H. right. now exists j.
    + intros [H | (j' & Hj' & H)]; [discriminate|].
      now inversion Hj'; subst.
  - split; [now left | reflexivity].
Qed.

Lemma decode_lacks_temp_c (j : json.value) (old : Current_) :
  well_lexed j = true -> lacks_temp_c j = true -> json.decode j old = Some old.
Proof.
  destruct j as [| | | | |ms]; try discriminate; [reflexivity|].
  simpl. unfold json.decode, Unmarshaler_Current, json.decode_struct.
  induction ms as [|[raw v] ms IH]; simpl; intros Hwf H; [reflexivity|].
  apply andb_true_iff in H as [Hk Hms].
  apply andb_true_iff in Hwf as [Hraw Hwf].
  apply andb_true_iff in Hraw as [Hraw _].
  destruct (literal_unquotes raw Hraw) as [k Hu].
  unfold names_field in Hk. rewrite Hu in *.
  destruct (json.field_index ["temp_c"] k) as [i|].
  - simpl in Hk. destruct v; try discriminate.
    simpl. destruct old. apply IH; assumption.
  - apply IH; assumption.
Qed.

Lemma decode_lacks_reading (j : json.value) (old : WeatherAPIResponse) :
  well_lexed j = true -> lacks_reading j = true ->
  json.decode j old = Some old.
Proof.
  destruct j as [| | | | |ms]; try discriminate; [reflexivity|].
  simpl. unfold json.decode at 1, Unmarshaler_WeatherAPIResponse,
    json.decode_struct.
  induction ms as [|[raw v] ms IH]; simpl; intros Hwf H; [reflexivity|].
  apply andb_true_iff in H as [Hk Hms].
  apply andb_true_iff in Hwf as [Hraw Hwf].
  apply andb_true_iff in Hraw as [Hraw Hv].
  destruct (literal_unquotes raw Hraw) as [k Hu].
  unfold names_field in Hk. rewrite Hu in *.
  destruct (json.field_index ["current"] k) as [i|].
  - simpl in Hk. rewrite (decode_lacks_temp_c v (Current old) Hv Hk).
    simpl. destruct old. apply IH; assumption.
  - apply IH; assumption.
Qed.

(** ** Names that pass through decoding and encoding unchanged *)

Lemma code_range (c : ascii) : 0 <= code c < 256.
Proof.
  unfold code. pose proof (N_ascii_bounded c) as H. lia.
Qed.

Lemma chr_code (c : ascii) : chr (code c) = c.
Proof.
  unfold chr, code. rewrite N2Z.id. apply ascii_N_embedding.
Qed.

Lemma chr_eq (z : Z) (c : ascii) : z = code c -> chr z = c.
Proof. intros ->. apply chr_code. Qed.

Ltac bool_to_Z :=
  repeat match goal with
         | E : _ && _ = true |- _ => apply andb_true_iff in E as [? ?]
         | E : _ || _ = false |- _ => apply orb_false_iff in E as [? ?]
         | E : (_ <=? _) = true |- _ => apply Z.leb_le in E
         | E : (_ <=? _) = false |- _ => apply Z.leb_gt in E
         | E : (_ <? _) = true |- _ => apply Z.ltb_lt in E
         | E : (_ <? _) = false |- _ => apply Z.ltb_ge in E
         | E : (_ =? _) = true |- _ => apply Z.eqb_eq in E
         | E : (_ =? _) = false |- _ => apply Z.eqb_neq in E
         end.

Lemma EncodeRune_1 (r : Z) : 0 <= r < 128 -> utf8.EncodeRune r = [chr r].
Proof.
  intros H. unfold utf8.EncodeRune, utf8.RuneError.
  destruct ((r <? 0) || (1114111 <? r) || (55296 <=? r) && (r <=? 57343))
    eqn:E.
  - exfalso. apply orb_true_iff in E as [E | E].
    + apply orb_true_iff in E as [E | E]; bool_to_Z; lia.
    + bool_to_Z; lia.
  - destruct (r <? 128) eqn:E1; [reflexivity | bool_to_Z; lia].
Qed.

Lemma EncodeRune_2 (r : Z) :
  128 <= r < 2048 ->
  utf8.EncodeRune r = [chr (192 + r / 64); chr (128 + r mod 64)].
Proof.
  intros H. unfold utf8.EncodeRune, utf8.RuneError.
  destruct ((r <? 0) || (1114111 <? r) || (55296 <=? r) && (r <=? 57343))
    eqn:E.
  - exfalso. apply orb_true_iff in E as [E | E].
    + apply orb_true_iff in E as [E | E]; bool_to_Z; lia.
    + bool_to_Z; lia.
  - destruct (r <? 128) eqn:E1; [bool_to_Z; lia|].
    destruct (r <? 2048) eqn:E2; [reflexivity | bool_to_Z; lia].
Qed.

Lemma EncodeRune_3 (r : Z) :
  2048 <= r < 65536 -> ~ 55296 <= r <= 57343 ->
  utf8.EncodeRune r
  = [chr (224 + r / 4096); chr (128 + (r / 64) mod 64); chr (128 + r mod 64)].
Proof.
  intros H Hs. unfold utf8.EncodeRune, utf8.RuneError.
  destruct ((r <? 0) || (1114111 <? r) || (55296 <=? r) && (r <=? 57343))
    eqn:E.
  - exfalso. apply orb_true_iff in E as [E | E].
    + apply orb_true_iff in E as [E | E]; bool_to_Z; lia.
    + bool_to_Z; lia.
  - destruct (r <? 128) eqn:E1; [bool_to_Z; lia|].
    destruct (r <? 2048) eqn:E2; [bool_to_Z; lia|].
    destruct (r <? 65536) eqn:E3; [reflexivity | bool_to_Z; lia].
Qed.

Lemma EncodeRune_4 (r : Z) :
  65536 <= r <= 1114111 ->
  utf8.EncodeRune r
  = [chr (240 + r / 262144); chr (128 + (r / 4096) mod 64);
     chr (128 + (r / 64) mod 64); chr (128 + r mod 64)].
Proof.
  intros H. unfold utf8.EncodeRune, utf8.RuneError.
  destruct ((r <? 0) || (1114111 <? r) || (55296 <=? r) && (r <=? 57343))
    eqn:E.
  - exfalso. apply orb_true_iff in E as [E | E].
    + apply orb_true_iff in E as [E | E]; bool_to_Z; lia.
    + bool_to_Z; lia.
  - destruct (r <? 128) eqn:E1; [bool_to_Z; lia|].
    destruct (r <? 2048) eqn:E2; [bool_to_Z; lia|].
    destruct (r <? 65536) eqn:E3; [bool_to_Z; lia | reflexivity].
Qed.

(** [utf8.EncodeRune] undoes [utf8.DecodeRune] on a valid encoding. *)
Lemma Encode_Decode (s : string) (rr : Z) (size : nat) :
  utf8.DecodeRune s = (rr, size) ->
  (rr =? utf8.RuneError) && (size =? 1)%nat = false ->
  s <> EmptyString ->
  utf8.EncodeRune rr = bytes (take size s).
Proof.
  unfold utf8.DecodeRune, utf8.cont, in_range, utf8.RuneError. cbv zeta.
  intros H Hne Hs. destruct s as [|b0 r]; [congruence|]. clear Hs.
  pose proof (code_range b0) as R0.
  repeat match type of H with
         | (if ?b then _ else _) = _ => destruct b eqn:?
         | (match ?s with EmptyString => _ | String _ _ => _ end) = _ =>
             destruct s
         end;
    inversion H; subst; clear H;
    try (simpl in Hne; discriminate Hne);
    repeat match goal with
           | H : context [if code b0 =? ?k then _ else _] |- _ =>
               let E := fresh "E" in
               destruct (code b0 =? k) eqn:E; rewrite ?E in *
           end;
    bool_to_Z; simpl take; simpl bytes.
  all: first
    [ rewrite EncodeRune_1 by lia; now rewrite chr_code
    | rewrite EncodeRune_2 by lia;
      f_equal; [|f_equal]; apply chr_eq; Z.div_mod_to_equations; lia
    | rewrite EncodeRune_3 by lia;
      f_equal; [|f_equal; [|f_equal]]; apply chr_eq;
      Z.div_mod_to_equations; lia
    | rewrite EncodeRune_4 by lia;
      f_equal; [|f_equal; [|f_equal; [|f_equal]]]; apply chr_eq;
      Z.div_mod_to_equations; lia ].
Qed.

Lemma str_bytes (s : string) : str (bytes s) = s.
Proof. apply string_of_list_ascii_of_string. Qed.

Lemma take_drop (k : nat) : forall s, take k s +++ drop k s = s.
Proof.
  induction k as [|k IH]; intros s; [reflexivity|].
  destruct s as [|c r]; [reflexivity|]. simpl. now rewrite IH.
Qed.

Lemma DecodeRune_size (s : string) (rr : Z) (size : nat) :
  utf8.DecodeRune s = (rr, size) -> s <> EmptyString ->
  exists k, size = S k.
Proof.
  unfold utf8.DecodeRune. cbv zeta. intros H Hs.
  destruct s as [|b0 r]; [congruence|].
  repeat match type of H with
         | (if ?b then _ else _) = _ => destruct b
         | (match ?s with EmptyString => _ | String _ _ => _ end) = _ =>
             destruct s
         end;
    inversion H; subst; now eexists.
Qed.

Lemma verbatim_from_skip (k : nat) :
  forall s, verbatim_from k s = verbatim_from 0 (drop k s).
Proof.
  induction k as [|k IH]; intros s; [reflexivity|].
  destruct s as [|c r]; [reflexivity|]. simpl drop. rewrite <- IH.
  reflexivity.
Qed.

Lemma quote_from_skip (k : nat) :
  forall s, json.quote_from k s = json.quote_from 0 (drop k s).
Proof.
  induction k as [|k IH]; intros s; [reflexivity|].
  destruct s as [|c r]; [reflexivity|]. simpl drop. rewrite <- IH.
  reflexivity.
Qed.

(** What one step does on a verbatim character: the decoder and the
    encoder both write its bytes and move past it. *)
Lemma verbatim_step_spec (c : ascii) (r : string) (k : nat) :
  verbatim_step (String c r) = Some k ->
  json.unquote_step (String c r) = Some (bytes (take (S k) (String c r)), k)
  /\ json.quote_step (String c r) = (bytes (take (S k) (String c r)), k).
Proof.
  unfold verbatim_step, json.unquote_step, json.quote_step. cbv zeta.
  destruct (code c <? utf8.RuneSelf) eqn:Ea.
  - destruct ((code c <? 32) || (code c =? 34) || (code c =? 92)
              || (code c =? 60) || (code c =? 62) || (code c =? 38)) eqn:E;
      [discriminate|].
    intros H. inversion H; subst. clear H.
    repeat (apply orb_false_iff in E as [E ?]).
    assert (E92 : (code c =? 92) = false) by assumption.
    assert (E34 : (code c =? 34) = false) by assumption.
    rewrite E92, E34, E. simpl orb. cbv iota.
    assert (E8 : (code c =? 8) = false) by (bool_to_Z; apply Z.eqb_neq; lia).
    assert (E12 : (code c =? 12) = false) by (bool_to_Z; apply Z.eqb_neq; lia).
    assert (E10 : (code c =? 10) = false) by (bool_to_Z; apply Z.eqb_neq; lia).
    assert (E13 : (code c =? 13) = false) by (bool_to_Z; apply Z.eqb_neq; lia).
    assert (E9 : (code c =? 9) = false) by (bool_to_Z; apply Z.eqb_neq; lia).
    rewrite E8, E12, E10, E13, E9.
    repeat match goal with
           | H : (code c =? _) = false |- _ => rewrite H
           end.
    simpl. split; reflexivity.
  - assert (E92 : (code c =? 92) = false)
      by (unfold utf8.RuneSelf in Ea; bool_to_Z; apply Z.eqb_neq; lia).
    assert (E34 : (code c =? 34) = false)
      by (unfold utf8.RuneSelf in Ea; bool_to_Z; apply Z.eqb_neq; lia).
    assert (E32 : (code c <? 32) = false)
      by (unfold utf8.RuneSelf in Ea; bool_to_Z; apply Z.ltb_ge; lia).
    rewrite E92, E34, E32. simpl orb. cbv iota.
    destruct (utf8.DecodeRune (String c r)) as [rr size] eqn:Ed.
    destruct ((rr =? utf8.RuneError) && (size =? 1)%nat) eqn:Er;
      [discriminate|].
    destruct ((rr =? 8232) || (rr =? 8233)) eqn:Eu; [discriminate|].
    intros H. inversion H; subst. clear H.
    destruct (DecodeRune_size _ _ _ Ed) as [k ->]; [discriminate|].
    simpl pred.
    rewrite (Encode_Decode _ _ _ Ed Er) by discriminate.
    split; reflexivity.
Qed.

Lemma verbatim_passes (n : nat) :
  forall s, (String.length s <= n)%nat -> verbatim_from 0 s = true ->
            json.unquote_from 0 s = Some (bytes s)
            /\ json.quote_from 0 s = bytes s.
Proof.
  induction n as [|n IH]; intros s Hlen Hv.
  - destruct s; [now split | simpl in Hlen; lia].
  - destruct s as [|c r]; [now split|].
    simpl in Hlen.
    change (verbatim_from 0 (String c r))
      with (match verbatim_step (String c r) with
            | Some k => verbatim_from k r
            | None => false
            end) in Hv.
    destruct (verbatim_step (String c r)) as [k|] eqn:Es; [|discriminate].
    destruct (verbatim_step_spec c r k Es) as [Hu Hq].
    rewrite verbatim_from_skip in Hv.
    destruct (IH (drop k r)) as [IHu IHq];
      [pose proof (drop_length k r); lia | exact Hv |].
    change (json.unquote_from 0 (String c r))
      with (match json.unquote_step (String c r) with
            | Some (out, k) =>
                match json.unquote_from k r with
                | Some more => Some (out ++ more)
                | None => None
                end
            | None => None
            end).
    change (json.quote_from 0 (String c r))
      with (let '(out, k) := json.quote_step (String c r) in
            out ++ json.quote_from k r).
    rewrite Hu, Hq, unquote_from_skip, quote_from_skip, IHu, IHq.
    rewrite <- bytes_app.
    change (take (S k) (String c r)) with (String c (take k r)).
    change (String c (take k r) +++ drop k r)
      with (String c (take k r +++ drop k r)).
    rewrite take_drop. now split.
Qed.

(** A verbatim name is decoded to itself and encoded as itself between
    quotes: nothing is folded, normalised or escaped. *)
Lemma unquote_verbatim (s : string) :
  verbatim s = true -> json.unquote s = Some s.
Proof.
  intros H. unfold json.unquote.
  destruct (verbatim_passes _ s (le_n _) H) as [Hu _].
  rewrite Hu. simpl. now rewrite str_bytes.
Qed.

Lemma appendString_verbatim (s : string) :
  verbatim s = true -> json.appendString s = quoted s.
Proof.
  intros H. unfold json.appendString, quoted.
  destruct (verbatim_passes _ s (le_n _) H) as [_ Hq].
  rewrite Hq, str_bytes. reflexivity.
Qed.

Lemma forallb_bytes_app (f : ascii -> bool) (a b : string) :
  forallb f (bytes (a +++ b)) = forallb f (bytes a) && forallb f (bytes b).
Proof. rewrite bytes_app. apply forallb_app. Qed.

(** The bytes after the first of a multi-byte encoding are all above the
    ASCII range. *)
Lemma DecodeRune_tail (c : ascii) (r : string) (rr : Z) (k : nat) :
  utf8.DecodeRune (String c r) = (rr, S k) ->
  forallb (fun b => 128 <=? code b) (bytes (take k r)) = true.
Proof.
  unfold utf8.DecodeRune, utf8.cont, in_range. cbv zeta. intros H.
  repeat match type of H with
         | (if ?b then _ else _) = _ => destruct b eqn:?
         | (match ?s with EmptyString => _ | String _ _ => _ end) = _ =>
             destruct s
         end;
    inversion H; subst; clear H; try reflexivity;
    repeat match goal with
           | H : context [if code c =? ?k then _ else _] |- _ =>
               let E := fresh "E" in
               destruct (code c =? k) eqn:E; rewrite ?E in *
           end;
    bool_to_Z; simpl;
    repeat (apply andb_true_iff; split); try reflexivity;
    apply Z.leb_le; lia.
Qed.

Lemma high_literal_bytes (l : list ascii) :
  forallb (fun b => 128 <=? code b) l = true ->
  forallb literal_byte l = true.
Proof.
  induction l as [|b l IH]; simpl; intros H; [reflexivity|].
  apply andb_true_iff in H as [Hb Hl]. rewrite (IH Hl), andb_true_r.
  unfold literal_byte. apply Z.leb_le in Hb. apply negb_true_iff.
  repeat (apply orb_false_iff; split);
    [apply Z.eqb_neq | apply Z.eqb_neq | apply Z.ltb_ge]; lia.
Qed.

Lemma verbatim_literal_bytes (n : nat) :
  forall s, (String.length s <= n)%nat -> verbatim_from 0 s = true ->
            forallb literal_byte (bytes s) = true.
Proof.
  induction n as [|n IH]; intros s Hlen Hv.
  - destruct s; [reflexivity | simpl in Hlen; lia].
  - destruct s as [|c r]; [reflexivity|].
    simpl in Hlen.
    change (verbatim_from 0 (String c r))
      with (match verbatim_step (String c r) with
            | Some k => verbatim_from k r
            | None => false
            end) in Hv.
    destruct (verbatim_step (String c r)) as [k|] eqn:Es; [|discriminate].
    rewrite verbatim_from_skip in Hv.
    assert (Hrest : forallb literal_byte (bytes (drop k r)) = true)
      by (apply IH; [pose proof (drop_length k r); lia | exact Hv]).
    rewrite <- (take_drop k r).
    change (bytes (String c (take k r +++ drop k r)))
      with (c :: bytes (take k r +++ drop k r)).
    simpl forallb. rewrite forallb_bytes_app, Hrest, andb_true_r.
    unfold verbatim_step in Es. cbv zeta in Es.
    destruct (code c <? utf8.RuneSelf) eqn:Ea.
    + destruct ((code c <? 32) || (code c =? 34) || (code c =? 92)
                || (code c =? 60) || (code c =? 62) || (code c =? 38)) eqn:E;
        [discriminate|].
      inversion Es; subst. simpl take. simpl. rewrite andb_true_r.
      repeat (apply orb_false_iff in E as [E ?]).
      unfold literal_byte. apply negb_true_iff.
      repeat (apply orb_false_iff; split); assumption.
    + destruct (utf8.DecodeRune (String c r)) as [rr size] eqn:Ed.
      destruct ((rr =? utf8.RuneError) && (size =? 1)%nat); [discriminate|].
      destruct ((rr =? 8232) || (rr =? 8233)); [discriminate|].
      inversion Es; subst. clear Es.
      destruct (DecodeRune_size _ _ _ Ed) as [k Hk]; [discriminate|].
      subst size. simpl pred.
      rewrite (high_literal_bytes _ (DecodeRune_tail c r rr k Ed)).
      rewrite andb_true_r. unfold literal_byte. apply negb_true_iff.
      unfold utf8.RuneSelf in Ea. bool_to_Z.
      repeat (apply orb_false_iff; split);
        [apply Z.eqb_neq | apply Z.eqb_neq | apply Z.ltb_ge]; lia.
Qed.

(** The lexer reads literal bytes into the string it is in. *)
Lemma lex_literal (s : string) :
  forallb literal_byte (bytes s) = true ->
  forall acc rest,
    json.lex_from (json.LStr acc) (s +++ rest)
    = json.lex_from (json.LStr (rev (bytes s) ++ acc)) rest.
Proof.
  induction s as [|c s IH]; intros H acc rest; [reflexivity|].
  simpl in H. apply andb_true_iff in H as [Hc Hs].
  unfold literal_byte in Hc. apply negb_true_iff in Hc.
  apply orb_false_iff in Hc as [Hc E32].
  apply orb_false_iff in Hc as [E34 E92].
  change ((String c s) +++ rest) with (String c (s +++ rest)).
  change (json.lex_from (json.LStr acc) (String c (s +++ rest)))
    with (match json.lex_step (json.LStr acc) c with
          | Some (st', toks) =>
              match json.lex_from st' (s +++ rest) with
              | Some more => Some (toks ++ more)
              | None => None
              end
          | None => None
          end).
  unfold json.lex_step. rewrite E34, E92, E32.
  rewrite (IH Hs). simpl bytes. simpl rev. rewrite <- app_assoc. simpl.
  now destruct (json.lex_from _ rest).
Qed.

Lemma lex_from_app (a : string) :
  forall st b,
    json.lex_from st (a +++ b)
    = match lex_run st a with
      | Some (st', toks) =>
          match json.lex_from st' b with
          | Some more => Some (toks ++ more)
          | None => None
          end
      | None => None
      end.
Proof.
  induction a as [|c a IH]; intros st b; simpl.
  - now destruct (json.lex_from st b).
  - destruct (json.lex_step st c) as [[st' toks]|]; [|reflexivity].
    rewrite IH. destruct (lex_run st' a) as [[st'' more]|]; [|reflexivity].
    destruct (json.lex_from st'' b); [|reflexivity].
    now rewrite app_assoc.
Qed.

(** A geocode answer that names a locality with a verbatim name decodes to
    that very name. *)
Lemma Unmarshal_locality (name : string) :
  verbatim name = true ->
  json.Unmarshal (locality_body name) zero_ViaCEPResponse
  = Some {| Localidade := name; Erro := false |}.
Proof.
  intros Hv.
  pose proof (verbatim_literal_bytes _ name (le_n _) Hv) as Hl.
  unfold json.Unmarshal, json.parse, json.lex, locality_body.
  rewrite lex_from_app.
  change (lex_run json.LStart (q "{'localidade': '"))
    with (Some (json.LStr [],
                [json.TLBrace; json.TString "localidade"; json.TColon])).
  cbv beta iota.
  rewrite (lex_literal name Hl). rewrite app_nil_r.
  change (json.lex_from (json.LStr (rev (bytes name))) (q "'}"))
    with (Some [json.TString (str (rev (rev (bytes name)))); json.TRBrace]).
  cbv beta iota.
  rewrite rev_involutive, str_bytes.
  cbn [List.app].
  assert (Hp : json.parse_from json.MValue []
                 [json.TLBrace; json.TString "localidade"; json.TColon;
                  json.TString name; json.TRBrace]
               = Some (json.Object [("localidade", json.String_ name)]))
    by reflexivity.
  rewrite Hp.
  unfold json.decode at 1, Unmarshaler_ViaCEPResponse, json.decode_struct.
  unfold json.decode_members.
  change (json.unquote "localidade") with (Some "localidade").
  change (json.field_index ["localidade"; "erro"] "localidade")
    with (Some 0%nat).
  cbv beta iota.
  unfold json.decode, json.Unmarshaler_string.
  rewrite (unquote_verbatim name Hv). reflexivity.
Qed.

(** ** C1: unit conversion and the success body *)

(** C1, as stated, fails on the Kelvin offset: the handler adds 273, not
    273.15.  At 25 degrees Celsius it computes 298, and the success body
    of the example of the specification ends in [298], not [298.15]. *)
Lemma C1_kelvin_counterexample :
  TempK (convert "São Paulo" 25) <> (25 + 273.15)%float
  /\ body (handler (net_of body_sao_paulo body_25) app_test
             (request "/01001000"))
     <> q "{'city':'São Paulo','temp_C':25,'temp_F':77,'temp_K':298.15}".
Proof.
  split.
  - apply float_neq. vm_compute. discriminate.
  - vm_compute. discriminate.
Qed.

(** C1 (amended): on the success path the response carries the Celsius
    value [c] read from the weather body, [c * 1.8 + 32] as Fahrenheit and
    [c + 273] as Kelvin (binary64 arithmetic); the status is 200 and the
    body is the JSON text of these four fields followed by a line feed
    (empty when the Fahrenheit value overflows and cannot be encoded).  In
    particular, for the locality [São Paulo] and 25 degrees the body is
    the text with 25, 77 and 298. *)
Theorem C1_conversion (net : http.Transport) (a : app) (r : Request)
    (cep : string) (d : ViaCEPResponse) (wb : string)
    (wd : WeatherAPIResponse) :
  validated r cep ->
  geocoded net cep d ->
  located d ->
  weather_answered net a d wb ->
  json.Unmarshal wb zero_WeatherAPIResponse = Some wd ->
  let c := TempC_ (Current wd) in
  let resp := {| City := Localidade d; TempC := c;
                 TempF := (c * 1.8 + 32)%float;
                 TempK := (c + 273)%float |} in
  let s := handler net a r in
  status s = Some http.StatusOK
  /\ In (Log "Response for CEP %s: %+v" [AStr cep; AResp resp]) (events s)
  /\ body s = match json.encode resp with
              | Some text => text +++ http.newline
              | None => ""
              end
  /\ (Localidade d = "São Paulo" -> c = 25%float ->
      body s = q "{'city':'São Paulo','temp_C':25,'temp_F':77,'temp_K':298}"
               +++ http.newline).
Proof.
  intros Hv (resp & Hnet & Hdec) Hloc (Hparse & wresp & Hwnet & Hwb) Hw c.
  use_validated Hv. apply located_test in Hloc. subst wb.
  assert (Hbody :
    body (handler net a r)
    = match json.encode (convert (Localidade d) c) with
      | Some text => text +++ http.newline
      | None => ""
      end).
  { follow. change (TempC_ (Current wd)) with c.
    destruct (json.encode (convert (Localidade d) c)); reflexivity. }
  cbv zeta. fold c. change {| City := Localidade d; TempC := c;
                 TempF := (c * 1.8 + 32)%float;
                 TempK := (c + 273)%float |} with (convert (Localidade d) c).
  repeat split.
  - follow. destruct (json.encode _); reflexivity.
  - follow. destruct (json.encode _); run; simpl; tauto.
  - exact Hbody.
  - intros HL Hc. rewrite Hbody, HL, Hc. vm_compute. reflexivity.
Qed.

Lemma C1_conversion_witness :
  validated (request "/01001000") "01001000"
  /\ geocoded (net_of body_sao_paulo body_25) "01001000"
       {| Localidade := "São Paulo"; Erro := false |}
  /\ located {| Localidade := "São Paulo"; Erro := false |}
  /\ weather_answered (net_of body_sao_paulo body_25) app_test
       {| Localidade := "São Paulo"; Erro := false |} body_25
  /\ json.Unmarshal body_25 zero_WeatherAPIResponse
     = Some {| Current := {| TempC_ := 25%float |} |}
  /\ body (handler (net_of body_sao_paulo body_25) app_test
             (request "/01001000"))
     = q "{'city':'São Paulo','temp_C':25,'temp_F':77,'temp_K':298}"
       +++ http.newline.
Proof.
  assert (Hv : validated (request "/01001000") "01001000")
    by (split; reflexivity).
  assert (Hg : geocoded (net_of body_sao_paulo body_25) "01001000"
                 {| Localidade := "São Paulo"; Erro := false |})
    by (eexists; split; [reflexivity | vm_compute; reflexivity]).
  assert (Hl : located {| Localidade := "São Paulo"; Erro := false |})
    by (split; [reflexivity | discriminate]).
  assert (Hw : weather_answered (net_of body_sao_paulo body_25) app_test
                 {| Localidade := "São Paulo"; Erro := false |} body_25)
    by (split; [reflexivity | eexists; split; reflexivity]).
  assert (Hu : json.Unmarshal body_25 zero_WeatherAPIResponse
               = Some {| Current := {| TempC_ := 25%float |} |})
    by (vm_compute; reflexivity).
  repeat (split; [assumption|]).
  exact (proj2 (proj2 (proj2
           (C1_conversion _ _ _ _ _ _ _ Hv Hg Hl Hw Hu))) eq_refl eq_refl).
Defined.

(** ** C2: rejection of a malformed postal code *)

(** C2, as stated, fails on the body: it is not the bare text
    [invalid zipcode].  For the five-digit code 12345 the handler writes
    that text followed by a line feed. *)
Lemma C2_body_counterexample :
  eight_ascii_digits "12345" = false
  /\ body (handler net_down app_test (request "/12345")) <> "invalid zipcode".
Proof. split; [reflexivity | vm_compute; discriminate]. Qed.

(** C2 (amended): for every input string that is not exactly 8 ASCII
    digits the handler answers 422 with the body [invalid zipcode] followed
    by one line feed, makes no outbound call (neither provider is
    contacted), and does not panic. *)
Theorem C2_invalid_zipcode (net : http.Transport) (a : app) (r : Request)
    (cep : string) :
  cep_of r = Some cep ->
  eight_ascii_digits cep = false ->
  let s := handler net a r in
  status s = Some http.StatusUnprocessableEntity
  /\ body s = "invalid zipcode" +++ http.newline
  /\ calls (events s) = []
  /\ panicked s = false.
Proof.
  intros Hcep Hbad. rewrite <- MatchString_spec in Hbad.
  apply cep_of_path in Hcep as [c Hpath].
  follow. repeat split.
Qed.

Lemma C2_invalid_zipcode_witness :
  cep_of (request "/1234567a") = Some "1234567a"
  /\ eight_ascii_digits "1234567a" = false
  /\ status (handler net_down app_test (request "/1234567a"))
     = Some http.StatusUnprocessableEntity
  /\ body (handler net_down app_test (request "/1234567a"))
     = "invalid zipcode" +++ http.newline.
Proof.
  split; [reflexivity | split; [reflexivity|]].
  pose proof (C2_invalid_zipcode net_down app_test (request "/1234567a")
                "1234567a" eq_refl eq_refl) as H.
  cbv zeta in H. destruct H as (H1 & H2 & _). split; assumption.
Defined.

(** ** C3: a postal code the geocode provider does not know *)

(** C3: for every validated request whose geocode call returns a decodable
    body with the error flag set or an empty locality name, the handler
    answers 404 with the body [can not find zipcode] and a line feed; the
    geocode call is the only outbound call and no weather span is ever
    started. *)
Theorem C3_zipcode_not_found (net : http.Transport) (a : app) (r : Request)
    (cep : string) (d : ViaCEPResponse) :
  validated r cep ->
  geocoded net cep d ->
  Erro d = true \/ Localidade d = "" ->
  let s := handler net a r in
  status s = Some http.StatusNotFound
  /\ body s = "can not find zipcode" +++ http.newline
  /\ urls_called s = [viaCepURL cep]
  /\ started "call-weather-api" (events s) = 0%nat
  /\ panicked s = false.
Proof.
  intros Hv (resp & Hnet & Hdec) Hmiss.
  use_validated Hv. apply not_located_test in Hmiss.
  follow. repeat split.
Qed.

Lemma C3_zipcode_not_found_witness :
  validated (request "/01001003") "01001003"
  /\ geocoded (net_of (q "{'erro': true}") "") "01001003"
       {| Localidade := ""; Erro := true |}
  /\ status (handler (net_of (q "{'erro': true}") "") app_test
               (request "/01001003")) = Some http.StatusNotFound
  /\ body (handler (net_of (q "{'erro': true}") "") app_test
             (request "/01001003")) = "can not find zipcode" +++ http.newline
  /\ urls_called (handler (net_of (q "{'erro': true}") "") app_test
                    (request "/01001003")) = [viaCepURL "01001003"].
Proof.
  assert (Hv : validated (request "/01001003") "01001003")
    by (split; reflexivity).
  assert (Hg : geocoded (net_of (q "{'erro': true}") "") "01001003"
                 {| Localidade := ""; Erro := true |})
    by (eexists; split; [reflexivity | vm_compute; reflexivity]).
  split; [exact Hv | split; [exact Hg|]].
  destruct (C3_zipcode_not_found _ app_test _ _ _ Hv Hg (or_introl eq_refl))
    as (H1 & H2 & H3 & _).
  repeat split; assumption.
Defined.

(** The second geocode answer named by the specification, an empty
    locality, is rejected the same way. *)
Example not_found_empty_locality :
  let s := handler (net_of (q "{'localidade': ''}") "") app_test
             (request "/01001003") in
  status s = Some 404 /\ body s = "can not find zipcode" +++ http.newline
  /\ urls_called s = ["https://viacep.com.br/ws/01001003/json/"].
Proof. vm_compute. repeat split. Qed.

(** ** C4: transport and decode failures *)

(** C4, as stated, fails: the body of a server error is not generic, it
    names the stage that failed.  A transport error of the geocode call
    and one of the weather call give different bodies. *)
Lemma C4_stage_in_body_counterexample :
  body (handler net_down app_test (request "/01001000"))
  = "error fetching from ViaCEP" +++ http.newline
  /\ body (handler (net_weather_down body_sao_paulo) app_test
             (request "/01001000"))
     = "error fetching from WeatherAPI" +++ http.newline
  /\ body (handler net_down app_test (request "/01001000"))
     <> body (handler (net_weather_down body_sao_paulo) app_test
                (request "/01001000")).
Proof. vm_compute. repeat split. discriminate. Qed.

(** C4 (amended): for every transport error or non-decodable body at
    either stage the handler answers 500 with exactly one plain-text line,
    and that line names the failing stage and the kind of failure; the
    same is written to the log. *)
Theorem C4_upstream_failure (net : http.Transport) (a : app) (r : Request)
    (st : stage) (k : failure_kind) :
  fails net a r st k ->
  let s := handler net a r in
  status s = Some http.StatusInternalServerError
  /\ body s = failure_line st k +++ http.newline
  /\ one_line (body s) = true
  /\ In ("Content-Type", "text/plain; charset=utf-8")
       (http.Header (response s))
  /\ (exists args, In (Log (failure_log st k) args) (events s))
  /\ panicked s = false.
Proof.
  intros H.
  destruct H as [cep err Hv Hnet
                | cep resp Hv Hnet Hdec
                | cep err d Hv (resp & Hnet & Hdec) Hloc Hparse Hwnet
                | cep wb d Hv (resp & Hnet & Hdec) Hloc
                    (Hparse & wresp & Hwnet & Hwb) Hw];
    use_validated Hv; try apply located_test in Hloc; try subst wb;
    follow;
    (repeat split;
     [ simpl; tauto
     | eexists; simpl; repeat (try (left; reflexivity); right) ]).
Qed.

Lemma C4_upstream_failure_witness :
  fails net_down app_test (request "/01001000") Geocode Transport
  /\ status (handler net_down app_test (request "/01001000")) = Some 500
  /\ body (handler net_down app_test (request "/01001000"))
     = "error fetching from ViaCEP" +++ http.newline.
Proof.
  assert (Hf : fails net_down app_test (request "/01001000") Geocode Transport).
  { apply (geocode_transport _ _ _ "01001000" "connection refused");
      [split|]; reflexivity. }
  split; [exact Hf|].
  destruct (C4_upstream_failure _ _ _ _ _ Hf) as (H1 & H2 & _).
  split; assumption.
Defined.

(** ** C5: order and number of the outbound calls *)

(** C5: in every request each provider is called at most once and the
    geocode call comes first; the weather call is made only after the
    geocode call has returned a response that decodes to a located postal
    code; and a transport failure of the geocode call gives a 500 without
    the weather call or its span. *)
Theorem C5_sequential_calls (net : http.Transport) (a : app) (r : Request) :
  let s := handler net a r in
  (urls_called s = []
   \/ (exists cep, validated r cep /\ urls_called s = [viaCepURL cep])
   \/ (exists cep d, validated r cep /\ geocoded net cep d /\ located d
                     /\ urls_called s = [viaCepURL cep; weather_url a d]))
  /\ NoDup (urls_called s)
  /\ (forall cep err,
        validated r cep -> net (viaCepURL cep) = http.DoErr err ->
        status s = Some http.StatusInternalServerError
        /\ urls_called s = [viaCepURL cep]
        /\ started "call-weather-api" (events s) = 0%nat)
  /\ (forall rq, In rq (calls (events s)) ->
        HasPrefix (out_url rq) "http://api.weatherapi.com/" = true ->
        exists cep d, geocoded net cep d /\ located d
                      /\ urls_called s = [viaCepURL cep; out_url rq]).
Proof.
  cbv zeta. split; [apply calls_shape | split; [|split]].
  - destruct (calls_shape net a r) as [H | [(cep & _ & H) | (cep & d & _ & _ & _ & H)]];
      rewrite H.
    + constructor.
    + constructor; [simpl; tauto | constructor].
    + apply NoDup_two, urls_differ.
  - intros cep err Hv Hnet. use_validated Hv. follow. repeat split.
  - intros rq Hin Hpre.
    assert (Hurl : In (out_url rq) (urls_called (handler net a r)))
      by (unfold urls_called; now apply in_map).
    destruct (calls_shape net a r)
      as [H | [(cep & _ & H) | (cep & d & _ & Hg & Hl & H)]];
      rewrite H in Hurl |- *; simpl in Hurl.
    + contradiction.
    + destruct Hurl as [E | []]. rewrite <- E in Hpre.
      unfold viaCepURL in Hpre. simpl in Hpre. discriminate.
    + destruct Hurl as [E | [E | []]].
      * rewrite <- E in Hpre. unfold viaCepURL in Hpre. simpl in Hpre.
        discriminate.
      * exists cep, d. rewrite <- E. auto.
Qed.

(** ** C6: the locality name is passed through *)

(** C6: on the success path the decoded locality name of the geocode
    answer is the [City] of the response as it is, the body is the JSON
    text of that response, and the weather call is made to the URL whose
    [q] parameter is the [url.QueryEscape] of that name.  Nothing is
    folded or normalised on the way: when the geocode answer names the
    locality by a verbatim name (any case, any diacritics, in UTF-8), the
    decoded name is that name byte for byte, and the body holds it
    unchanged between quotes. *)
Theorem C6_locality_passthrough (net : http.Transport) (a : app)
    (r : Request) (cep : string) (d : ViaCEPResponse) (wb : string)
    (wd : WeatherAPIResponse) :
  validated r cep ->
  geocoded net cep d ->
  located d ->
  weather_answered net a d wb ->
  json.Unmarshal wb zero_WeatherAPIResponse = Some wd ->
  let s := handler net a r in
  let resp := convert (Localidade d) (TempC_ (Current wd)) in
  City resp = Localidade d
  /\ In (Log "Response for CEP %s: %+v" [AStr cep; AResp resp]) (events s)
  /\ (forall tc tf tk,
        json.encode (TempC resp) = Some tc ->
        json.encode (TempF resp) = Some tf ->
        json.encode (TempK resp) = Some tk ->
        body s = (q "{'city':" +++ json.appendString (Localidade d)
                  +++ q ",'temp_C':" +++ tc +++ q ",'temp_F':" +++ tf
                  +++ q ",'temp_K':" +++ tk +++ "}") +++ http.newline)
  /\ urls_called s
     = [viaCepURL cep;
        "http://api.weatherapi.com/v1/current.json?key="
        +++ WeatherAPIKey (cfg a) +++ "&q="
        +++ url.QueryEscape (Localidade d)]
  /\ (forall name vresp,
        verbatim name = true ->
        net (viaCepURL cep) = http.DoOk vresp ->
        http.RespBody vresp = locality_body name ->
        Localidade d = name
        /\ json.appendString (Localidade d) = quoted name).
Proof.
  intros Hv (resp & Hnet & Hdec) Hloc (Hparse & wresp & Hwnet & Hwb) Hw.
  use_validated Hv. apply located_test in Hloc. subst wb.
  cbv zeta. split; [reflexivity|]. split; [|split; [|split]].
  - follow. destruct (json.encode _); run; simpl; tauto.
  - intros tc tf tk Hc Hf Hk.
    assert (He : json.encode (convert (Localidade d) (TempC_ (Current wd)))
                 = Some (q "{'city':" +++ json.appendString (Localidade d)
                         +++ q ",'temp_C':" +++ tc +++ q ",'temp_F':" +++ tf
                         +++ q ",'temp_K':" +++ tk +++ "}")).
    { unfold json.encode at 1. unfold Marshaler_TempResponse.
      rewrite Hc, Hf, Hk. reflexivity. }
    follow. reflexivity.
  - follow. destruct (json.encode _); reflexivity.
  - intros name vresp Hname Hnet' Hbody.
    rewrite Hnet in Hnet'. inversion Hnet'; subst vresp.
    rewrite Hbody, (Unmarshal_locality name Hname) in Hdec.
    inversion Hdec; subst d. simpl Localidade.
    split; [reflexivity | exact (appendString_verbatim name Hname)].
Qed.

Lemma C6_locality_passthrough_witness :
  validated (request "/01001000") "01001000"
  /\ verbatim "São Paulo" = true
  /\ body_sao_paulo = locality_body "São Paulo"
  /\ City (convert "São Paulo" 25) = "São Paulo"
  /\ json.appendString "São Paulo" = quoted "São Paulo"
  /\ urls_called (handler (net_of body_sao_paulo body_25) app_test
                    (request "/01001000"))
     = ["https://viacep.com.br/ws/01001000/json/";
        "http://api.weatherapi.com/v1/current.json?key=test-key&q=S%C3%A3o+Paulo"].
Proof.
  assert (Hv : validated (request "/01001000") "01001000")
    by (split; reflexivity).
  assert (Hg : geocoded (net_of body_sao_paulo body_25) "01001000"
                 {| Localidade := "São Paulo"; Erro := false |})
    by (eexists; split; [reflexivity | vm_compute; reflexivity]).
  assert (Hl : located {| Localidade := "São Paulo"; Erro := false |})
    by (split; [reflexivity | discriminate]).
  assert (Hw : weather_answered (net_of body_sao_paulo body_25) app_test
                 {| Localidade := "São Paulo"; Erro := false |} body_25)
    by (split; [reflexivity | eexists; split; reflexivity]).
  assert (Hu : json.Unmarshal body_25 zero_WeatherAPIResponse
               = Some {| Current := {| TempC_ := 25%float |} |})
    by (vm_compute; reflexivity).
  destruct (C6_locality_passthrough _ _ _ _ _ _ _ Hv Hg Hl Hw Hu)
    as (H1 & _ & _ & H4 & H5).
  destruct (H5 "São Paulo" _ eq_refl eq_refl eq_refl) as [_ H6].
  repeat split; assumption.
Defined.

(** ** C7: determinism *)

(** A request that passes validation makes the geocode call. *)
Lemma geocode_called (net : http.Transport) (a : app) (r : Request)
    (x : ascii) (cep : string) :
  URL_Path r = String x cep -> regexp.MatchString cep = true ->
  In (viaCepURL cep) (urls_called (handler net a r)).
Proof.
  intros Hp Hm. follow. repeat (split_step; run); simpl; tauto.
Qed.

(** A request whose postal code was located, with a key from which the
    weather URL can be built, makes the weather call. *)
Lemma weather_called (net : http.Transport) (a : app) (r : Request)
    (x : ascii) (cep : string) (resp : http.Response) (d : ViaCEPResponse) :
  URL_Path r = String x cep -> regexp.MatchString cep = true ->
  net (viaCepURL cep) = http.DoOk resp ->
  json.Unmarshal (http.RespBody resp) zero_ViaCEPResponse = Some d ->
  Erro d || String.eqb (Localidade d) "" = false ->
  url.Parse_ok (weatherURL (WeatherAPIKey (cfg a))
                  (url.QueryEscape (Localidade d))) = true ->
  In (weatherURL (WeatherAPIKey (cfg a)) (url.QueryEscape (Localidade d)))
    (urls_called (handler net a r)).
Proof.
  intros Hp Hm Hn Hd Hl Hu. follow.
  repeat (split_step; run); simpl; tauto.
Qed.

(** C7: the response is a function of the path of the request, of the API
    key and of the answers to the calls that the handler makes, and of
    nothing else; no clock, random source or state kept between requests
    enters it.  Two runs with the same path and the same key, against
    networks that answer the calls of the first run alike, end with the
    same status, header and body, byte for byte, and make the same calls,
    whatever the trace contexts of the two requests, the rest of the
    configuration and the answers of the networks at other URLs; with the
    same trace context they also leave the same trace.  On the success
    path both runs answer 200, and both bodies are the JSON text of the
    locality and the three temperatures, followed by a line feed. *)
Theorem C7_deterministic (net1 net2 : http.Transport) (a1 a2 : app)
    (r1 r2 : Request) :
  URL_Path r1 = URL_Path r2 ->
  WeatherAPIKey (cfg a1) = WeatherAPIKey (cfg a2) ->
  (forall u, In u (urls_called (handler net1 a1 r1)) -> net1 u = net2 u) ->
  let s1 := handler net1 a1 r1 in
  let s2 := handler net2 a2 r2 in
  response s1 = response s2
  /\ panicked s1 = panicked s2
  /\ urls_called s1 = urls_called s2
  /\ (Request_Context r1 = Request_Context r2 -> events s1 = events s2)
  /\ (forall cep d wb wd,
        validated r1 cep -> geocoded net1 cep d -> located d ->
        weather_answered net1 a1 d wb ->
        json.Unmarshal wb zero_WeatherAPIResponse = Some wd ->
        let text :=
          match json.encode (convert (Localidade d) (TempC_ (Current wd)))
          with
          | Some t => t +++ http.newline
          | None => ""
          end in
        status s1 = Some http.StatusOK /\ status s2 = Some http.StatusOK
        /\ body s1 = text /\ body s2 = text).
Proof.
  intros Hp Hk Hn. cbv zeta.
  assert (Hv : forall x cep,
             URL_Path r1 = String x cep -> regexp.MatchString cep = true ->
             net1 (viaCepURL cep) = net2 (viaCepURL cep)).
  { intros x cep H1 H2. apply Hn. eapply geocode_called; eassumption. }
  assert (Hw : forall x cep resp d,
             URL_Path r1 = String x cep -> regexp.MatchString cep = true ->
             net1 (viaCepURL cep) = http.DoOk resp ->
             json.Unmarshal (http.RespBody resp) zero_ViaCEPResponse
             = Some d ->
             Erro d || String.eqb (Localidade d) "" = false ->
             url.Parse_ok (weatherURL (WeatherAPIKey (cfg a1))
                             (url.QueryEscape (Localidade d))) = true ->
             net1 (weatherURL (WeatherAPIKey (cfg a1))
                     (url.QueryEscape (Localidade d)))
             = net2 (weatherURL (WeatherAPIKey (cfg a1))
                       (url.QueryEscape (Localidade d)))).
  { intros x cep resp d H1 H2 H3 H4 H5 H6. apply Hn.
    eapply weather_called; eassumption. }
  clear Hn.
  assert (E : response (handler net1 a1 r1) = response (handler net2 a2 r2)
              /\ panicked (handler net1 a1 r1) = panicked (handler net2 a2 r2)
              /\ urls_called (handler net1 a1 r1)
                 = urls_called (handler net2 a2 r2)
              /\ (Request_Context r1 = Request_Context r2 ->
                  events (handler net1 a1 r1) = events (handler net2 a2 r2))).
  { run. rewrite <- Hp, <- Hk.
    repeat (first
              [ match goal with
                | |- context [if Erro ?d || _ then _ else _] =>
                    destruct (Erro d || String.eqb (Localidade d) "") eqn:?
                | |- context [net2 (viaCepURL ?c)] =>
                    rewrite <- (Hv _ c ltac:(reflexivity) ltac:(eassumption))
                | |- context [net2 (weatherURL ?k ?e)] =>
                    rewrite <- (Hw _ _ _ _ ltac:(reflexivity)
                                  ltac:(eassumption) ltac:(eassumption)
                                  ltac:(eassumption) ltac:(eassumption)
                                  ltac:(eassumption))
                end
              | split_step ]; run);
      (repeat split; try reflexivity; intros Hc; rewrite Hc; reflexivity). }
  destruct E as (E1 & E2 & E3 & E4).
  repeat (split; [assumption|]).
  intros cep d wb wd Hval (resp & Hnet & Hdec) Hloc
         (Hparse & wresp & Hwnet & Hwb) Hwd.
  cbv zeta. unfold status, body. rewrite <- E1.
  use_validated Hval. apply located_test in Hloc. subst wb.
  follow. destruct (json.encode _); repeat split; reflexivity.
Qed.

Lemma C7_deterministic_witness :
  let net1 := net_of body_sao_paulo body_25 in
  let net2 :=
    only_at (urls_called (handler net1 app_test (request "/01001000")))
      net1 in
  net2 "https://example.com/" <> net1 "https://example.com/"
  /\ status (handler net2 app_test_9090 (request_again "/01001000"))
     = Some http.StatusOK
  /\ body (handler net2 app_test_9090 (request_again "/01001000"))
     = q "{'city':'São Paulo','temp_C':25,'temp_F':77,'temp_K':298}"
       +++ http.newline
  /\ body (handler net1 app_test (request "/01001000"))
     = body (handler net2 app_test_9090 (request_again "/01001000")).
Proof.
  cbv zeta.
  assert (Hv : validated (request "/01001000") "01001000")
    by (split; reflexivity).
  assert (Hg : geocoded (net_of body_sao_paulo body_25) "01001000"
                 {| Localidade := "São Paulo"; Erro := false |})
    by (eexists; split; [reflexivity | vm_compute; reflexivity]).
  assert (Hl : located {| Localidade := "São Paulo"; Erro := false |})
    by (split; [reflexivity | discriminate]).
  assert (Hw : weather_answered (net_of body_sao_paulo body_25) app_test
                 {| Localidade := "São Paulo"; Erro := false |} body_25)
    by (split; [reflexivity | eexists; split; reflexivity]).
  assert (Hu : json.Unmarshal body_25 zero_WeatherAPIResponse
               = Some {| Current := {| TempC_ := 25%float |} |})
    by (vm_compute; reflexivity).
  assert (Hn : forall u,
             In u (urls_called (handler (net_of body_sao_paulo body_25)
                                  app_test (request "/01001000"))) ->
             net_of body_sao_paulo body_25 u
             = only_at (urls_called (handler (net_of body_sao_paulo body_25)
                                       app_test (request "/01001000")))
                 (net_of body_sao_paulo body_25) u).
  { intros u Hin. unfold only_at.
    destruct (existsb (String.eqb u) _) eqn:Ex; [reflexivity|].
    exfalso. apply Bool.not_true_iff_false in Ex. apply Ex.
    apply existsb_exists. exists u. split; [exact Hin|].
    apply String.eqb_refl. }
  split; [vm_compute; discriminate|].
  destruct (C7_deterministic (net_of body_sao_paulo body_25)
              (only_at (urls_called (handler (net_of body_sao_paulo body_25)
                                       app_test (request "/01001000")))
                 (net_of body_sao_paulo body_25))
              app_test app_test_9090
              (request "/01001000") (request_again "/01001000")
              eq_refl eq_refl Hn) as (_ & _ & _ & _ & H).
  destruct (H _ _ _ _ Hv Hg Hl Hw Hu) as (_ & H2 & H3 & H4).
  split; [exact H2|]. split; [exact H4|].
  rewrite H3, H4. reflexivity.
Defined.

(** ** C8: the life cycle of the spans *)

(** C8: in every run, whatever its outcome, the request span
    [orchestration-handler] is started once, before anything else, and
    ended once, as the last event; and every outbound call that is made
    runs in the context of a span of its own that is started just before
    the call, ended just after it, started and ended exactly once, and
    nested under the request span. *)
Theorem C8_span_lifecycle (net : http.Transport) (a : app) (r : Request) :
  let evs := events (handler net a r) in
  started "orchestration-handler" evs = 1%nat
  /\ ended "orchestration-handler" evs = 1%nat
  /\ hd_error evs
     = Some (SpanStart "orchestration-handler" (Request_Context r))
  /\ hd_error (rev evs) = Some (SpanEnd "orchestration-handler")
  /\ (forall rq, In (Do rq) evs ->
        exists name parent pre post,
          out_ctx rq = name :: parent
          /\ In "orchestration-handler" parent
          /\ evs = pre ++ [SpanStart name parent; Do rq; SpanEnd name] ++ post
          /\ started name evs = 1%nat
          /\ ended name evs = 1%nat).
Proof.
  split_paths; (repeat split; try reflexivity);
    intros rq Hin; simpl in Hin;
    repeat (destruct Hin as [Hin | Hin]; try discriminate Hin);
    try contradiction;
    inversion Hin; subst; clear Hin;
    do 2 eexists;
    match goal with
    | |- exists pre post, _ /\ _ /\ ?evs = _ /\ _ =>
        first [ exists (firstn 2 evs), (skipn 5 evs);
                repeat split; [simpl; tauto | reflexivity .. ]
              | exists (firstn 5 evs), (skipn 8 evs);
                repeat split; [simpl; tauto | reflexivity .. ] ]
    end.
Qed.

(** ** C9: which weather bodies raise a decode error *)

(** C9, as stated, fails: a weather body can be valid JSON and still raise
    a decode error.  The empty array is valid JSON, and so is an object
    whose [current] member is a number; for both the handler answers 500
    with the decode message. *)
Lemma C9_valid_json_rejected_counterexample :
  json.Valid "[]" = true
  /\ status (handler (net_of body_sao_paulo "[]") app_test
               (request "/01001000")) = Some 500
  /\ body (handler (net_of body_sao_paulo "[]") app_test
             (request "/01001000"))
     = "error unmarshalling WeatherAPI response" +++ http.newline
  /\ json.Valid (q "{'current': 5}") = true
  /\ status (handler (net_of body_sao_paulo (q "{'current': 5}")) app_test
               (request "/01001000")) = Some 500.
Proof. vm_compute. repeat split. Qed.

(** Two more valid bodies that raise the decode error: a temperature
    written as a string, and one beyond the range of [float64]. *)
Example mistyped_temperatures_rejected :
  forall wb, In wb [q "{'current': {'temp_c': '25'}}";
                   q "{'current': {'temp_c': 1e999}}"] ->
    json.Valid wb = true
    /\ option_map mistyped_reading (json.parse wb) = Some true
    /\ body (handler (net_of body_sao_paulo wb) app_test (request "/01001000"))
       = "error unmarshalling WeatherAPI response" +++ http.newline.
Proof.
  intros wb H. simpl in H.
  repeat (destruct H as [<- | H]; [vm_compute; repeat split|]).
  contradiction.
Qed.

(** C9 (amended): the weather stage raises a decode error if and only if
    the body is not valid JSON or is valid JSON of the wrong type: a
    top-level value that is neither an object nor [null], a member
    [current] that is neither an object nor [null], or in it a member
    [temp_c] that is neither [null] nor a number in the range of
    [float64].  A valid body that only lacks the expected shape (no member
    named [current], or a [current] without a [temp_c], or [null] in
    their place) is accepted: the status is 200 and the body carries
    [temp_C] 0 with [temp_F] 32 and [temp_K] 273, computed from 0. *)
Theorem C9_weather_decode (net : http.Transport) (a : app) (r : Request)
    (cep : string) (d : ViaCEPResponse) (wb : string) :
  validated r cep ->
  geocoded net cep d ->
  located d ->
  weather_answered net a d wb ->
  let s := handler net a r in
  let decode_error :=
    status s = Some http.StatusInternalServerError
    /\ body s = "error unmarshalling WeatherAPI response" +++ http.newline in
  (decode_error
   <-> json.Valid wb = false
       \/ exists j, json.parse wb = Some j /\ mistyped_reading j = true)
  /\ (forall j, json.parse wb = Some j -> lacks_reading j = true ->
        status s = Some http.StatusOK
        /\ body s = (q "{'city':" +++ json.appendString (Localidade d)
                     +++ q ",'temp_C':0,'temp_F':32,'temp_K':273}")
                    +++ http.newline).
Proof.
  intros Hv (resp & Hnet & Hdec) Hloc (Hparse & wresp & Hwnet & Hwb).
  use_validated Hv. apply located_test in Hloc. subst wb.
  cbv zeta. rewrite <- Unmarshal_weather_none.
  assert (Hfail : json.Unmarshal (http.RespBody wresp) zero_WeatherAPIResponse
                  = None ->
                  status (handler net a r) = Some http.StatusInternalServerError
                  /\ body (handler net a r)
                     = "error unmarshalling WeatherAPI response"
                       +++ http.newline).
  { intros Hw. follow. split; reflexivity. }
  assert (Hok : forall wd,
             json.Unmarshal (http.RespBody wresp) zero_WeatherAPIResponse
             = Some wd ->
             status (handler net a r) = Some http.StatusOK).
  { intros wd Hw. follow. destruct (json.encode _); reflexivity. }
  split; [split|].
  - intros [Hs _].
    destruct (json.Unmarshal (http.RespBody wresp) zero_WeatherAPIResponse)
      as [wd|] eqn:Hw; [|reflexivity].
    rewrite (Hok wd eq_refl) in Hs. discriminate.
  - exact Hfail.
  - intros j Hj Hlack.
    assert (Hw : json.Unmarshal (http.RespBody wresp) zero_WeatherAPIResponse
                 = Some zero_WeatherAPIResponse).
    { unfold json.Unmarshal. rewrite Hj.
      apply decode_lacks_reading; [|exact Hlack].
      exact (parse_well_lexed _ _ Hj). }
    split; [exact (Hok _ Hw)|].
    assert (He : json.encode (convert (Localidade d) 0)
                 = Some (q "{'city':" +++ json.appendString (Localidade d)
                         +++ q ",'temp_C':0,'temp_F':32,'temp_K':273}"))
      by reflexivity.
    follow. change (TempC_ (Current zero_WeatherAPIResponse)) with 0%float.
    rewrite He. reflexivity.
Qed.

Lemma C9_weather_decode_witness :
  validated (request "/01001000") "01001000"
  /\ geocoded (net_of body_sao_paulo "{}") "01001000"
       {| Localidade := "São Paulo"; Erro := false |}
  /\ weather_answered (net_of body_sao_paulo "{}") app_test
       {| Localidade := "São Paulo"; Erro := false |} "{}"
  /\ lacks_reading (json.Object []) = true
  /\ status (handler (net_of body_sao_paulo "{}") app_test
               (request "/01001000")) = Some 200
  /\ body (handler (net_of body_sao_paulo "{}") app_test
             (request "/01001000"))
     = q "{'city':'São Paulo','temp_C':0,'temp_F':32,'temp_K':273}"
       +++ http.newline.
Proof.
  assert (Hv : validated (request "/01001000") "01001000")
    by (split; reflexivity).
  assert (Hg : geocoded (net_of body_sao_paulo "{}") "01001000"
                 {| Localidade := "São Paulo"; Erro := false |})
    by (eexists; split; [reflexivity | vm_compute; reflexivity]).
  assert (Hl : located {| Localidade := "São Paulo"; Erro := false |})
    by (split; [reflexivity | discriminate]).
  assert (Hw : weather_answered (net_of body_sao_paulo "{}") app_test
                 {| Localidade := "São Paulo"; Erro := false |} "{}")
    by (split; [reflexivity | eexists; split; reflexivity]).
  split; [exact Hv|]. split; [exact Hg|]. split; [exact Hw|].
  split; [reflexivity|].
  exact (proj2 (C9_weather_decode _ _ _ _ _ _ Hv Hg Hl Hw)
           (json.Object []) eq_refl eq_refl).
Defined.

(** Bodies that lack the shape in other ways are accepted alike: a member
    [current] that is an empty object or [null], keys in another case, and
    members the handler does not know. *)
Example lacking_shapes_accepted :
  forall wb, In wb [q "{'current': {}}"; q "{'current': null}"; "null";
                   q "{'CURRENT': {'Temp_C': null}, 'location': {'name': 'x'}}"] ->
    option_map lacks_reading (json.parse wb) = Some true
    /\ body (handler (net_of body_sao_paulo wb) app_test (request "/01001000"))
       = q "{'city':'São Paulo','temp_C':0,'temp_F':32,'temp_K':273}"
         +++ http.newline.
Proof.
  intros wb H. simpl in H.
  repeat (destruct H as [<- | H]; [vm_compute; split; reflexivity|]).
  contradiction.
Qed.

(** ** C10: the status code of the geocode answer *)

(** C10: the status code of an upstream response is never inspected:
    changing the status codes of the responses in any way changes nothing
    in the run.  So a geocode response with any status code, an error code
    included, whose body decodes to an empty or absent locality is answered
    with 404 and [can not find zipcode], not with a server error. *)
Theorem C10_status_code_ignored (net : http.Transport) (a : app)
    (r : Request) :
  (forall f, handler (with_status f net) a r = handler net a r)
  /\ (forall cep code vbody d,
        validated r cep ->
        net (viaCepURL cep)
        = http.DoOk {| http.StatusCode := code; http.RespBody := vbody |} ->
        json.Unmarshal vbody zero_ViaCEPResponse = Some d ->
        Localidade d = "" ->
        status (handler net a r) = Some http.StatusNotFound
        /\ body (handler net a r) = "can not find zipcode" +++ http.newline).
Proof.
  split.
  - intros f. run.
    repeat (first [ match goal with
                    | |- context [with_status f net ?u] =>
                        unfold with_status at 1
                    end
                  | split_step ]; run; cbn [http.RespBody]);
      reflexivity.
  - intros cep code vbody d Hv Hnet Hdec Hl.
    use_validated Hv.
    assert (Hmiss : Erro d || String.eqb (Localidade d) "" = true)
      by (apply not_located_test; now right).
    change vbody
      with (http.RespBody
              {| http.StatusCode := code; http.RespBody := vbody |}) in Hdec.
    follow. split; reflexivity.
Qed.

(** ** Further properties of the handler *)

(** The handler answers 422 exactly for the postal codes that are not
    eight ASCII digits. *)
Theorem rejected_iff_malformed (net : http.Transport) (a : app) (r : Request)
    (cep : string) :
  cep_of r = Some cep ->
  (status (handler net a r) = Some http.StatusUnprocessableEntity
   <-> eight_ascii_digits cep = false).
Proof.
  intros Hcep. rewrite <- MatchString_spec.
  apply cep_of_path in Hcep as [c Hpath].
  split.
  - destruct (regexp.MatchString cep) eqn:Hm; [|reflexivity].
    intros H. exfalso. revert H. follow.
    repeat (split_step; run); discriminate.
  - intros Hm. follow. reflexivity.
Qed.

Lemma rejected_iff_malformed_witness :
  cep_of (request "/0100100") = Some "0100100"
  /\ (status (handler net_down app_test (request "/0100100"))
      = Some http.StatusUnprocessableEntity
      <-> eight_ascii_digits "0100100" = false).
Proof.
  split; [reflexivity|].
  exact (rejected_iff_malformed net_down app_test (request "/0100100")
           "0100100" eq_refl).
Defined.

(** A request whose path is empty makes the handler panic at the slice
    expression of line 98: nothing is written to the response, and the
    request span, whose end is deferred, is still ended. *)
Theorem empty_path_panics (net : http.Transport) (a : app) (ctx : Context) :
  let s := handler net a {| URL_Path := ""; Request_Context := ctx |} in
  panicked s = true
  /\ status s = None
  /\ events s = [SpanStart "orchestration-handler" ctx;
                 SpanEnd "orchestration-handler"].
Proof. repeat split. Qed.

(** When the response cannot be encoded (the Fahrenheit value overflowed to
    an infinity), the status 200 is already written: the handler answers
    200 with the JSON content type and an empty body, and logs the
    encoding error. *)
Theorem encoding_failure_is_200 (net : http.Transport) (a : app) (r : Request)
    (cep : string) (d : ViaCEPResponse) (wb : string)
    (wd : WeatherAPIResponse) :
  validated r cep ->
  geocoded net cep d ->
  located d ->
  weather_answered net a d wb ->
  json.Unmarshal wb zero_WeatherAPIResponse = Some wd ->
  json.encode (convert (Localidade d) (TempC_ (Current wd))) = None ->
  let s := handler net a r in
  status s = Some http.StatusOK
  /\ body s = ""
  /\ http.Header (response s) = [("Content-Type", "application/json")]
  /\ In (Log "Error encoding response: %v" [AJSONErr]) (events s).
Proof.
  intros Hv (resp & Hnet & Hdec) Hloc (Hparse & wresp & Hwnet & Hwb) Hw He.
  use_validated Hv. apply located_test in Hloc. subst wb.
  follow. repeat split. simpl. tauto.
Qed.

Lemma encoding_failure_is_200_witness :
  json.Unmarshal body_1e308 zero_WeatherAPIResponse
  = Some {| Current := {| TempC_ := 1e308%float |} |}
  /\ json.encode (convert "São Paulo" 1e308) = None
  /\ status (handler (net_of body_sao_paulo body_1e308) app_test
               (request "/01001000")) = Some 200
  /\ body (handler (net_of body_sao_paulo body_1e308) app_test
             (request "/01001000")) = "".
Proof.
  assert (Hv : validated (request "/01001000") "01001000")
    by (split; reflexivity).
  assert (Hg : geocoded (net_of body_sao_paulo body_1e308) "01001000"
                 {| Localidade := "São Paulo"; Erro := false |})
    by (eexists; split; [reflexivity | vm_compute; reflexivity]).
  assert (Hl : located {| Localidade := "São Paulo"; Erro := false |})
    by (split; [reflexivity | discriminate]).
  assert (Hw : weather_answered (net_of body_sao_paulo body_1e308) app_test
                 {| Localidade := "São Paulo"; Erro := false |} body_1e308)
    by (split; [reflexivity | eexists; split; reflexivity]).
  assert (Hu : json.Unmarshal body_1e308 zero_WeatherAPIResponse
               = Some {| Current := {| TempC_ := 1e308%float |} |})
    by (vm_compute; reflexivity).
  assert (He : json.encode (convert "São Paulo" 1e308) = None)
    by (vm_compute; reflexivity).
  destruct (encoding_failure_is_200 _ _ _ _ _ _ _ Hv Hg Hl Hw Hu He)
    as (H1 & H2 & _).
  repeat split; assumption.
Defined.

(** Every answer other than 200 is one plain-text line; an answer 200 has
    the JSON content type. *)
Theorem failure_is_one_line (net : http.Transport) (a : app) (r : Request) :
  let s := handler net a r in
  panicked s = true
  \/ (status s = Some http.StatusOK
      /\ http.Header (response s) = [("Content-Type", "application/json")])
  \/ (one_line (body s) = true
      /\ In ("Content-Type", "text/plain; charset=utf-8")
           (http.Header (response s))
      /\ exists c, status s = Some c /\ 400 <= c < 600).
Proof.
  split_paths;
    first [ left; reflexivity
          | right; left; split; reflexivity
          | right; right; split; [reflexivity|];
            split; [simpl; tauto|]; eexists; split; [reflexivity|];
            unfold http.StatusUnprocessableEntity, http.StatusNotFound,
              http.StatusInternalServerError; lia ].
Qed.

(** * More of the code *)

(** ** The weather URL *)

Lemma code_chr (z : Z) : 0 <= z < 256 -> code (chr z) = z.
Proof.
  intros H. unfold code, chr. rewrite N_ascii_embedding; lia.
Qed.

Lemma below_16 (d : Z) :
  0 <= d < 16 -> In d [0; 1; 2; 3; 4; 5; 6; 7; 8; 9; 10; 11; 12; 13; 14; 15].
Proof. simpl. lia. Qed.

Lemma hex_upper_spec (d : Z) :
  0 <= d < 16 ->
  query_byte (hex_upper d) = true
  /\ is_hex (hex_upper d) = true
  /\ unhex (hex_upper d) = d
  /\ code (hex_upper d) <> 37.
Proof.
  intros H. apply below_16 in H. simpl in H.
  repeat (destruct H as [<- | H];
          [vm_compute; repeat split; discriminate|]).
  destruct H.
Qed.

Lemma nibbles (c : ascii) :
  0 <= code c / 16 < 16 /\ 0 <= code c mod 16 < 16
  /\ code c = 16 * (code c / 16) + code c mod 16.
Proof.
  pose proof (code_range c). repeat split; try (Z.div_mod_to_equations; lia).
Qed.

Lemma QueryEscape_bytes (s : string) :
  forallb query_byte (bytes (url.QueryEscape s)) = true.
Proof.
  induction s as [|c s IH]; [reflexivity|].
  simpl. destruct (code c =? 32) eqn:E32.
  - simpl. now rewrite IH.
  - destruct (url.shouldEscape c) eqn:Es.
    + destruct (nibbles c) as (Hh & Hl & _).
      destruct (hex_upper_spec _ Hh) as (H1 & _).
      destruct (hex_upper_spec _ Hl) as (H2 & _).
      simpl. now rewrite H1, H2, IH.
    + simpl. rewrite IH, andb_true_r.
      unfold url.shouldEscape in Es. apply negb_false_iff in Es.
      unfold query_byte. rewrite Es. reflexivity.
Qed.

Lemma query_byte_plain (c : ascii) :
  query_byte c = true ->
  negb ((code c <? 32) || (code c =? 127) || (code c =? 35)) = true.
Proof.
  unfold query_byte, is_lower, is_upper, is_digit, in_range. intros H.
  apply negb_true_iff.
  destruct (code c <? 32) eqn:E1; destruct (code c =? 127) eqn:E2;
    destruct (code c =? 35) eqn:E3; try reflexivity; exfalso;
    repeat (apply orb_true_iff in H as [H | H]); bool_to_Z; lia.
Qed.

Lemma QueryEscape_plain (s : string) : plain (url.QueryEscape s) = true.
Proof.
  unfold plain. pose proof (QueryEscape_bytes s) as H.
  induction (bytes (url.QueryEscape s)) as [|c l IH]; [reflexivity|].
  simpl in *. apply andb_true_iff in H as [Hc Hl].
  now rewrite (query_byte_plain c Hc), (IH Hl).
Qed.

Lemma valid_escapes_QueryEscape (s : string) :
  url.valid_escapes (url.QueryEscape s) = true.
Proof.
  induction s as [|c s IH]; [reflexivity|].
  simpl. destruct (code c =? 32) eqn:E32.
  - simpl. exact IH.
  - destruct (url.shouldEscape c) eqn:Es.
    + destruct (nibbles c) as (Hh & Hl & _).
      destruct (hex_upper_spec _ Hh) as (_ & H1 & _ & N1).
      destruct (hex_upper_spec _ Hl) as (_ & H2 & _ & N2).
      cbn [url.valid_escapes]. change (code (chr 37) =? 37) with true.
      cbv iota. rewrite H1, H2. simpl andb.
      apply Z.eqb_neq in N1, N2. rewrite N1, N2. exact IH.
    + cbn [url.valid_escapes].
      destruct (code c =? 37) eqn:E37; [|exact IH].
      exfalso. unfold url.shouldEscape in Es. apply negb_false_iff in Es.
      unfold is_lower, is_upper, is_digit, in_range in Es.
      repeat (apply orb_true_iff in Es as [Es | Es]); bool_to_Z; lia.
Qed.

Lemma CTL_app (a b : string) :
  url.stringContainsCTLByte (a +++ b)
  = url.stringContainsCTLByte a || url.stringContainsCTLByte b.
Proof.
  induction a as [|c a IH]; [reflexivity|].
  simpl. rewrite IH. now rewrite !orb_assoc.
Qed.

Lemma cut_fragment_plain_app (p s : string) :
  plain p = true ->
  url.cut_fragment (p +++ s)
  = let '(u, f) := url.cut_fragment s in (p +++ u, f).
Proof.
  induction p as [|c p IH]; intros H.
  - simpl. now destruct (url.cut_fragment s).
  - simpl in H. apply andb_true_iff in H as [Hc Hp].
    apply negb_true_iff, orb_false_iff in Hc as [_ Hh].
    simpl. rewrite Hh, (IH Hp). now destruct (url.cut_fragment s).
Qed.

Lemma cut_fragment_app_plain (k s : string) :
  plain s = true ->
  url.cut_fragment (k +++ s)
  = match url.cut_fragment k with
    | (u, None) => (u +++ s, None)
    | (u, Some f) => (u, Some (f +++ s))
    end.
Proof.
  intros Hs. induction k as [|c k IH].
  - simpl. now rewrite (plain_cut s Hs).
  - simpl. destruct (code c =? 35); [reflexivity|].
    rewrite IH. now destruct (url.cut_fragment k) as [u [f|]].
Qed.

(** A text that ends in a cut escape stays malformed when a text that does
    not begin with a hexadecimal digit is appended. *)
Lemma valid_escapes_app (f : string) (c : ascii) (s : string) :
  is_hex c = false -> url.valid_escapes (String c s) = true ->
  url.valid_escapes (f +++ String c s) = url.valid_escapes f.
Proof.
  intros Hc Hs. induction f as [|x f IH]; [exact Hs|].
  cbn [String.append url.valid_escapes].
  destruct (code x =? 37) eqn:E; [|exact IH].
  destruct f as [|h1 [|h2 f']].
  - cbn [String.append]. destruct s; [reflexivity|].
    now rewrite Hc.
  - cbn [String.append]. rewrite Hc. now rewrite andb_false_r.
  - cbn [String.append] in *. now rewrite IH.
Qed.

(** Whether the weather request can be built depends on the API key
    alone, never on the locality. *)
Lemma Parse_ok_weather_url (a : app) (d : ViaCEPResponse) :
  url.Parse_ok (weather_url a d) = usable_key (WeatherAPIKey (cfg a)).
Proof.
  unfold weather_url, weatherURL, url.Parse_ok, usable_key.
  set (k := WeatherAPIKey (cfg a)).
  set (e := url.QueryEscape (Localidade d)).
  assert (He : plain ("&q=" +++ e) = true).
  { rewrite plain_app. unfold e. now rewrite QueryEscape_plain. }
  rewrite cut_fragment_plain_app by reflexivity.
  rewrite (cut_fragment_app_plain k _ He).
  destruct (url.cut_fragment k) as [u [f|]].
  - rewrite CTL_app. simpl url.stringContainsCTLByte at 1.
    f_equal.
    apply (valid_escapes_app f "&"%char ("q=" +++ e)); [reflexivity|].
    cbn [String.append url.valid_escapes]. simpl.
    apply valid_escapes_QueryEscape.
  - rewrite (CTL_app _ (u +++ _)), (CTL_app u).
    rewrite (plain_no_CTL _ He), orb_false_r. reflexivity.
Qed.

(** The handler panics in three cases only: the path of the request is
    empty (line 98); the request reached line 141 on a receiver whose
    [cfg] is nil, as [&app{}] has it; or it reached the weather stage with
    an API key from which no URL can be built, so that
    [http.DefaultClient.Do] is given a nil request (line 147).  In the last
    two cases the geocode call is the only call made and nothing is written
    to the response; with a nil [cfg] the span of the weather call is not
    started, with an unusable key it is started but never ended. *)
Theorem handler_panics_iff (net : http.Transport) (a_cfg : option Config)
    (r : Request) :
  let s := handler_of net a_cfg r in
  (panicked s = true
   <-> URL_Path r = ""
       \/ exists cep d,
            validated r cep /\ geocoded net cep d /\ located d
            /\ (a_cfg = None
                \/ exists c, a_cfg = Some c
                             /\ usable_key (WeatherAPIKey c) = false))
  /\ (panicked s = true -> URL_Path r <> "" ->
      status s = None
      /\ (exists cep, urls_called s = [viaCepURL cep])
      /\ started "call-weather-api" (events s)
         = match a_cfg with Some _ => 1%nat | None => 0%nat end
      /\ ended "call-weather-api" (events s) = 0%nat
      /\ ended "orchestration-handler" (events s) = 1%nat).
Proof.
  cbv zeta. destruct a_cfg as [c|].
  - change (handler_of net (Some c) r) with (handler net {| cfg := c |} r).
    pose proof (Parse_ok_weather_url {| cfg := c |}) as Hu.
    cbn [cfg] in Hu.
    split; [split|].
    + split_paths; intros H; try discriminate H.
      * now left.
      * right. eexists; eexists. split; [eapply path_validated; eassumption|].
        split; [eexists; split; eassumption|].
        split; [now apply test_located|].
        right. exists c. split; [reflexivity|].
        rewrite <- (Hu v). assumption.
    + intros [Hp | (cep & d & Hv & (resp & Hnet & Hdec) & Hloc & Hk)].
      * follow. reflexivity.
      * destruct Hk as [Hk | (c' & Hc & Hk)]; [discriminate Hk|].
        inversion Hc; subst c'.
        use_validated Hv. apply located_test in Hloc.
        rewrite <- (Hu d) in Hk.
        follow. reflexivity.
    + split_paths; intros H Hp; try discriminate H.
      * now elim Hp.
      * repeat split. eexists. reflexivity.
  - split; [split|].
    + split_paths; intros H; try discriminate H.
      * now left.
      * right. eexists; eexists. split; [eapply path_validated; eassumption|].
        split; [eexists; split; eassumption|].
        split; [now apply test_located | now left].
    + intros [Hp | (cep & d & Hv & (resp & Hnet & Hdec) & Hloc & _)].
      * follow. reflexivity.
      * use_validated Hv. apply located_test in Hloc.
        follow. reflexivity.
    + split_paths; intros H Hp; try discriminate H.
      * now elim Hp.
      * repeat split. eexists. reflexivity.
Qed.

Lemma handler_panics_iff_witness :
  let net := net_of body_sao_paulo body_25 in
  let r := request "/01001000" in
  usable_key (WeatherAPIKey (cfg app_bad_key)) = false
  /\ panicked (handler_of net (Some (cfg app_bad_key)) r) = true
  /\ started "call-weather-api"
       (events (handler_of net (Some (cfg app_bad_key)) r)) = 1%nat
  /\ ended "call-weather-api"
       (events (handler_of net (Some (cfg app_bad_key)) r)) = 0%nat
  /\ panicked (handler_of net None r) = true
  /\ started "call-weather-api" (events (handler_of net None r)) = 0%nat.
Proof.
  cbv zeta.
  assert (Hk : usable_key (WeatherAPIKey (cfg app_bad_key)) = false)
    by reflexivity.
  assert (Hr : exists cep d,
             validated (request "/01001000") cep
             /\ geocoded (net_of body_sao_paulo body_25) cep d
             /\ located d).
  { exists "01001000", {| Localidade := "São Paulo"; Erro := false |}.
    split; [split; reflexivity|].
    split; [eexists; split; [reflexivity | vm_compute; reflexivity]|].
    split; [reflexivity | discriminate]. }
  destruct Hr as (cep & d & Hv & Hg & Hl).
  assert (Hp : panicked (handler_of (net_of body_sao_paulo body_25)
                           (Some (cfg app_bad_key)) (request "/01001000"))
               = true).
  { apply (proj1 (handler_panics_iff _ _ _)). right. exists cep, d.
    repeat (split; [assumption|]). right. eexists. split; [reflexivity|].
    exact Hk. }
  assert (Hn : panicked (handler_of (net_of body_sao_paulo body_25) None
                           (request "/01001000")) = true).
  { apply (proj1 (handler_panics_iff _ _ _)). right. exists cep, d.
    repeat (split; [assumption|]). now left. }
  split; [exact Hk|]. split; [exact Hp|].
  destruct (proj2 (handler_panics_iff _ _ _) Hp) as (_ & _ & H1 & H2 & _);
    [discriminate|].
  split; [exact H1|]. split; [exact H2|]. split; [exact Hn|].
  destruct (proj2 (handler_panics_iff _ _ _) Hn) as (_ & _ & H3 & _);
    [discriminate|].
  exact H3.
Defined.


Lemma QueryEscape_inj (s t : string) :
  url.QueryEscape s = url.QueryEscape t -> s = t.
Proof.
  revert t. induction s as [|c s IH]; intros t H.
  - destruct t as [|x t]; [reflexivity|]. simpl in H.
    destruct (code x =? 32); [discriminate|].
    destruct (url.shouldEscape x); discriminate.
  - destruct t as [|x t].
    + simpl in H. destruct (code c =? 32); [discriminate|].
      destruct (url.shouldEscape c); discriminate.
    + assert (Hhead :
        forall y : ascii, url.shouldEscape y = false ->
                          code y <> 43 /\ code y <> 37 /\ code y <> 32).
      { intros y Hy. unfold url.shouldEscape in Hy.
        apply negb_false_iff in Hy.
        unfold is_lower, is_upper, is_digit, in_range in Hy.
        repeat (apply orb_true_iff in Hy as [Hy | Hy]); bool_to_Z; lia. }
      simpl in H.
      destruct (code c =? 32) eqn:Ec; destruct (code x =? 32) eqn:Ex.
      * inversion H as [H']. apply IH in H'. subst t.
        bool_to_Z. f_equal.
        rewrite <- (chr_code c), <- (chr_code x). congruence.
      * destruct (url.shouldEscape x) eqn:Sx.
        -- inversion H.
        -- inversion H as [[Hc H']]. subst x.
           destruct (Hhead _ Sx) as (N & _). now elim N.
      * destruct (url.shouldEscape c) eqn:Sc.
        -- inversion H.
        -- inversion H as [[Hc H']]. subst c.
           destruct (Hhead _ Sc) as (N & _). now elim N.
      * destruct (url.shouldEscape c) eqn:Sc;
          destruct (url.shouldEscape x) eqn:Sx.
        -- inversion H as [[H1 H2 H']]. apply IH in H'. subst t. f_equal.
           destruct (nibbles c) as (Hh & Hl & Hc).
           destruct (nibbles x) as (Hh' & Hl' & Hx).
           destruct (hex_upper_spec _ Hh) as (_ & _ & U1 & _).
           destruct (hex_upper_spec _ Hl) as (_ & _ & U2 & _).
           destruct (hex_upper_spec _ Hh') as (_ & _ & U1' & _).
           destruct (hex_upper_spec _ Hl') as (_ & _ & U2' & _).
           rewrite H1 in U1. rewrite H2 in U2.
           rewrite <- (chr_code c), <- (chr_code x). f_equal. lia.
        -- inversion H as [[Hc H']].
           destruct (Hhead _ Sx) as (_ & N & _). elim N. now rewrite <- Hc.
        -- inversion H as [[Hc H']].
           destruct (Hhead _ Sc) as (_ & N & _). elim N. now rewrite Hc.
        -- inversion H as [[Hc H']]. apply IH in H'. now subst.
Qed.

Lemma append_inv_head (p a b : string) : p +++ a = p +++ b -> a = b.
Proof.
  induction p as [|c p IH]; simpl; intros H; [exact H|].
  inversion H. now apply IH.
Qed.

(** Two localities never share a weather URL: [url.QueryEscape] loses
    nothing of the name.  It writes only letters, digits and the marks
    [-], [_], [.], [~], [+] and [%], so that a name can neither add a
    parameter to the query nor end it. *)
Theorem weather_url_injective (a : app) (d1 d2 : ViaCEPResponse) :
  (weather_url a d1 = weather_url a d2 -> Localidade d1 = Localidade d2)
  /\ forallb query_byte (bytes (url.QueryEscape (Localidade d1))) = true
  /\ weather_url a d1
     = "http://api.weatherapi.com/v1/current.json?key="
       +++ WeatherAPIKey (cfg a) +++ "&q="
       +++ url.QueryEscape (Localidade d1).
Proof.
  split; [|split; [apply QueryEscape_bytes | reflexivity]].
  unfold weather_url, weatherURL. intros H.
  apply append_inv_head, append_inv_head, append_inv_head in H.
  now apply QueryEscape_inj.
Qed.


(** ** Strings written and read back *)

Lemma lex_sstep (st st' : sstate) (c : ascii) (acc : list ascii) :
  sstep st c = Some st' ->
  json.lex_step (lex_state_of st acc) c
  = Some (lex_state_of st' (c :: acc), []).
Proof.
  destruct st as [| |n]; cbn [sstep lex_state_of json.lex_step].
  - destruct (code c =? 34); [discriminate|].
    destruct (code c =? 92); [intros H; inversion H; reflexivity|].
    destruct (code c <? 32); [discriminate|].
    intros H; inversion H; reflexivity.
  - cbv zeta. rewrite (simple_escape_set c).
    destruct (json.simple_escape c); [intros H; inversion H; reflexivity|].
    destruct (code c =? 117); [|discriminate].
    intros H; inversion H; reflexivity.
  - destruct (is_hex c); [|discriminate].
    destruct n as [|[|k]]; intros H; inversion H; reflexivity.
Qed.

Lemma lex_srun (l : list ascii) :
  forall st st' acc rest,
    srun st l = Some st' ->
    json.lex_from (lex_state_of st acc) (str l +++ rest)
    = json.lex_from (lex_state_of st' (rev l ++ acc)) rest.
Proof.
  induction l as [|c l IH]; intros st st' acc rest H.
  - inversion H. reflexivity.
  - rewrite srun_cons in H.
    destruct (sstep st c) as [st1|] eqn:Es; [|discriminate].
    change (str (c :: l) +++ rest) with (String c (str l +++ rest)).
    cbn [json.lex_from]. rewrite (lex_sstep _ _ _ acc Es).
    rewrite (IH _ _ (c :: acc) rest H).
    simpl rev. rewrite <- app_assoc. simpl.
    now destruct (json.lex_from _ rest).
Qed.


Lemma hex_lower_spec (d : Z) :
  0 <= d < 16 -> is_hex (hex_lower d) = true /\ unhex (hex_lower d) = d.
Proof.
  intros H. apply below_16 in H. simpl in H.
  repeat (destruct H as [<- | H]; [vm_compute; split; reflexivity|]).
  destruct H.
Qed.

Lemma srun_all_high (l : list ascii) :
  forallb (fun b => 128 <=? code b) l = true -> srun SStr l = Some SStr.
Proof.
  induction l as [|b l IH]; [reflexivity|].
  simpl forallb. intros H. apply andb_true_iff in H as [Hb Hl].
  rewrite srun_cons, sstep_high by (now apply Z.leb_le). exact (IH Hl).
Qed.

(** Whatever the encoder writes for one character can stand between
    quotes. *)
Lemma quote_step_srun (c : ascii) (r : string) (out : list ascii) (k : nat) :
  json.quote_step (String c r) = (out, k) -> srun SStr out = Some SStr.
Proof.
  unfold json.quote_step. cbv zeta.
  destruct (code c <? utf8.RuneSelf) eqn:Ea.
  - destruct ((code c =? 92) || (code c =? 34)) eqn:Eq.
    { intros H. inversion H; subst. clear H.
      rewrite srun_cons. change (sstep SStr (chr 92)) with (Some SEsc).
      cbv iota. rewrite srun_cons. cbn [sstep].
      unfold json.simple_escape. cbv zeta.
      apply orb_true_iff in Eq as [Eq | Eq]; rewrite Eq;
        rewrite ?orb_true_r; reflexivity. }
    apply orb_false_iff in Eq as [E92 E34].
    destruct (code c =? 8); [intros H; inversion H; reflexivity|].
    destruct (code c =? 12); [intros H; inversion H; reflexivity|].
    destruct (code c =? 10); [intros H; inversion H; reflexivity|].
    destruct (code c =? 13); [intros H; inversion H; reflexivity|].
    destruct (code c =? 9); [intros H; inversion H; reflexivity|].
    destruct ((code c <? 32) || (code c =? 60) || (code c =? 62)
              || (code c =? 38)) eqn:Eu.
    + intros H. inversion H; subst. clear H. unfold json.u00.
      destruct (nibbles c) as (Hh & Hl & _).
      destruct (hex_lower_spec _ Hh) as [H1 _].
      destruct (hex_lower_spec _ Hl) as [H2 _].
      cbn [bytes list_ascii_of_string List.app].
      now rewrite srun_u_escape.
    + intros H. inversion H; subst. clear H.
      repeat (apply orb_false_iff in Eu as [Eu ?]).
      rewrite srun_cons. cbn [sstep]. now rewrite E34, E92, Eu.
  - destruct (utf8.DecodeRune (String c r)) as [rr size] eqn:Ed.
    destruct ((rr =? utf8.RuneError) && (size =? 1)%nat) eqn:Er.
    { intros H. inversion H; reflexivity. }
    destruct ((rr =? 8232) || (rr =? 8233)) eqn:Eu.
    + intros H. inversion H; subst. clear H.
      assert (Hr : 0 <= rr mod 16 < 16) by (apply Z.mod_pos_bound; lia).
      destruct (hex_lower_spec _ Hr) as [H1 _].
      cbn [bytes list_ascii_of_string List.app].
      now rewrite srun_u_escape.
    + intros H. inversion H; subst. clear H.
      destruct (DecodeRune_size _ _ _ Ed) as [k Hk]; [discriminate|].
      subst size. change (take (S k) (String c r)) with (String c (take k r)).
      apply srun_all_high. cbn [bytes list_ascii_of_string forallb].
      change (list_ascii_of_string (take k r)) with (bytes (take k r)).
      rewrite (DecodeRune_tail c r rr k Ed), andb_true_r.
      unfold utf8.RuneSelf in Ea. apply Z.leb_le. apply Z.ltb_ge in Ea. lia.
Qed.

Lemma quote_from_srun (n : nat) :
  forall s, (String.length s <= n)%nat ->
            srun SStr (json.quote_from 0 s) = Some SStr.
Proof.
  induction n as [|n IH]; intros s Hlen.
  - destruct s; [reflexivity | simpl in Hlen; lia].
  - destruct s as [|c r]; [reflexivity|]. simpl in Hlen.
    change (json.quote_from 0 (String c r))
      with (let '(out, k) := json.quote_step (String c r) in
            out ++ json.quote_from k r).
    destruct (json.quote_step (String c r)) as [out k] eqn:Eq.
    rewrite srun_app, (quote_step_srun c r out k Eq), quote_from_skip.
    apply IH. pose proof (drop_length k r). lia.
Qed.

Lemma str_app (a b : list ascii) : str (a ++ b) = str a +++ str b.
Proof. induction a as [|c a IH]; simpl; [reflexivity | now rewrite IH]. Qed.

Lemma valid_from_skip (k : nat) :
  forall s, valid_from k s = valid_from 0 (drop k s).
Proof.
  induction k as [|k IH]; intros s; [reflexivity|].
  destruct s as [|c r]; [reflexivity|]. simpl drop. rewrite <- IH.
  reflexivity.
Qed.

(** A well-formed encoding is decoded from its own bytes, whatever
    follows them. *)
Lemma DecodeRune_prefix (c : ascii) (r : string) (rr : Z) (k : nat)
    (X : string) :
  utf8.DecodeRune (String c r) = (rr, S k) ->
  (rr =? utf8.RuneError) && (S k =? 1)%nat = false ->
  utf8.DecodeRune (String c (take k r +++ X)) = (rr, S k)
  /\ drop k (take k r +++ X) = X.
Proof.
  unfold utf8.DecodeRune. cbv zeta. intros H Hv.
  repeat match type of H with
         | (if ?b then _ else _) = _ => destruct b eqn:?
         | (match ?s with EmptyString => _ | String _ _ => _ end) = _ =>
             destruct s
         end;
    inversion H; subst; clear H;
    try (vm_compute in Hv; discriminate Hv);
    cbn [take drop String.append];
    repeat match goal with
           | E : ?b = _ |- context [?b] => rewrite E
           end;
    split; reflexivity.
Qed.

Lemma unquote_cons (c : ascii) (r : string) :
  json.unquote_from 0 (String c r)
  = match json.unquote_step (String c r) with
    | Some (out, k) =>
        match json.unquote_from k r with
        | Some more => Some (out ++ more)
        | None => None
        end
    | None => None
    end.
Proof. reflexivity. Qed.

(** Reading back a two-byte escape. *)
Lemma unquote_escape (e x : ascii) (Q : string) (m : list ascii) :
  json.simple_escape e = Some x ->
  json.unquote_from 0 Q = Some m ->
  json.unquote_from 0 (String (chr 92) (String e Q)) = Some (x :: m).
Proof.
  intros He HQ. rewrite unquote_cons. unfold json.unquote_step. cbv zeta.
  change (code (chr 92) =? 92) with true. cbv iota. rewrite He.
  cbn [json.unquote_from]. now rewrite HQ.
Qed.

(** Reading back a [u] escape of a rune outside the surrogate range. *)
Lemma unquote_u4 (h1 h2 h3 h4 : ascii) (Q : string) (m : list ascii) (v : Z) :
  is_hex h1 = true -> is_hex h2 = true -> is_hex h3 = true ->
  is_hex h4 = true ->
  v = ((unhex h1 * 16 + unhex h2) * 16 + unhex h3) * 16 + unhex h4 ->
  json.IsSurrogate v = false ->
  json.unquote_from 0 Q = Some m ->
  json.unquote_from 0
    (String (chr 92)
       (String (chr 117)
          (String h1 (String h2 (String h3 (String h4 Q))))))
  = Some (utf8.EncodeRune v ++ m).
Proof.
  intros H1 H2 H3 H4 Hv Hs HQ. rewrite unquote_cons.
  unfold json.unquote_step. cbv zeta.
  change (code (chr 92) =? 92) with true. cbv iota.
  change (json.simple_escape (chr 117)) with (@None ascii). cbv iota.
  change (code (chr 117) =? 117) with true. cbv iota.
  unfold json.getu4.
  change (code (chr 92) =? 92) with true.
  change (code (chr 117) =? 117) with true.
  rewrite H1, H2, H3, H4. cbn [andb]. rewrite <- Hv, Hs.
  cbn [json.unquote_from]. now rewrite HQ.
Qed.

Lemma unquote_plain (c : ascii) (Q : string) (m : list ascii) :
  (code c =? 92) = false -> (code c =? 34) = false ->
  (code c <? 32) = false -> (code c <? utf8.RuneSelf) = true ->
  json.unquote_from 0 Q = Some m ->
  json.unquote_from 0 (String c Q) = Some (c :: m).
Proof.
  intros E92 E34 E32 Ea HQ. rewrite unquote_cons.
  unfold json.unquote_step. cbv zeta. rewrite E92, E34, E32, Ea.
  cbn [orb]. now rewrite HQ.
Qed.

Lemma unquote_rune (c : ascii) (r : string) (rr : Z) (k : nat) (Q : string)
    (m : list ascii) :
  (code c <? utf8.RuneSelf) = false ->
  utf8.DecodeRune (String c r) = (rr, S k) ->
  (rr =? utf8.RuneError) && (S k =? 1)%nat = false ->
  json.unquote_from 0 Q = Some m ->
  json.unquote_from 0 (String c (take k r +++ Q))
  = Some (bytes (String c (take k r)) ++ m).
Proof.
  intros Ea Ed Er HQ. rewrite unquote_cons.
  destruct (DecodeRune_prefix c r rr k Q Ed Er) as [Hd Hdrop].
  unfold json.unquote_step. cbv zeta.
  assert (E92 : (code c =? 92) = false)
    by (unfold utf8.RuneSelf in Ea; bool_to_Z; apply Z.eqb_neq; lia).
  assert (E34 : (code c =? 34) = false)
    by (unfold utf8.RuneSelf in Ea; bool_to_Z; apply Z.eqb_neq; lia).
  assert (E32 : (code c <? 32) = false)
    by (unfold utf8.RuneSelf in Ea; bool_to_Z; apply Z.ltb_ge; lia).
  rewrite E92, E34, E32, Ea. cbn [orb]. rewrite Hd. cbn [pred].
  rewrite unquote_from_skip, Hdrop, HQ.
  rewrite (Encode_Decode _ _ _ Ed Er) by discriminate.
  reflexivity.
Qed.

(** One character written and read back. *)
Lemma quote_unquote_step (c : ascii) (r : string) (k : nat) :
  valid_step (String c r) = Some k ->
  exists out,
    json.quote_step (String c r) = (out, k)
    /\ forall Q m,
         json.unquote_from 0 (str Q) = Some m ->
         json.unquote_from 0 (str (out ++ Q))
         = Some (bytes (take (S k) (String c r)) ++ m).
Proof.
  unfold valid_step, json.quote_step. cbv zeta.
  destruct (code c <? utf8.RuneSelf) eqn:Ea.
  - intros H. inversion H; subst. clear H.
    change (bytes (take 1 (String c r))) with [c].
    assert (Hesc : forall (n : Z) (e : ascii),
              code c = n -> json.simple_escape e = Some (chr n) ->
              forall Q m, json.unquote_from 0 (str Q) = Some m ->
                json.unquote_from 0 (str ([chr 92; e] ++ Q)) = Some ([c] ++ m)).
    { intros n e Hn He Q m HQ.
      change (str ([chr 92; e] ++ Q)) with (String (chr 92) (String e (str Q))).
      rewrite (unquote_escape e (chr n) _ m He HQ).
      now rewrite (chr_eq n c (eq_sym Hn)). }
    destruct ((code c =? 92) || (code c =? 34)) eqn:Eq.
    { eexists. split; [reflexivity|]. intros Q m HQ.
      change (str ([chr 92; c] ++ Q)) with (String (chr 92) (String c (str Q))).
      apply unquote_escape; [|exact HQ].
      unfold json.simple_escape. cbv zeta.
      apply orb_true_iff in Eq as [Eq | Eq]; rewrite Eq;
        rewrite ?orb_true_r; reflexivity. }
    apply orb_false_iff in Eq as [E92 E34].
    destruct (code c =? 8) eqn:E8;
      [eexists; split; [reflexivity|]; apply Z.eqb_eq in E8;
       exact (Hesc 8 "b"%char E8 eq_refl)|].
    destruct (code c =? 12) eqn:E12;
      [eexists; split; [reflexivity|]; apply Z.eqb_eq in E12;
       exact (Hesc 12 "f"%char E12 eq_refl)|].
    destruct (code c =? 10) eqn:E10;
      [eexists; split; [reflexivity|]; apply Z.eqb_eq in E10;
       exact (Hesc 10 "n"%char E10 eq_refl)|].
    destruct (code c =? 13) eqn:E13;
      [eexists; split; [reflexivity|]; apply Z.eqb_eq in E13;
       exact (Hesc 13 "r"%char E13 eq_refl)|].
    destruct (code c =? 9) eqn:E9;
      [eexists; split; [reflexivity|]; apply Z.eqb_eq in E9;
       exact (Hesc 9 "t"%char E9 eq_refl)|].
    destruct ((code c <? 32) || (code c =? 60) || (code c =? 62)
              || (code c =? 38)) eqn:Eu.
    + eexists. split; [reflexivity|]. intros Q m HQ. unfold json.u00.
      destruct (nibbles c) as (Hh & Hl & Hc).
      destruct (hex_lower_spec _ Hh) as [H1 U1].
      destruct (hex_lower_spec _ Hl) as [H2 U2].
      change (str ((bytes "\u00"
                    ++ [hex_lower (code c / 16); hex_lower (code c mod 16)])
                   ++ Q))
        with (String (chr 92)
                (String (chr 117)
                   (String "0"
                      (String "0"
                         (String (hex_lower (code c / 16))
                            (String (hex_lower (code c mod 16)) (str Q))))))).
      assert (H128 : 0 <= code c < 128).
      { pose proof (code_range c). unfold utf8.RuneSelf in Ea.
        apply Z.ltb_lt in Ea. lia. }
      rewrite (unquote_u4 "0" "0" _ _ _ m (code c)
                 eq_refl eq_refl H1 H2); try exact HQ.
      * rewrite (EncodeRune_1 _ H128), chr_code. reflexivity.
      * rewrite U1, U2. change (unhex "0") with 0. lia.
      * unfold json.IsSurrogate. apply andb_false_iff. left.
        apply Z.leb_gt. lia.
    + eexists. split; [reflexivity|]. intros Q m HQ.
      repeat (apply orb_false_iff in Eu as [Eu ?]).
      change (str ([c] ++ Q)) with (String c (str Q)).
      now apply unquote_plain.
  - destruct (utf8.DecodeRune (String c r)) as [rr size] eqn:Ed.
    destruct ((rr =? utf8.RuneError) && (size =? 1)%nat) eqn:Er;
      [discriminate|].
    intros H. inversion H; subst. clear H.
    destruct (DecodeRune_size _ _ _ Ed) as [k Hk]; [discriminate|].
    subst size. cbn [pred].
    destruct ((rr =? 8232) || (rr =? 8233)) eqn:Eu.
    + eexists. split; [reflexivity|]. intros Q m HQ.
      assert (Hr : 0 <= rr mod 16 < 16) by (apply Z.mod_pos_bound; lia).
      destruct (hex_lower_spec _ Hr) as [H1 U1].
      change (str ((bytes "\u202" ++ [hex_lower (rr mod 16)]) ++ Q))
        with (String (chr 92)
                (String (chr 117)
                   (String "2"
                      (String "0"
                         (String "2"
                            (String (hex_lower (rr mod 16)) (str Q))))))).
      rewrite (unquote_u4 "2" "0" "2" _ _ m rr
                 eq_refl eq_refl eq_refl H1); try exact HQ.
      * rewrite (Encode_Decode _ _ _ Ed Er) by discriminate. reflexivity.
      * rewrite U1. change (unhex "2") with 2. change (unhex "0") with 0.
        apply orb_true_iff in Eu as [Eu | Eu]; apply Z.eqb_eq in Eu;
          subst rr; reflexivity.
      * apply orb_true_iff in Eu as [Eu | Eu]; apply Z.eqb_eq in Eu;
          subst rr; reflexivity.
    + eexists. split; [reflexivity|]. intros Q m HQ.
      change (take (S k) (String c r)) with (String c (take k r)).
      rewrite str_app, str_bytes.
      change (String c (take k r) +++ str Q)
        with (String c (take k r +++ str Q)).
      now apply (unquote_rune c r rr k).
Qed.

Lemma unquote_quote (n : nat) :
  forall s, (String.length s <= n)%nat -> valid_from 0 s = true ->
            json.unquote_from 0 (str (json.quote_from 0 s))
            = Some (bytes s).
Proof.
  induction n as [|n IH]; intros s Hlen Hv.
  - destruct s; [reflexivity | simpl in Hlen; lia].
  - destruct s as [|c r]; [reflexivity|]. simpl in Hlen.
    change (valid_from 0 (String c r))
      with (match valid_step (String c r) with
            | Some k => valid_from k r
            | None => false
            end) in Hv.
    destruct (valid_step (String c r)) as [k|] eqn:Es; [|discriminate].
    destruct (quote_unquote_step c r k Es) as (out & Hq & Hu).
    rewrite valid_from_skip in Hv.
    change (json.quote_from 0 (String c r))
      with (let '(out, k) := json.quote_step (String c r) in
            out ++ json.quote_from k r).
    rewrite Hq, quote_from_skip.
    rewrite (Hu _ (bytes (drop k r)));
      [|apply IH; [pose proof (drop_length k r); lia | exact Hv]].
    rewrite <- bytes_app.
    change (take (S k) (String c r)) with (String c (take k r)).
    change (String c (take k r) +++ drop k r)
      with (String c (take k r +++ drop k r)).
    now rewrite take_drop.
Qed.

(** What the encoder writes for a string is always a valid JSON text, and
    a string of valid UTF-8 is read back from it as it was: the quote, the
    backslash, control bytes, [<], [>], [&] and the line and paragraph
    separators are escaped on the way out and resolved on the way in. *)
Theorem appendString_round_trip (s old : string) :
  json.Valid (json.appendString s) = true
  /\ (ValidString s = true ->
      json.Unmarshal (json.appendString s) old = Some s).
Proof.
  assert (Hlex : json.lex (json.appendString s)
                 = Some [json.TString (str (json.quote_from 0 s))]).
  { unfold json.lex, json.appendString.
    change (String dquote (str (json.quote_from 0 s)) +++ String dquote "")
      with (String dquote (str (json.quote_from 0 s) +++ String dquote "")).
    cbn [json.lex_from].
    change (json.lex_step json.LStart dquote)
      with (Some (json.LStr [], @nil json.token)).
    cbv iota.
    rewrite (lex_srun _ SStr SStr [] _ (quote_from_srun _ s (le_n _))).
    cbn [lex_state_of json.lex_from json.lex_step].
    change (code dquote =? 34) with true. cbv iota.
    cbn [json.lex_end List.app].
    now rewrite app_nil_r, rev_involutive. }
  assert (Hparse : json.parse (json.appendString s)
                   = Some (json.String_ (str (json.quote_from 0 s)))).
  { unfold json.parse. rewrite Hlex. reflexivity. }
  split.
  - unfold json.Valid. now rewrite Hparse.
  - intros Hv. unfold json.Unmarshal. rewrite Hparse.
    unfold json.decode, json.Unmarshaler_string, json.unquote.
    rewrite (unquote_quote _ s (le_n _) Hv). simpl. now rewrite str_bytes.
Qed.

Lemma appendString_round_trip_witness :
  ValidString escaped_name = true
  /\ json.appendString escaped_name <> quoted escaped_name
  /\ json.Unmarshal (json.appendString escaped_name) "" = Some escaped_name.
Proof.
  assert (Hv : ValidString escaped_name = true) by (vm_compute; reflexivity).
  split; [exact Hv|]. split; [vm_compute; discriminate|].
  exact (proj2 (appendString_round_trip escaped_name "") Hv).
Defined.


(** ** Configuration and start *)

Lemma HasPrefix_colon (c : ascii) (s : string) :
  HasPrefix (String c s) ":" = Ascii.eqb c ":"%char.
Proof.
  unfold HasPrefix. cbn [String.prefix].
  destruct (ascii_dec ":" c) as [E | Hn].
  - subst c. rewrite Ascii.eqb_refl. destruct s; reflexivity.
  - symmetry. apply Ascii.eqb_neq. congruence.
Qed.

Lemma LoadConfig_inl (getenv : string -> string) (c : Config) :
  config.LoadConfig getenv = inl c ->
  WeatherAPIKey c = getenv "WEATHER_API_KEY"
  /\ getenv "WEATHER_API_KEY" <> ""
  /\ HasPrefix (ServerPort c) ":" = true.
Proof.
  unfold config.LoadConfig. intros H.
  destruct (String.eqb_spec (getenv "WEATHER_API_KEY") "") as [E | E];
    [discriminate|].
  inversion H. cbn [WeatherAPIKey ServerPort].
  split; [reflexivity|]. split; [exact E|].
  destruct (getenv "SERVER_PORT") as [|x p]; [reflexivity|].
  destruct (Ascii.eqb x ":") eqn:Ex; cbn [negb String.append];
    rewrite HasPrefix_colon; [exact Ex | reflexivity].
Qed.

(** [LoadConfig] fails exactly when [WEATHER_API_KEY] is empty or not
    set.  Otherwise the key is taken as it is, the port of the
    configuration always begins with a colon, and loading is idempotent:
    with the port of the configuration put back into [SERVER_PORT], the
    same configuration is read. *)
Theorem LoadConfig_spec (getenv : string -> string) :
  ((exists msg, config.LoadConfig getenv = inr msg)
   <-> getenv "WEATHER_API_KEY" = "")
  /\ forall c,
       config.LoadConfig getenv = inl c ->
       WeatherAPIKey c = getenv "WEATHER_API_KEY"
       /\ HasPrefix (ServerPort c) ":" = true
       /\ (getenv "SERVER_PORT" = "" -> ServerPort c = ":8081")
       /\ (HasPrefix (getenv "SERVER_PORT") ":" = true ->
           ServerPort c = getenv "SERVER_PORT")
       /\ config.LoadConfig (setenv "SERVER_PORT" (ServerPort c) getenv)
          = inl c.
Proof.
  unfold config.LoadConfig. split.
  - destruct (String.eqb_spec (getenv "WEATHER_API_KEY") "") as [E | E].
    + split; [intros _; exact E | intros _; eexists; reflexivity].
    + split; [intros [msg H]; discriminate | intros H; now elim E].
  - intros c H.
    destruct (String.eqb_spec (getenv "WEATHER_API_KEY") "") as [E | E];
      [discriminate|].
    inversion H as [Hc]. clear H. cbn [WeatherAPIKey ServerPort].
    unfold setenv. cbn [String.eqb Ascii.eqb Bool.eqb].
    apply String.eqb_neq in E. rewrite E.
    destruct (getenv "SERVER_PORT") as [|x p] eqn:Ep.
    + repeat split. intros H. discriminate H.
    + destruct (Ascii.eqb x ":") eqn:Ex;
        cbn [negb String.append]; rewrite ?HasPrefix_colon, ?Ex;
        cbn [negb Ascii.eqb Bool.eqb];
        repeat split; intros H; discriminate H.
Qed.

(** The address that [main] works out from [SERVER_PORT] is the port of
    the configuration. *)
Lemma main_port (getenv : string -> string) (c : Config) :
  config.LoadConfig getenv = inl c ->
  (let port := getenv "SERVER_PORT" in
   let port := if String.eqb port "" then "8081" else port in
   if negb (HasPrefix port ":") then ":" +++ port else port)
  = ServerPort c.
Proof.
  intros H. unfold config.LoadConfig in H.
  destruct (String.eqb (getenv "WEATHER_API_KEY") ""); [discriminate|].
  inversion H. cbn [ServerPort]. cbv zeta.
  destruct (getenv "SERVER_PORT") as [|x p]; [reflexivity|].
  cbn [String.eqb]. now rewrite HasPrefix_colon.
Qed.

(** [main] gets to serve exactly when the tracer provider could be set up
    and the configuration loads.  The address of the server is then the
    port of that configuration, though [main] does not read it there but
    works it out again from [SERVER_PORT]; it always begins with a colon.
    When the tracer provider fails, the process ends before the
    configuration is read, so that a missing key goes unreported; when
    the key is missing, [main] panics with the message of
    [LoadConfig]. *)
Theorem main_serves (getenv : string -> string)
    (exporter resource : option string) :
  (forall addr a,
     main getenv exporter resource = Serves addr a
     <-> exporter = None /\ resource = None
         /\ config.LoadConfig getenv = inl (cfg a)
         /\ addr = ServerPort (cfg a))
  /\ (forall addr a, main getenv exporter resource = Serves addr a ->
        HasPrefix addr ":" = true
        /\ WeatherAPIKey (cfg a) = getenv "WEATHER_API_KEY"
        /\ getenv "WEATHER_API_KEY" <> "")
  /\ (exporter <> None \/ resource <> None ->
      exists msg, main getenv exporter resource = Fatal msg)
  /\ (exporter = None -> resource = None ->
      getenv "WEATHER_API_KEY" = "" ->
      main getenv exporter resource
      = Panics ("failed to load config: WEATHER_API_KEY is not set; "
                +++ "please provide it via environment variable")).
Proof.
  split; [|split; [|split]].
  - intros addr a. unfold main, initTracerProvider. split.
    + destruct exporter; [discriminate|]. destruct resource; [discriminate|].
      destruct (config.LoadConfig getenv) as [c | err] eqn:El;
        [|discriminate].
      pose proof (main_port getenv _ El) as Hp. cbv zeta in Hp.
      rewrite Hp. intros H. inversion H. repeat split.
    + intros (-> & -> & El & ->). rewrite El.
      pose proof (main_port getenv _ El) as Hp. cbv zeta in Hp.
      rewrite Hp. now destruct a.
  - intros addr a H. unfold main in H.
    destruct (initTracerProvider exporter resource); [discriminate|].
    destruct (config.LoadConfig getenv) as [c | err] eqn:El; [|discriminate].
    pose proof (main_port getenv _ El) as Hp. cbv zeta in Hp.
    rewrite Hp in H. inversion H. cbn [cfg].
    destruct (LoadConfig_inl getenv c El) as (Hk1 & Hk2 & Hk3).
    repeat split; assumption.
  - intros H. unfold main, initTracerProvider.
    destruct exporter; [eexists; reflexivity|].
    destruct resource; [eexists; reflexivity|].
    destruct H as [H | H]; now elim H.
  - intros -> -> Hk. unfold main, initTracerProvider, config.LoadConfig.
    rewrite Hk. reflexivity.
Qed.

(** ** The stream decoder *)

Lemma feed_app (a b : list json.token) :
  forall m stack,
    Decoder.feed m stack (a ++ b)
    = match Decoder.feed m stack a with
      | Some (m', stack') => Decoder.feed m' stack' b
      | None => None
      end.
Proof.
  induction a as [|t a IH]; intros m stack; [reflexivity|].
  simpl. destruct (json.parse_step m stack t) as [[m' stack']|];
    [apply IH | reflexivity].
Qed.

Lemma parse_from_feed (ts : list json.token) :
  forall m stack,
    json.parse_from m stack ts
    = match Decoder.feed m stack ts with
      | Some (json.MDone v, _) => Some v
      | _ => None
      end.
Proof.
  induction ts as [|t ts IH]; intros m stack.
  - simpl. now destruct m.
  - simpl. destruct (json.parse_step m stack t) as [[m' stack']|];
      [apply IH | reflexivity].
Qed.

Lemma feed_done (ts : list json.token) (v : json.value)
    (stack : list json.frame) :
  Decoder.feed (json.MDone v) stack ts
  = match ts with [] => Some (json.MDone v, stack) | _ => None end.
Proof. destruct ts; reflexivity. Qed.

(** A number token completes the top-level value only as that value. *)
Lemma number_done (m : json.mode) (stack stack' : list json.frame)
    (lit : string) (v : json.value) :
  json.parse_step m stack (json.TNumber lit) = Some (json.MDone v, stack') ->
  v = json.Number lit.
Proof.
  assert (Hc : forall st, json.complete (json.Number lit) st
                          = Some (json.MDone v, stack') ->
                          v = json.Number lit).
  { intros st H. unfold json.complete in H.
    destruct st as [|[done|done [key|]] st]; inversion H; reflexivity. }
  destruct m; simpl; try discriminate; apply Hc.
Qed.

(** A lexer step that emits tokens returns to the start state, unless it
    only ends a number at a byte that begins another token. *)
Lemma lex_step_emits (st st' : json.lexstate) (c : ascii)
    (toks : list json.token) :
  json.lex_step st c = Some (st', toks) -> toks <> [] ->
  st' = json.LStart
  \/ exists ns acc,
       st = json.LNum ns acc /\ json.num_final ns = true
       /\ json.num_next ns c = None
       /\ toks = [json.TNumber (str (rev acc))].
Proof.
  assert (Hs : forall st1 toks1, json.lex_start c = Some (st1, toks1) ->
                                 toks1 <> [] -> st1 = json.LStart).
  { intros st1 toks1 H Hn. unfold json.lex_start in H.
    repeat match type of H with
           | (if ?b then _ else _) = _ => destruct b
           end; inversion H; subst; try reflexivity; now elim Hn. }
  intros H Hn. destruct st as [|acc|acc|n acc|ns acc|rest t];
    cbn [json.lex_step] in H.
  - left. eapply Hs; eassumption.
  - repeat match type of H with
           | (if ?b then _ else _) = _ => destruct b
           end; inversion H; subst; first [now elim Hn | now left].
  - cbv zeta in H.
    repeat match type of H with
           | (if ?b then _ else _) = _ => destruct b
           end; inversion H; subst; now elim Hn.
  - destruct (is_hex c); [|discriminate].
    destruct n as [|[|k]]; inversion H; subst; now elim Hn.
  - destruct (json.num_next ns c) as [ns'|] eqn:En.
    + inversion H; subst. now elim Hn.
    + destruct (json.num_final ns) eqn:Ef; [|discriminate].
      destruct (json.lex_start c) as [[st1 toks1]|] eqn:Es; [|discriminate].
      inversion H; subst.
      destruct toks1 as [|t1 toks1].
      * right. exists ns, acc. repeat split; first [assumption | reflexivity].
      * left. apply (Hs _ _ eq_refl). discriminate.
  - destruct rest as [|x rest']; [discriminate|].
    destruct (Ascii.eqb c x); [|discriminate].
    destruct rest'; inversion H; subst; [now left | now elim Hn].
Qed.

Lemma length_app (a b : string) :
  String.length (a +++ b) = (String.length a + String.length b)%nat.
Proof. induction a as [|c a IH]; simpl; [reflexivity | now rewrite IH]. Qed.

Lemma take_app_length (p r : string) : take (String.length p) (p +++ r) = p.
Proof. induction p as [|c p IH]; simpl; [now destruct r | now rewrite IH]. Qed.

(** The step of [readValue_from] that ends the value at the byte read. *)
Lemma closing_step (st st' : json.lexstate) (m : json.mode)
    (stack stack' : list json.frame) (c : ascii) (toks : list json.token)
    (v : json.value) :
  (forall v', m <> json.MDone v') ->
  Decoder.top_number st m stack && negb (Decoder.continues st c) = false ->
  json.lex_step st c = Some (st', toks) ->
  Decoder.feed m stack toks = Some (json.MDone v, stack') ->
  json.lex_from st (String c EmptyString) = Some toks
  /\ json.parse_from m stack toks = Some v.
Proof.
  intros Hm Hif Hl Hf.
  assert (Hn : toks <> []).
  { intros ->. simpl in Hf. inversion Hf. now elim (Hm v). }
  split; [|rewrite parse_from_feed, Hf; reflexivity].
  cbn [json.lex_from]. rewrite Hl.
  destruct (lex_step_emits _ _ _ _ Hl Hn) as [-> | (ns & acc & -> & Hfin & Hnx & ->)].
  - cbn [json.lex_from json.lex_end]. now rewrite app_nil_r.
  - exfalso. simpl in Hf.
    destruct (json.parse_step m stack (json.TNumber (str (rev acc))))
      as [[m1 st1]|] eqn:Ep; [|discriminate].
    inversion Hf; subst.
    unfold Decoder.top_number, Decoder.continues in Hif.
    rewrite Hfin, Ep, Hnx in Hif. discriminate.
Qed.

(** Soundness: the bytes that [readValue] hands over are a prefix of the
    stream and a valid JSON text. *)
Lemma readValue_from_sound (s : string) :
  forall st m stack k n,
    (forall v, m <> json.MDone v) ->
    Decoder.readValue_from st m stack s k = Some n ->
    exists p rest ts v,
      s = p +++ rest /\ n = (k + String.length p)%nat
      /\ json.lex_from st p = Some ts
      /\ json.parse_from m stack ts = Some v.
Proof.
  assert (Hnum : forall st m stack,
            Decoder.top_number st m stack = true ->
            exists ts v, json.lex_from st "" = Some ts
                         /\ json.parse_from m stack ts = Some v).
  { intros st m stack H. unfold Decoder.top_number in H.
    destruct st as [| | | |ns acc|]; try discriminate.
    apply andb_true_iff in H as [Hf Hp].
    destruct (json.parse_step m stack (json.TNumber (str (rev acc))))
      as [[[] st1]|] eqn:Ep; try discriminate.
    exists [json.TNumber (str (rev acc))], v.
    cbn [json.lex_from json.lex_end json.parse_from]. rewrite Hf, Ep.
    split; reflexivity. }
  induction s as [|c r IH]; intros st m stack k n Hm H.
  - cbn [Decoder.readValue_from] in H.
    destruct (Decoder.top_number st m stack) eqn:Et; [|discriminate].
    inversion H; subst. destruct (Hnum _ _ _ Et) as (ts & v & Hl & Hp).
    exists "", "", ts, v. repeat split; try assumption. simpl. lia.
  - cbn [Decoder.readValue_from] in H.
    destruct (Decoder.top_number st m stack
              && negb (Decoder.continues st c)) eqn:Eif.
    + inversion H; subst. apply andb_true_iff in Eif as [Et _].
      destruct (Hnum _ _ _ Et) as (ts & v & Hl & Hp).
      exists "", (String c r), ts, v. repeat split; try assumption.
      simpl. lia.
    + destruct (json.lex_step st c) as [[st' toks]|] eqn:El; [|discriminate].
      destruct (Decoder.feed m stack toks) as [[m' stack']|] eqn:Ef;
        [|discriminate].
      destruct m' as [| | | | | |v];
        try (apply IH in H; [|discriminate];
             destruct H as (p & rest & ts & v & -> & -> & Hl & Hp);
             exists (String c p), rest, (toks ++ ts), v;
             split; [reflexivity|]; split; [simpl; lia|];
             split; [cbn [json.lex_from]; rewrite El, Hl; reflexivity|];
             rewrite parse_from_feed, feed_app, Ef, <- parse_from_feed;
             exact Hp).
      inversion H; subst.
      destruct (closing_step _ _ _ _ _ _ _ _ Hm Eif El Ef) as [Hl Hp].
      exists (String c ""), r, toks, v. repeat split; try assumption.
      simpl. lia.
Qed.

(** Completeness: a text that is a valid JSON value other than a number
    is read as the first value of every stream that begins with it. *)
Lemma readValue_from_complete (s : string) (rest : string) :
  forall st m stack k ts v,
    (forall v', m <> json.MDone v') ->
    json.lex_from st s = Some ts ->
    json.parse_from m stack ts = Some v ->
    (forall lit, v <> json.Number lit) ->
    exists p q ts',
      s = p +++ q
      /\ Decoder.readValue_from st m stack (s +++ rest) k
         = Some (k + String.length p)%nat
      /\ json.lex_from st p = Some ts'
      /\ json.parse_from m stack ts' = Some v.
Proof.
  induction s as [|c r IH]; intros st m stack k ts v Hm Hl Hp Hv.
  - exfalso. cbn [json.lex_from] in Hl.
    destruct st as [| | | |ns acc|]; cbn [json.lex_end] in Hl;
      try discriminate.
    + inversion Hl; subst. cbn in Hp. destruct m; try discriminate.
      now elim (Hm v0).
    + destruct (json.num_final ns); [|discriminate].
      inversion Hl; subst. cbn [json.parse_from] in Hp.
      destruct (json.parse_step m stack (json.TNumber (str (rev acc))))
        as [[m1 st1]|] eqn:Ep; [|discriminate].
      destruct m1; try discriminate. inversion Hp; subst.
      apply number_done in Ep. now elim (Hv (str (rev acc))).
  - cbn [json.lex_from] in Hl.
    destruct (json.lex_step st c) as [[st' toks]|] eqn:El; [|discriminate].
    destruct (json.lex_from st' r) as [more|] eqn:Em; [|discriminate].
    inversion Hl; subst ts. clear Hl.
    rewrite parse_from_feed, feed_app in Hp.
    destruct (Decoder.feed m stack toks) as [[m' stack']|] eqn:Ef;
      [|discriminate].
    cbn [String.append Decoder.readValue_from].
    destruct (Decoder.top_number st m stack
              && negb (Decoder.continues st c)) eqn:Eif.
    + exfalso. apply andb_true_iff in Eif as [Et Ec].
      unfold Decoder.top_number in Et.
      destruct st as [| | | |ns acc|]; try discriminate.
      apply andb_true_iff in Et as [Hfin Hq].
      destruct (json.parse_step m stack (json.TNumber (str (rev acc))))
        as [[[] st1]|] eqn:Ep; try discriminate.
      apply number_done in Ep as Hv0. subst v0.
      unfold Decoder.continues in Ec. apply negb_true_iff in Ec.
      cbn [json.lex_step] in El.
      destruct (json.num_next ns c); [discriminate|].
      rewrite Hfin in El.
      destruct (json.lex_start c) as [[st1' toks1]|]; [|discriminate].
      inversion El; subst. cbn [Decoder.feed] in Ef. rewrite Ep in Ef.
      rewrite feed_done in Ef. destruct toks1; [|discriminate].
      inversion Ef; subst. rewrite feed_done in Hp.
      destruct more; [|discriminate]. inversion Hp.
      now elim (Hv (str (rev acc))).
    + rewrite El, Ef.
      destruct m' as [| | | | | |v'];
        try (rewrite <- parse_from_feed in Hp;
             match type of Hp with
             | json.parse_from ?mm _ _ = _ =>
                 destruct (IH st' mm stack' (S k) more v
                             ltac:(intros; discriminate) Em Hp Hv)
                   as (p & q0 & ts' & -> & Hr & Hl' & Hp')
             end;
             exists (String c p), q0, (toks ++ ts');
             split; [reflexivity|];
             split; [rewrite Hr; f_equal; simpl; lia|];
             split; [cbn [json.lex_from]; rewrite El, Hl'; reflexivity|];
             rewrite parse_from_feed, feed_app, Ef, <- parse_from_feed;
             exact Hp').
      rewrite feed_done in Hp. destruct more; [|discriminate].
      inversion Hp; subst v'.
      destruct (closing_step _ _ _ _ _ _ _ _ Hm Eif El Ef) as [Hl' Hp'].
      exists (String c ""), r, toks. repeat split; try assumption.
      f_equal. simpl. lia.
Qed.

(** The scan of a stream that begins with a complete value other than a
    bare number ends inside that value, and the bytes read hold it. *)
Lemma readValue_first_value (body rest : string) (v : json.value) :
  json.parse body = Some v ->
  (forall lit, v <> json.Number lit) ->
  exists n,
    Decoder.readValue (body +++ rest) = Some n
    /\ json.parse (take n (body +++ rest)) = Some v.
Proof.
  intros Hp Hv. unfold json.parse, json.lex in Hp.
  destruct (json.lex_from json.LStart body) as [ts|] eqn:El; [|discriminate].
  destruct (readValue_from_complete body rest json.LStart json.MValue []
              0%nat ts v) as (p & q0 & ts' & -> & Hr & Hl' & Hp');
    try assumption; try discriminate.
  exists (0 + String.length p)%nat. split; [exact Hr|]. simpl plus.
  assert (Ha : (p +++ q0) +++ rest = p +++ (q0 +++ rest)).
  { clear. induction p as [|c p IH]; simpl; [reflexivity | now rewrite IH]. }
  rewrite Ha, take_app_length.
  unfold json.parse, json.lex. now rewrite Hl'.
Qed.

(** The decoder reads the first value of the stream and does not look at
    what follows it: a body that is a valid JSON text, other than a bare
    number, is decoded in the same way whatever bytes come after it. *)
Theorem Decode_first_value {T : Type} `{json.Unmarshaler T}
    (body rest : string) (old : T) (v : json.value) :
  json.parse body = Some v ->
  (forall lit, v <> json.Number lit) ->
  Decoder.Decode (body +++ rest) old = json.Unmarshal body old.
Proof.
  intros Hp Hv.
  destruct (readValue_first_value body rest v Hp Hv) as (n & Hr & Hq).
  unfold Decoder.Decode, json.Unmarshal. now rewrite Hr, Hq, Hp.
Qed.

Lemma Decode_first_value_witness :
  json.parse body_cep
  = Some (json.Object [("cep", json.String_ "01001000")])
  /\ Decoder.Decode (body_cep +++ "} and more") service_a.zero_ZipCode
     = json.Unmarshal body_cep service_a.zero_ZipCode.
Proof.
  assert (Hp : json.parse body_cep
               = Some (json.Object [("cep", json.String_ "01001000")]))
    by (vm_compute; reflexivity).
  split; [exact Hp|].
  apply (Decode_first_value body_cep "} and more" service_a.zero_ZipCode _ Hp).
  discriminate.
Defined.


(** What the decoder hands to [Unmarshal] is the prefix of the stream
    that its scan has read; it is a valid JSON text, and it ends where the
    first value of the stream is complete: no shorter prefix of the stream
    holds a complete value, unless that value is a bare number (a number
    is read as far as it goes). *)
Theorem Decode_reads_valid_prefix {T : Type} `{json.Unmarshaler T}
    (s : string) (old new : T) :
  Decoder.Decode s old = Some new ->
  exists p rest,
    s = p +++ rest
    /\ Decoder.readValue s = Some (String.length p)
    /\ json.Valid p = true
    /\ json.Unmarshal p old = Some new
    /\ (forall q q' v,
          p = q +++ q' -> q' <> "" -> json.parse q = Some v ->
          exists lit, v = json.Number lit).
Proof.
  unfold Decoder.Decode, Decoder.readValue. intros Hd.
  destruct (Decoder.readValue_from json.LStart json.MValue [] s 0)
    as [n|] eqn:Er; [|discriminate].
  pose proof Er as Er'.
  apply readValue_from_sound in Er'; [|discriminate].
  destruct Er' as (p & rest & ts & v & -> & -> & Hl & Hp).
  simpl plus in Hd. rewrite take_app_length in Hd.
  exists p, rest. split; [reflexivity|]. split; [reflexivity|].
  split; [unfold json.Valid, json.parse, json.lex; now rewrite Hl, Hp|].
  split; [exact Hd|].
  intros q q' v' -> Hq' Hv'.
  assert (D : (exists lit, v' = json.Number lit)
              \/ (forall lit, v' <> json.Number lit)).
  { destruct v'; try (right; intros; discriminate).
    left. eexists. reflexivity. }
  destruct D as [D | D]; [exact D | exfalso].
  unfold json.parse, json.lex in Hv'.
  destruct (json.lex_from json.LStart q) as [tq|] eqn:Elq; [|discriminate].
  destruct (readValue_from_complete q (q' +++ rest) json.LStart json.MValue
              [] 0%nat tq v') as (p0 & q0 & ts0 & Hq & Hr & _);
    try assumption; try discriminate.
  assert (Ha : (q +++ q') +++ rest = q +++ (q' +++ rest)).
  { clear. induction q as [|c q IH]; simpl; [reflexivity | now rewrite IH]. }
  rewrite Ha, Hr in Er. inversion Er as [Hn].
  rewrite Hq, !length_app in Hn.
  destruct q' as [|c q']; [now elim Hq'|]. simpl in Hn. lia.
Qed.

Lemma Decode_reads_valid_prefix_witness :
  Decoder.Decode (body_cep +++ "  ]") service_a.zero_ZipCode
  = Some {| service_a.CEP := "01001000" |}
  /\ exists p rest,
       body_cep +++ "  ]" = p +++ rest
       /\ Decoder.readValue (body_cep +++ "  ]") = Some (String.length p)
       /\ json.Valid p = true
       /\ json.Unmarshal p service_a.zero_ZipCode
          = Some {| service_a.CEP := "01001000" |}
       /\ (forall q q' v,
             p = q +++ q' -> q' <> "" -> json.parse q = Some v ->
             exists lit, v = json.Number lit).
Proof.
  assert (Hd : Decoder.Decode (body_cep +++ "  ]") service_a.zero_ZipCode
               = Some {| service_a.CEP := "01001000" |})
    by (vm_compute; reflexivity).
  split; [exact Hd|].
  exact (Decode_reads_valid_prefix _ _ _ Hd).
Defined.


(** ** The entry point [service-a] *)

(** [run_a] unfolds the handler of [service-a] and its monad, and leaves
    the operations of the response writer to the lemmas that follow. *)
Ltac run_a :=
  cbv beta iota zeta delta
    [service_a.handler service_a.handler_body service_a.bind service_a.ret
     service_a.emit service_a.defer service_a.respond service_a.tracer_Start
     service_a.span_End service_a.span_RecordError
     service_a.span_SetAttributes service_a.NewRequestWithContext
     service_a.client_Do service_a.log_Printf service_a.return_
     service_a.panic service_a.trace service_a.w service_a.defers
     span_name span_parent out_url out_ctx List.app map flat_map filter
     service_a.run_deferred negb
     service_a.status service_a.body service_a.calls service_a.events
     service_a.panicked service_a.response service_a.sent_header
     service_a.started service_a.ended service_a.serviceBURL
     service_a.CEP service_a.StatusCode service_a.ReadAll].

(** The header that [http.Error] leaves in a map that was empty. *)
Lemma Error_fresh (msg : string) (code : Z) (t : list service_a.event)
    (d : list service_a.deferred) :
  200 <= code <= 999 ->
  service_a.bodyAllowedForStatus code = true ->
  service_a.Error msg code
    {| service_a.trace := t; service_a.w := service_a.NewResponse;
       service_a.defers := d |}
  = (Next tt,
     {| service_a.trace := t;
        service_a.w :=
          {| service_a.Header :=
               [("Content-Type", "text/plain; charset=utf-8");
                ("X-Content-Type-Options", "nosniff")];
             service_a.informational := [];
             service_a.committed :=
               Some (code, [("Content-Type", "text/plain; charset=utf-8");
                            ("X-Content-Type-Options", "nosniff")]);
             service_a.written := msg +++ http.newline |};
        service_a.defers := d |}).
Proof.
  intros Hc Hb.
  unfold service_a.Error, service_a.Write, service_a.WriteHeader,
    service_a.bind, service_a.respond, service_a.ret. cbn.
  assert (E1 : (code <? 100) || (999 <? code) = false).
  { apply orb_false_iff. split; [apply Z.ltb_ge | apply Z.ltb_ge]; lia. }
  assert (E2 : (100 <=? code) && (code <=? 199) && negb (code =? 101) = false).
  { apply andb_false_iff. left. apply andb_false_iff. right.
    apply Z.leb_gt. lia. }
  rewrite E1, E2. cbn.
  destruct msg; cbn; rewrite Hb; reflexivity.
Qed.

Lemma WriteHeader_final (code : Z) (s : service_a.world) :
  service_a.committed (service_a.w s) = None ->
  200 <= code <= 999 \/ code = 101 ->
  service_a.WriteHeader code s
  = (Next tt,
     {| service_a.trace := service_a.trace s;
        service_a.w :=
          {| service_a.Header := service_a.Header (service_a.w s);
             service_a.informational :=
               service_a.informational (service_a.w s);
             service_a.committed :=
               Some (code, service_a.Header (service_a.w s));
             service_a.written := service_a.written (service_a.w s) |};
        service_a.defers := service_a.defers s |}).
Proof.
  intros Hn Hc. unfold service_a.WriteHeader. rewrite Hn.
  assert (E1 : (code <? 100) || (999 <? code) = false).
  { apply orb_false_iff. split; [apply Z.ltb_ge | apply Z.ltb_ge]; lia. }
  assert (E2 : (100 <=? code) && (code <=? 199) && negb (code =? 101) = false).
  { destruct Hc as [Hc | ->]; [|reflexivity].
    apply andb_false_iff. left. apply andb_false_iff. right.
    apply Z.leb_gt. lia. }
  rewrite E1, E2. reflexivity.
Qed.

Lemma WriteHeader_informational (code : Z) (s : service_a.world) :
  service_a.committed (service_a.w s) = None ->
  100 <= code <= 199 -> code <> 101 ->
  service_a.WriteHeader code s
  = (Next tt,
     {| service_a.trace := service_a.trace s;
        service_a.w :=
          {| service_a.Header := service_a.Header (service_a.w s);
             service_a.informational :=
               service_a.informational (service_a.w s)
               ++ [(code, service_a.Header (service_a.w s))];
             service_a.committed := None;
             service_a.written := service_a.written (service_a.w s) |};
        service_a.defers := service_a.defers s |}).
Proof.
  intros Hn Hc H1. unfold service_a.WriteHeader. rewrite Hn.
  assert (E1 : (code <? 100) || (999 <? code) = false).
  { apply orb_false_iff. split; [apply Z.ltb_ge | apply Z.ltb_ge]; lia. }
  assert (E2 : (100 <=? code) && (code <=? 199) && negb (code =? 101) = true).
  { apply andb_true_iff. split; [apply andb_true_iff; split; apply Z.leb_le; lia|].
    apply negb_true_iff, Z.eqb_neq. exact H1. }
  rewrite E1, E2. reflexivity.
Qed.

Lemma WriteHeader_invalid (code : Z) (s : service_a.world) :
  service_a.committed (service_a.w s) = None ->
  code < 100 \/ 999 < code ->
  service_a.WriteHeader code s = (Panicked, s).
Proof.
  intros Hn Hc. unfold service_a.WriteHeader. rewrite Hn.
  assert (E1 : (code <? 100) || (999 <? code) = true).
  { apply orb_true_iff. destruct Hc; [left; apply Z.ltb_lt | right; apply Z.ltb_lt]; lia. }
  now rewrite E1.
Qed.

Lemma Write_committed (data : string) (code : Z) (h : service_a.header)
    (s : service_a.world) :
  service_a.committed (service_a.w s) = Some (code, h) ->
  service_a.Write data s
  = match data with
    | EmptyString => (Next None, s)
    | _ =>
        if service_a.bodyAllowedForStatus code
        then (Next None,
              {| service_a.trace := service_a.trace s;
                 service_a.w := service_a.append_body data (service_a.w s);
                 service_a.defers := service_a.defers s |})
        else (Next (Some service_a.ErrBodyNotAllowed), s)
    end.
Proof.
  intros Hc. unfold service_a.Write, service_a.WriteHeader, service_a.bind.
  rewrite Hc. destruct data; [reflexivity|].
  rewrite Hc. destruct (service_a.bodyAllowedForStatus code); reflexivity.
Qed.


Lemma Write_uncommitted (data : string) (s : service_a.world) :
  service_a.committed (service_a.w s) = None ->
  service_a.Write data s
  = service_a.Write data
      {| service_a.trace := service_a.trace s;
         service_a.w :=
           {| service_a.Header := service_a.Header (service_a.w s);
              service_a.informational :=
                service_a.informational (service_a.w s);
              service_a.committed :=
                Some (http.StatusOK, service_a.Header (service_a.w s));
              service_a.written := service_a.written (service_a.w s) |};
         service_a.defers := service_a.defers s |}.
Proof.
  intros Hn. unfold service_a.Write at 1. unfold service_a.bind.
  rewrite (WriteHeader_final http.StatusOK s Hn)
    by (unfold http.StatusOK; lia).
  symmetry. erewrite Write_committed by reflexivity.
  destruct data; reflexivity.
Qed.

Ltac side_a := first [reflexivity | assumption | cbv; intuition discriminate].

Ltac follow_a_step :=
  match goal with
  | H : String.eqb (service_a.Method ?r) "POST" = _
    |- context [String.eqb (service_a.Method ?r) "POST"] => rewrite H
  | H : Decoder.Decode ?b ?z = _ |- context [Decoder.Decode ?b ?z] =>
      rewrite H
  | H : service_a.isValidZipCode ?c = _
    |- context [service_a.isValidZipCode ?c] => rewrite H
  | H : service_a.url_Parse ?o ?u = _
    |- context [service_a.url_Parse ?o ?u] => rewrite H
  | H : service_a.RoundTrip ?o ?u = _
    |- context [service_a.RoundTrip ?o ?u] => rewrite H
  | H : service_a.ReadAll ?r = _ |- context [service_a.ReadAll ?r] =>
      rewrite H
  | |- context [service_a.Error _ _ _] => rewrite Error_fresh by side_a
  end.

Ltac follow_a :=
  unfold service_a.serviceBURL in *; run_a; repeat (follow_a_step; run_a).

Ltac use_accepted H :=
  let Hm := fresh "Hmethod" in
  let Hd := fresh "Hdecode" in
  let Hv := fresh "Hvalid" in
  destruct H as (Hm & Hd & Hv);
  apply (proj2 (String.eqb_eq _ _)) in Hm.

(** The three refusals of the entry point.  A request that is not a
    POST is answered 405 whatever its body; a body from which no JSON
    value can be decoded into [ZipCode] is answered 400; a decoded postal
    code that is not eight digits is answered 422.  In all three cases the
    orchestration service is not called, and the body is one line of
    plain text. *)
Theorem service_a_refusals (o : service_a.Outside) (r : service_a.Request) :
  let s := service_a.handler o r in
  (service_a.Method r <> "POST" ->
   service_a.status s = Some 405
   /\ service_a.body s = "apenas POST é permitido" +++ http.newline
   /\ service_a.events s
      = [service_a.SpanStart "service-a-handler" (service_a.Request_Context r);
         service_a.SpanEnd "service-a-handler"])
  /\ (service_a.Method r = "POST" ->
      Decoder.Decode (service_a.Body r) service_a.zero_ZipCode = None ->
      service_a.status s = Some 400
      /\ service_a.body s
         = "falha ao decodificar o body da requisição" +++ http.newline
      /\ service_a.calls s = []
      /\ In (service_a.RecordError "service-a-handler" service_a.EDecode)
           (service_a.events s))
  /\ (service_a.Method r = "POST" ->
      forall z,
        Decoder.Decode (service_a.Body r) service_a.zero_ZipCode = Some z ->
        service_a.isValidZipCode (service_a.CEP z) = false ->
        service_a.status s = Some 422
        /\ service_a.body s = "invalid zipcode" +++ http.newline
        /\ service_a.calls s = []
        /\ In (service_a.SetAttributes "service-a-handler"
                 "validation.status" "failed") (service_a.events s)).
Proof.
  cbv zeta. split; [|split].
  - intros Hm. apply String.eqb_neq in Hm. follow_a. repeat split.
  - intros Hm Hd. apply (proj2 (String.eqb_eq _ _)) in Hm.
    follow_a. repeat split. simpl. tauto.
  - intros Hm [cep] Hd Hv. apply (proj2 (String.eqb_eq _ _)) in Hm.
    simpl in Hv. follow_a. repeat split. simpl. tauto.
Qed.


(** [split_a] follows every branch of the entry point up to the relay of
    the answer, recording in the context the test that selects it. *)
Ltac split_a_step :=
  match goal with
  | |- context [String.eqb (service_a.Method ?r) "POST"] =>
      destruct (String.eqb (service_a.Method r) "POST") eqn:?
  | |- context [match Decoder.Decode ?b ?z with _ => _ end] =>
      destruct (Decoder.Decode b z) as [[?]|] eqn:?
  | |- context [service_a.isValidZipCode ?c] =>
      destruct (service_a.isValidZipCode c) eqn:?
  | |- context [if service_a.url_Parse ?o ?u then _ else _] =>
      destruct (service_a.url_Parse o u) eqn:?
  | |- context [match service_a.RoundTrip ?o ?u with _ => _ end] =>
      destruct (service_a.RoundTrip o u) as [? | [? [? | ?]]] eqn:?
  | |- context [service_a.Error _ _ _] => rewrite Error_fresh by side_a
  end.

Ltac split_a := run_a; repeat (split_a_step; run_a).

(** The relay of the answer, by the status code of the answer. *)
Ltac relay_cases code b :=
  destruct (Z_lt_le_dec code 100);
  [ rewrite WriteHeader_invalid by (first [reflexivity | lia])
  | destruct (Z_lt_le_dec 999 code);
    [ rewrite WriteHeader_invalid by (first [reflexivity | lia])
    | destruct (Z_le_gt_dec code 199);
      [ destruct (Z.eq_dec code 101);
        [ subst code;
          rewrite WriteHeader_final by (first [reflexivity | now right]);
          run_a; erewrite Write_committed by reflexivity;
          change (service_a.bodyAllowedForStatus 101) with false; destruct b
        | rewrite WriteHeader_informational by (first [reflexivity | lia]);
          run_a; rewrite Write_uncommitted by reflexivity;
          erewrite Write_committed by reflexivity;
          change (service_a.bodyAllowedForStatus http.StatusOK) with true;
          destruct b ]
      | rewrite WriteHeader_final by (first [reflexivity | left; lia]);
        run_a; erewrite Write_committed by reflexivity;
        destruct b; [|destruct (service_a.bodyAllowedForStatus code)] ] ] ];
  run_a.

Ltac refute_a :=
  let Hm := fresh "Hm" in let Hd := fresh "Hd" in let Hv := fresh "Hv" in
  let Hu := fresh "Hu" in let Hn := fresh "Hn" in let Hc := fresh "Hc" in
  intros (? & ? & ? & (Hm & Hd & Hv) & Hu & Hn & Hc);
  unfold service_a.serviceBURL in *;
  try match goal with
      | H : String.eqb (service_a.Method _) "POST" = false |- _ =>
          apply String.eqb_neq in H; contradiction
      end;
  try congruence;
  match goal with
  | H : Decoder.Decode _ _ = Some {| service_a.CEP := ?c |} |- _ =>
      lazymatch type of Hd with
      | _ = Some {| service_a.CEP := ?c' |} =>
          tryif constr_eq c c' then fail
          else (assert (c' = c) by congruence; subst c')
      end
  end;
  try congruence;
  match goal with
  | H : service_a.RoundTrip _ _ = service_a.DoOk ?x |- _ =>
      lazymatch type of Hn with
      | _ = service_a.DoOk ?x' =>
          tryif constr_eq x x' then fail
          else (assert (E : x' = x) by congruence; inversion E; subst)
      end
  end;
  first [lia | discriminate].

Lemma append_empty (s : string) : s +++ "" = s.
Proof. induction s as [|c s IH]; simpl; [reflexivity | now rewrite IH]. Qed.

(** The whole run of an accepted request that the orchestration service
    answers with a three-digit status from 200 up. *)
Lemma relay_served (o : service_a.Outside) (r : service_a.Request)
    (cep : string) (code : Z) (b : string) :
  service_a.accepted r cep ->
  service_a.url_Parse o (service_a.serviceBURL o +++ "/" +++ cep) = true ->
  service_a.RoundTrip o (service_a.serviceBURL o +++ "/" +++ cep)
  = service_a.DoOk {| service_a.StatusCode := code;
                      service_a.ReadAll := service_a.ReadOk b |} ->
  200 <= code <= 999 ->
  service_a.handler o r
  = {| service_a.panicked := false;
       service_a.events :=
         [service_a.SpanStart "service-a-handler"
            (service_a.Request_Context r);
          service_a.SetAttributes "service-a-handler" "validation.status"
            "success";
          service_a.SpanStart "call-service-b"
            ("service-a-handler" :: service_a.Request_Context r);
          service_a.Do
            {| out_ctx := "service-a-handler" :: service_a.Request_Context r;
               out_method := "GET";
               out_url := service_a.serviceBURL o +++ "/" +++ cep |};
          service_a.SpanEnd "call-service-b"]
         ++ match b with
            | EmptyString => []
            | _ => if service_a.bodyAllowedForStatus code then []
                   else [service_a.Log "falha ao escrever a resposta: %v"
                           service_a.ErrBodyNotAllowed]
            end
         ++ [service_a.ResponseBodyClose; service_a.RequestBodyClose;
             service_a.SpanEnd "service-a-handler"];
       service_a.response :=
         {| service_a.Header := [("Content-Type", "application/json")];
            service_a.informational := [];
            service_a.committed := Some (code, []);
            service_a.written :=
              if service_a.bodyAllowedForStatus code then b else "" |} |}.
Proof.
  intros Ha Hu Hn Hc. use_accepted Ha.
  follow_a.
  rewrite WriteHeader_final by (first [reflexivity | now left]).
  run_a. erewrite Write_committed by reflexivity.
  destruct b as [|c0 b].
  - run_a. destruct (service_a.bodyAllowedForStatus code); reflexivity.
  - destruct (service_a.bodyAllowedForStatus code); run_a; reflexivity.
Qed.

(** For an accepted request the span of the call is started once and
    ended once, whatever comes of the call. *)
Lemma accepted_call_span (o : service_a.Outside) (r : service_a.Request)
    (cep : string) :
  service_a.accepted r cep ->
  service_a.started "call-service-b" (service_a.handler o r) = 1%nat
  /\ service_a.ended "call-service-b" (service_a.handler o r) = 1%nat.
Proof.
  intros Ha. use_accepted Ha. follow_a.
  repeat (split_a_step; run_a);
    try match goal with
        | |- context [service_a.WriteHeader ?code _] =>
            match goal with
            | H : service_a.RoundTrip _ _
                  = service_a.DoOk
                      {| service_a.StatusCode := code;
                         service_a.ReadAll := service_a.ReadOk ?b |} |- _ =>
                relay_cases code b
            end
        end;
    split; reflexivity.
Qed.

(** The relay.  For an accepted request the entry point makes one GET
    request to the base URL of the orchestration service followed by a
    slash and the postal code, in the context of the handler span (the
    context of the span [call-service-b] is dropped on line 423).  When
    the orchestration service answers with a three-digit status from 200
    up, that status is written and the body is passed on byte for byte.
    The content type [application/json] is put in the header map only
    after the status is written, so it is not part of the response. *)
Theorem service_a_relays (o : service_a.Outside) (r : service_a.Request)
    (cep : string) (resp : service_a.Response) (b : string) :
  service_a.accepted r cep ->
  service_a.url_Parse o (service_a.serviceBURL o +++ "/" +++ cep) = true ->
  service_a.RoundTrip o (service_a.serviceBURL o +++ "/" +++ cep)
  = service_a.DoOk resp ->
  service_a.ReadAll resp = service_a.ReadOk b ->
  200 <= service_a.StatusCode resp <= 999 ->
  let s := service_a.handler o r in
  service_a.panicked s = false
  /\ service_a.status s = Some (service_a.StatusCode resp)
  /\ service_a.body s
     = (if service_a.bodyAllowedForStatus (service_a.StatusCode resp)
        then b else "")
  /\ service_a.sent_header s = []
  /\ service_a.Header (service_a.response s)
     = [("Content-Type", "application/json")]
  /\ service_a.calls s
     = [{| out_ctx := "service-a-handler" :: service_a.Request_Context r;
           out_method := "GET";
           out_url := service_a.serviceBURL o +++ "/" +++ cep |}]
  /\ service_a.started "call-service-b" s = 1%nat
  /\ service_a.ended "call-service-b" s = 1%nat.
Proof.
  intros Ha Hu Hn Hb Hc.
  destruct resp as [code rd]. simpl in Hb, Hc. subst rd.
  cbv zeta. rewrite (relay_served o r cep code b Ha Hu Hn Hc).
  simpl service_a.StatusCode.
  destruct b; destruct (service_a.bodyAllowedForStatus code);
    repeat split.
Qed.

Lemma service_a_relays_witness :
  let o := outside_of
             (service_a.DoOk {| service_a.StatusCode := 404;
                                service_a.ReadAll :=
                                  service_a.ReadOk "can not find zipcode" |}) in
  service_a.accepted (post body_cep) "01001000"
  /\ service_a.status (service_a.handler o (post body_cep)) = Some 404
  /\ service_a.body (service_a.handler o (post body_cep))
     = "can not find zipcode"
  /\ service_a.sent_header (service_a.handler o (post body_cep)) = [].
Proof.
  cbv zeta.
  assert (Ha : service_a.accepted (post body_cep) "01001000").
  { split; [reflexivity|]. split; [vm_compute; reflexivity | reflexivity]. }
  split; [exact Ha|].
  destruct (service_a_relays
              (outside_of
                 (service_a.DoOk
                    {| service_a.StatusCode := 404;
                       service_a.ReadAll :=
                         service_a.ReadOk "can not find zipcode" |}))
              (post body_cep) "01001000" _ "can not find zipcode" Ha
              ltac:(vm_compute; reflexivity) eq_refl eq_refl
              ltac:(simpl; lia))
    as (_ & H1 & H2 & H3 & _).
  split; [exact H1|]. split; [exact H2 | exact H3].
Defined.


(** Failures behind an accepted request.  When the URL of the
    orchestration service does not parse, no call is made; when the round
    trip fails, or the body of the answer cannot be read, the status that
    the orchestration service may have sent is dropped.  All three are
    answered 500 with one line that says which step failed, the error is
    recorded on a span, and the span of the call is ended. *)
Theorem service_a_failures (o : service_a.Outside) (r : service_a.Request)
    (cep : string) :
  service_a.accepted r cep ->
  let s := service_a.handler o r in
  let u := service_a.serviceBURL o +++ "/" +++ cep in
  service_a.started "call-service-b" s = 1%nat
  /\ service_a.ended "call-service-b" s = 1%nat
  /\ (service_a.url_Parse o u = false ->
      service_a.status s = Some 500
      /\ service_a.body s
         = "falha ao criar a requisição para o Serviço B" +++ http.newline
      /\ service_a.calls s = []
      /\ In (service_a.RecordError "call-service-b" service_a.ENewRequest)
           (service_a.events s))
  /\ (service_a.url_Parse o u = true ->
      forall err,
        service_a.RoundTrip o u = service_a.DoErr err ->
        service_a.status s = Some 500
        /\ service_a.body s = "falha ao chamar o Serviço B" +++ http.newline
        /\ In (service_a.RecordError "call-service-b"
                 (service_a.ERoundTrip err)) (service_a.events s))
  /\ (service_a.url_Parse o u = true ->
      forall code err,
        service_a.RoundTrip o u
        = service_a.DoOk {| service_a.StatusCode := code;
                            service_a.ReadAll := service_a.ReadErr err |} ->
        service_a.status s = Some 500
        /\ service_a.body s
           = "falha ao ler a resposta do Serviço B" +++ http.newline
        /\ In (service_a.RecordError "service-a-handler"
                 (service_a.ERead err)) (service_a.events s)).
Proof.
  intros Ha. destruct (accepted_call_span o r cep Ha) as [Hs He].
  use_accepted Ha. cbv zeta.
  split; [exact Hs|]. split; [exact He|]. split; [|split].
  - intros Hu. follow_a. repeat split. simpl. tauto.
  - intros Hu err Hn. follow_a. repeat split. simpl. tauto.
  - intros Hu code err Hn. follow_a. repeat split. simpl. tauto.
Qed.

Lemma service_a_failures_witness :
  let o := outside_of (service_a.DoErr "connection refused") in
  service_a.accepted (post body_cep) "01001000"
  /\ service_a.status (service_a.handler o (post body_cep)) = Some 500
  /\ service_a.body (service_a.handler o (post body_cep))
     = "falha ao chamar o Serviço B" +++ http.newline
  /\ service_a.ended "call-service-b" (service_a.handler o (post body_cep))
     = 1%nat.
Proof.
  cbv zeta.
  assert (Ha : service_a.accepted (post body_cep) "01001000").
  { split; [reflexivity|]. split; [vm_compute; reflexivity | reflexivity]. }
  split; [exact Ha|].
  destruct (service_a_failures
              (outside_of (service_a.DoErr "connection refused"))
              (post body_cep) "01001000" Ha)
    as (_ & He & _ & Hd & _).
  destruct (Hd ltac:(vm_compute; reflexivity) "connection refused" eq_refl)
    as (H1 & H2 & _).
  split; [exact H1|]. split; [exact H2 | exact He].
Defined.


(** The spans of the entry point, in every run, whatever its outcome: the
    span of the handler is started first and ended last, once; the span
    of the call is ended as often as it is started; at most one call is
    made, and it carries the context of the handler span.  The handler
    panics in one case only: the orchestration service answered with a
    status code that does not have three digits, which [WriteHeader]
    refuses. *)
Theorem service_a_spans (o : service_a.Outside) (r : service_a.Request) :
  let s := service_a.handler o r in
  hd_error (service_a.events s)
  = Some (service_a.SpanStart "service-a-handler"
            (service_a.Request_Context r))
  /\ hd_error (rev (service_a.events s))
     = Some (service_a.SpanEnd "service-a-handler")
  /\ service_a.started "service-a-handler" s = 1%nat
  /\ service_a.ended "service-a-handler" s = 1%nat
  /\ service_a.started "call-service-b" s
     = service_a.ended "call-service-b" s
  /\ (List.length (service_a.calls s)
      <= service_a.started "call-service-b" s <= 1)%nat
  /\ (forall rq, In rq (service_a.calls s) ->
        out_ctx rq = "service-a-handler" :: service_a.Request_Context r)
  /\ (service_a.panicked s = true <->
      exists cep code b,
        service_a.accepted r cep
        /\ service_a.url_Parse o (service_a.serviceBURL o +++ "/" +++ cep)
           = true
        /\ service_a.RoundTrip o (service_a.serviceBURL o +++ "/" +++ cep)
           = service_a.DoOk {| service_a.StatusCode := code;
                               service_a.ReadAll := service_a.ReadOk b |}
        /\ (code < 100 \/ 999 < code)).
Proof.
  cbv zeta. split_a;
    try match goal with
        | |- context [service_a.WriteHeader ?code _] =>
            match goal with
            | H : service_a.RoundTrip _ _
                  = service_a.DoOk
                      {| service_a.StatusCode := code;
                         service_a.ReadAll := service_a.ReadOk ?b |} |- _ =>
                relay_cases code b
            end
        end;
    (split; [reflexivity|]); (split; [reflexivity|]);
    (split; [reflexivity|]); (split; [reflexivity|]);
    (split; [reflexivity|]); (split; [simpl; lia|]);
    (split;
     [intros rq Hin; simpl in Hin;
      first [contradiction
            | destruct Hin as [Hin | []]; subst rq; reflexivity]|]);
    (split;
     [intros Hp;
      first [discriminate Hp
            | do 3 eexists;
              split; [split; [apply String.eqb_eq; eassumption|];
                      split; eassumption|];
              split; [eassumption|]; split; [eassumption|]; lia]
     |first [reflexivity | refute_a]]).
Qed.

(** A body that [json.Unmarshal] would accept as a [ZipCode] is accepted
    with anything after it: the entry point does not see what follows the
    first JSON value of the request body. *)
Theorem service_a_first_value (o : service_a.Outside) (m : string)
    (ctx : Context) (body rest : string) (z : service_a.ZipCode) :
  json.Unmarshal body service_a.zero_ZipCode = Some z ->
  Decoder.Decode (body +++ rest) service_a.zero_ZipCode = Some z
  /\ service_a.handler o
       {| service_a.Method := m; service_a.Body := body +++ rest;
          service_a.Request_Context := ctx |}
     = service_a.handler o
         {| service_a.Method := m; service_a.Body := body;
            service_a.Request_Context := ctx |}.
Proof.
  intros Hu.
  assert (Hv : exists v, json.parse body = Some v
                         /\ forall lit, v <> json.Number lit).
  { unfold json.Unmarshal in Hu.
    destruct (json.parse body) as [v|]; [|discriminate].
    exists v. split; [reflexivity|]. intros lit ->. discriminate Hu. }
  destruct Hv as (v & Hp & Hn).
  assert (Hd : forall more,
             Decoder.Decode (body +++ more) service_a.zero_ZipCode = Some z).
  { intros more.
    destruct (readValue_first_value body more v Hp Hn) as (n & Hr & Hq).
    unfold Decoder.Decode, json.Unmarshal in *.
    rewrite Hr, Hq. now rewrite Hp in Hu. }
  pose proof (Hd rest) as H1. pose proof (Hd "") as H2.
  rewrite append_empty in H2.
  split; [exact H1|].
  unfold service_a.handler, service_a.handler_body.
  cbn [service_a.Body service_a.Method service_a.Request_Context].
  rewrite H1, H2. reflexivity.
Qed.

Lemma service_a_first_value_witness :
  json.Unmarshal body_cep service_a.zero_ZipCode
  = Some {| service_a.CEP := "01001000" |}
  /\ Decoder.Decode (body_cep +++ "]]") service_a.zero_ZipCode
     = Some {| service_a.CEP := "01001000" |}.
Proof.
  assert (Hu : json.Unmarshal body_cep service_a.zero_ZipCode
               = Some {| service_a.CEP := "01001000" |})
    by (vm_compute; reflexivity).
  split; [exact Hu|].
  exact (proj1 (service_a_first_value
                  (outside_of (service_a.DoErr "")) "POST" [] body_cep "]]"
                  _ Hu)).
Defined.


(** ** The two services together *)

(** What the orchestration handler answers to a request that passed its
    validation. *)
Lemma validated_status (net : http.Transport) (a : app) (r : Request)
    (cep : string) :
  validated r cep ->
  let s := handler net a r in
  (panicked s = true /\ status s = None)
  \/ (panicked s = false
      /\ (status s = Some 200 \/ status s = Some 404 \/ status s = Some 500)).
Proof.
  intros Hv. use_validated Hv. cbv zeta. follow.
  repeat (split_step; run);
    first [ left; split; reflexivity
          | right; split; [reflexivity|];
            first [ left; reflexivity
                  | right; left; reflexivity
                  | right; right; reflexivity ] ].
Qed.

(** A request accepted by the entry point and forwarded to the
    orchestration handler always passes the validation of that handler:
    the answer 422 of the orchestration service cannot occur behind the
    entry point.  When the answer of the orchestration handler comes back
    over the network, the entry point answers with the same status and
    the same bytes. *)
Theorem entry_to_orchestration (o : service_a.Outside)
    (r : service_a.Request) (cep : string) (net : http.Transport) (a : app)
    (ctx : Context) (code : Z) :
  service_a.accepted r cep ->
  service_a.url_Parse o (service_a.serviceBURL o +++ "/" +++ cep) = true ->
  let sb := handler net a {| URL_Path := "/" +++ cep;
                             Request_Context := ctx |} in
  status sb = Some code ->
  service_a.RoundTrip o (service_a.serviceBURL o +++ "/" +++ cep)
  = service_a.DoOk {| service_a.StatusCode := code;
                      service_a.ReadAll := service_a.ReadOk (body sb) |} ->
  let sa := service_a.handler o r in
  (code = 200 \/ code = 404 \/ code = 500)
  /\ panicked sb = false
  /\ service_a.panicked sa = false
  /\ service_a.status sa = Some code
  /\ service_a.body sa = body sb.
Proof.
  intros Ha Hu. cbv zeta. intros Hs Hn.
  assert (Hv : validated {| URL_Path := "/" +++ cep; Request_Context := ctx |}
                 cep).
  { split; [reflexivity|]. exact (proj2 (proj2 Ha)). }
  pose proof (validated_status net a _ cep Hv) as Hvs. cbv zeta in Hvs.
  set (sb := handler net a _) in *.
  destruct Hvs as [[_ Hnone] | [Hp Hc]];
    [rewrite Hnone in Hs; discriminate|].
  assert (Hcode : code = 200 \/ code = 404 \/ code = 500).
  { rewrite Hs in Hc.
    destruct Hc as [Hc | [Hc | Hc]]; inversion Hc; tauto. }
  split; [exact Hcode|]. split; [exact Hp|].
  rewrite (relay_served o r cep code (body sb) Ha Hu Hn) by lia.
  assert (Hb : service_a.bodyAllowedForStatus code = true)
    by (destruct Hcode as [-> | [-> | ->]]; reflexivity).
  unfold service_a.status, service_a.body. simpl.
  rewrite Hb. repeat split.
Qed.

Lemma entry_to_orchestration_witness :
  let sb := handler (net_of body_sao_paulo body_25) app_test
              {| URL_Path := "/" +++ "01001000"; Request_Context := [] |} in
  let o := outside_of
             (service_a.DoOk {| service_a.StatusCode := 200;
                                service_a.ReadAll :=
                                  service_a.ReadOk (body sb) |}) in
  status sb = Some 200
  /\ service_a.status (service_a.handler o (post body_cep)) = Some 200
  /\ service_a.body (service_a.handler o (post body_cep)) = body sb.
Proof.
  cbv zeta.
  assert (Ha : service_a.accepted (post body_cep) "01001000").
  { split; [reflexivity|]. split; [vm_compute; reflexivity | reflexivity]. }
  assert (Hs : status (handler (net_of body_sao_paulo body_25) app_test
                         {| URL_Path := "/" +++ "01001000";
                            Request_Context := [] |}) = Some 200)
    by (vm_compute; reflexivity).
  split; [exact Hs|].
  pose proof (entry_to_orchestration
                (outside_of
                   (service_a.DoOk
                      {| service_a.StatusCode := 200;
                         service_a.ReadAll :=
                           service_a.ReadOk
                             (body (handler (net_of body_sao_paulo body_25)
                                      app_test
                                      {| URL_Path := "/" +++ "01001000";
                                         Request_Context := [] |})) |}))
                (post body_cep) "01001000"
                (net_of body_sao_paulo body_25) app_test [] 200 Ha) as H.
  cbv zeta in H.
  destruct (H eq_refl Hs eq_refl) as (_ & _ & _ & H1 & H2).
  split; [exact H1 | exact H2].
Defined.

